(** * Dash-Data-Acquisition: the framing protocol, the ring-buffer forwarder,
    the command dispatcher and the consumer-side session manager

    Shallow embedding of [src/server.py] and [src/daqSocketManager.py].

    Conventions of the embedding
    - a Python [int] is a [Z]; a Python [bytes] is a [list byte]; a Python
      [str] is the list of its Unicode code points ([list Z]);
    - a C double / Python float is carried as its IEEE-754 binary64 bit
      pattern (a [Z] below [2^64]); no floating-point arithmetic is done
      on samples anywhere in the modelled code, they are only moved;
    - a socket is a record holding the future of the receive side (a list
      of arrival events), the bytes written so far and a script of
      write-side faults;
    - code that can raise returns a [result]; code that touches a socket is
      a function from the socket to a result and the new socket, so that
      whatever was consumed before an exception stays consumed;
    - [logger.info] and [print] calls are not modelled: they act on no
      state the functions below read. *)

From Stdlib Require Import ZArith List Lia Bool String Ascii.
From Stdlib Require Import Strings.Byte DecimalString.
Import ListNotations.
Open Scope Z_scope.

(** ** Bytes and [struct] packing *)

Module Bytes.

Definition byte_of_Z (z : Z) : byte :=
  match Byte.of_N (Z.to_N (z mod 256)) with
  | Some b => b
  | None => x00
  end.

Definition Z_of_byte (b : byte) : Z := Z.of_N (Byte.to_N b).

(** [n] little-endian bytes of [v] (the low [8 n] bits). *)
Fixpoint le_bytes (n : nat) (v : Z) : list byte :=
  match n with
  | O => []
  | S k => byte_of_Z v :: le_bytes k (Z.shiftr v 8)
  end.

(** The unsigned integer a little-endian byte string stands for. *)
Fixpoint le_value (bs : list byte) : Z :=
  match bs with
  | [] => 0
  | b :: r => Z.lor (Z_of_byte b) (Z.shiftl (le_value r) 8)
  end.

End Bytes.
Import Bytes.

(** ** Exceptions and results *)

Inductive exn : Type :=
| TimeoutError
| ConnectionResetError
| BrokenPipeError
| StructError          (* struct.error *)
| UnicodeEncodeError
| UnicodeDecodeError
| JSONDecodeError
| TypeError
| AttributeError
| IndexError
| ULError.             (* mcculw.ul.ULError *)

Definition exn_eqb (a b : exn) : bool :=
  match a, b with
  | TimeoutError, TimeoutError
  | ConnectionResetError, ConnectionResetError
  | BrokenPipeError, BrokenPipeError
  | StructError, StructError
  | UnicodeEncodeError, UnicodeEncodeError
  | UnicodeDecodeError, UnicodeDecodeError
  | JSONDecodeError, JSONDecodeError
  | TypeError, TypeError
  | AttributeError, AttributeError
  | IndexError, IndexError
  | ULError, ULError => true
  | _, _ => false
  end.

Inductive result (A : Type) : Type :=
| Ok (a : A)
| Raise (e : exn).
Arguments Ok {A} a.
Arguments Raise {A} e.

(** ** Python values that travel through the codec *)

(** A Python [str]: its code points. *)
Definition pystr := list Z.

#[local] Set Warnings "-register-all".
Inductive pyval : Type :=
| PNone
| PBool (b : bool)
| PInt (z : Z)
| PFloat (bits : Z)
| PStr (s : pystr)
| PBytes (b : list byte)
| PList (l : list pyval)
| PDict (d : list (pyval * pyval)).

(** The code points of a Rocq string literal, to write Python literals. *)
Fixpoint str_of (s : string) : pystr :=
  match s with
  | EmptyString => []
  | String a r => Z.of_N (N_of_ascii a) :: str_of r
  end.

Fixpoint bytes_of (s : string) : list byte :=
  match s with
  | EmptyString => []
  | String a r => byte_of_Z (Z.of_N (N_of_ascii a)) :: bytes_of r
  end.

Fixpoint pystr_eqb (a b : pystr) : bool :=
  match a, b with
  | [], [] => true
  | x :: a', y :: b' => (x =? y) && pystr_eqb a' b'
  | _, _ => false
  end.

(** [len] of a str or of a bytes object. *)
Definition len {A : Type} (l : list A) : Z := Z.of_nat (List.length l).

(** ** [struct.pack] / [struct.unpack] *)

Module Struct.

(** [struct.pack('<I', v)]: four little-endian bytes; [struct.error] when
    [v] is not in [0, 2^32). *)
Definition pack_I (v : Z) : result (list byte) :=
  if (0 <=? v) && (v <? 2 ^ 32) then Ok (le_bytes 4 v) else Raise StructError.

(** [struct.unpack('<I', b)[0]]: [struct.error] unless [b] has 4 bytes. *)
Definition unpack_I (b : list byte) : result Z :=
  match b with
  | [_; _; _; _] => Ok (le_value b)
  | _ => Raise StructError
  end.

(** [struct.pack('<d', x)]: the eight little-endian bytes of the binary64
    pattern of [x]. *)
Definition pack_d (bits : Z) : list byte := le_bytes 8 bits.

(** [struct.pack('<' + 'd' * len(l), *l)]. *)
Definition pack_doubles (l : list Z) : list byte := flat_map pack_d l.

(** Groups of eight bytes read as binary64 patterns. *)
Fixpoint unpack_groups (n : nat) (b : list byte) : list Z :=
  match n with
  | O => []
  | S k => le_value (firstn 8 b) :: unpack_groups k (skipn 8 b)
  end.

(** [struct.unpack('<' + 'd' * l, b)]: [struct.error] unless [b] has
    exactly [8 l] bytes. *)
Definition unpack_doubles (l : Z) (b : list byte) : result (list Z) :=
  if len b =? 8 * l then Ok (unpack_groups (Z.to_nat l) b) else Raise StructError.

End Struct.
Import Struct.

(** ** UTF-8 *)

Module Utf8.

(** [chr(cp).encode('utf-8')]; lone surrogates and values outside the
    Unicode range cannot be encoded. *)
Definition encode_cp (cp : Z) : result (list byte) :=
  if cp <? 0 then Raise UnicodeEncodeError
  else if cp <? 128 then Ok [byte_of_Z cp]
  else if cp <? 2048 then
    Ok [byte_of_Z (Z.lor 192 (Z.shiftr cp 6));
        byte_of_Z (Z.lor 128 (Z.land cp 63))]
  else if cp <? 65536 then
    if (55296 <=? cp) && (cp <=? 57343) then Raise UnicodeEncodeError
    else
      Ok [byte_of_Z (Z.lor 224 (Z.shiftr cp 12));
          byte_of_Z (Z.lor 128 (Z.land (Z.shiftr cp 6) 63));
          byte_of_Z (Z.lor 128 (Z.land cp 63))]
  else if cp <? 1114112 then
    Ok [byte_of_Z (Z.lor 240 (Z.shiftr cp 18));
        byte_of_Z (Z.lor 128 (Z.land (Z.shiftr cp 12) 63));
        byte_of_Z (Z.lor 128 (Z.land (Z.shiftr cp 6) 63));
        byte_of_Z (Z.lor 128 (Z.land cp 63))]
  else Raise UnicodeEncodeError.

(** [s.encode('utf-8')]. *)
Fixpoint encode (s : pystr) : result (list byte) :=
  match s with
  | [] => Ok []
  | cp :: r =>
      match encode_cp cp with
      | Raise e => Raise e
      | Ok b =>
          match encode r with
          | Raise e => Raise e
          | Ok br => Ok (b ++ br)
          end
      end
  end.

Definition is_cont (b : byte) : bool :=
  let z := Z_of_byte b in (128 <=? z) && (z <? 192).

Definition cont_bits (b : byte) : Z := Z.land (Z_of_byte b) 63.

(** [b.decode('utf-8')], strict: overlong forms, surrogates, values above
    U+10FFFF, stray continuation bytes and truncated sequences raise.  The
    fuel is the number of bytes left, which bounds the number of code
    points. *)
Fixpoint decode_fuel (fuel : nat) (b : list byte) : result pystr :=
  match fuel with
  | O => match b with [] => Ok [] | _ => Raise UnicodeDecodeError end
  | S k =>
      match b with
      | [] => Ok []
      | b0 :: r =>
          let z0 := Z_of_byte b0 in
          let continue (cp : Z) (rest : list byte) :=
            match decode_fuel k rest with
            | Ok s => Ok (cp :: s)
            | Raise e => Raise e
            end in
          if z0 <? 128 then continue z0 r
          else if z0 <? 192 then Raise UnicodeDecodeError
          else if z0 <? 224 then
            match r with
            | b1 :: r1 =>
                let cp := Z.lor (Z.shiftl (Z.land z0 31) 6) (cont_bits b1) in
                if is_cont b1 && (128 <=? cp) then continue cp r1
                else Raise UnicodeDecodeError
            | _ => Raise UnicodeDecodeError
            end
          else if z0 <? 240 then
            match r with
            | b1 :: b2 :: r2 =>
                let cp := Z.lor (Z.shiftl (Z.land z0 15) 12)
                            (Z.lor (Z.shiftl (cont_bits b1) 6) (cont_bits b2)) in
                if is_cont b1 && is_cont b2 && (2048 <=? cp)
                   && negb ((55296 <=? cp) && (cp <=? 57343))
                then continue cp r2
                else Raise UnicodeDecodeError
            | _ => Raise UnicodeDecodeError
            end
          else if z0 <? 248 then
            match r with
            | b1 :: b2 :: b3 :: r3 =>
                let cp := Z.lor (Z.shiftl (Z.land z0 7) 18)
                            (Z.lor (Z.shiftl (cont_bits b1) 12)
                               (Z.lor (Z.shiftl (cont_bits b2) 6) (cont_bits b3))) in
                if is_cont b1 && is_cont b2 && is_cont b3
                   && (65536 <=? cp) && (cp <? 1114112)
                then continue cp r3
                else Raise UnicodeDecodeError
            | _ => Raise UnicodeDecodeError
            end
          else Raise UnicodeDecodeError
      end
  end.

Definition decode (b : list byte) : result pystr := decode_fuel (List.length b) b.

End Utf8.
Import Utf8.

(** ** Sockets *)

Module Sock.

(** What the receive side of a stream socket will see, in order: a segment
    of bytes becoming readable, a read timing out, or the peer resetting
    the connection.  After the last event the peer has closed its side:
    every further [recv] returns [b''].  Empty segments carry nothing. *)
Inductive event : Type :=
| Seg (b : list byte)
| Timeout
| Reset.

Record connection : Type := mkConn {
  rx : list event;                 (* what is still to arrive *)
  tx : list byte;                  (* everything sent so far *)
  tx_faults : list (option exn);   (* outcome of the next calls of sendall *)
  closed : bool
}.

Definition set_rx (c : connection) (r : list event) : connection :=
  mkConn r (tx c) (tx_faults c) (closed c).

(** A computation on a state [S]: its result and the state afterwards. *)
Definition st (S A : Type) : Type := S -> result A * S.

Definition ret {S A} (a : A) : st S A := fun c => (Ok a, c).
Definition throw {S A} (e : exn) : st S A := fun c => (Raise e, c).
Definition bind {S A B} (m : st S A) (k : A -> st S B) : st S B :=
  fun c => match m c with
           | (Ok a, c') => k a c'
           | (Raise e, c') => (Raise e, c')
           end.
(** A pure step that may raise. *)
Definition lift {S A} (r : result A) : st S A := fun c => (r, c).

(** [try: m  except <those for which h answers>: h e]. *)
Definition try_except {S A} (m : st S A) (h : exn -> option (st S A)) : st S A :=
  fun c => match m c with
           | (Ok a, c') => (Ok a, c')
           | (Raise e, c') =>
               match h e with
               | Some k => k c'
               | None => (Raise e, c')
               end
           end.

(** A computation on a socket. *)
Definition io (A : Type) : Type := st connection A.

(** [conn.recv(bufsize)] on the receive events: at most [bufsize] bytes of
    the segment at the front; a timeout or a reset at the front is raised
    and consumed; [recv(0)] returns [b''] at once. *)
Fixpoint recv_events (n : nat) (r : list event) : result (list byte) * list event :=
  match r with
  | [] => (Ok [], [])
  | Seg [] :: r' => recv_events n r'
  | Seg b :: r' =>
      (Ok (firstn n b),
       match skipn n b with
       | [] => r'
       | rest => Seg rest :: r'
       end)
  | Timeout :: r' => (Raise TimeoutError, r')
  | Reset :: r' => (Raise ConnectionResetError, r')
  end.

Definition recv (bufsize : Z) : io (list byte) :=
  fun c =>
    if bufsize =? 0 then (Ok [], c)
    else let (res, r') := recv_events (Z.to_nat bufsize) (rx c) in
         (res, set_rx c r').

(** [conn.sendall(data)]: appends to the bytes sent unless the fault script
    says this call raises. *)
Definition sendall (data : list byte) : io unit :=
  fun c =>
    match tx_faults c with
    | Some e :: f => (Raise e, mkConn (rx c) (tx c) f (closed c))
    | None :: f => (Ok tt, mkConn (rx c) (tx c ++ data) f (closed c))
    | [] => (Ok tt, mkConn (rx c) (tx c ++ data) [] (closed c))
    end.

(** [conn.close()]. *)
Definition close (c : connection) : connection :=
  mkConn (rx c) (tx c) (tx_faults c) true.

(** A fresh connection on which [r] will arrive and no write fails. *)
Definition incoming (r : list event) : connection := mkConn r [] [] false.

End Sock.
Import Sock.

Declare Scope io_scope.
Delimit Scope io_scope with io.
Notation "x <- m ;; k" := (bind m (fun x => k))
  (at level 61, m at next level, right associativity) : io_scope.
Notation "m ;; k" := (bind m (fun _ => k))
  (at level 61, right associativity) : io_scope.

(** ** The [json] module of the Python library

    [json.dumps] and [json.loads] are not code of this repository: the
    codec is parametric in them. *)
Class Json : Type := {
  json_dumps : list pyval -> result pystr;
  json_loads : pystr -> result pyval
}.

(** ** FrameCodec: [send_msg] and [get_msg]

    [server.py] lines 19-71; [DaqSocketManager.send_msg] and
    [DaqSocketManager.get_msg] ([daqSocketManager.py] lines 125-172) are the
    same text with [self.socket] for [conn]. *)

Module Codec.
Section WithJson.
Context `{Json}.
Local Open Scope io_scope.

(** [ctypes.sizeof(ctypes.c_uint)] *)
Definition sizeof_c_uint : Z := 4.

Definition get_msg (typ : string) : io pyval :=
  recv_str <- recv sizeof_c_uint ;;
  msg0 <- lift (unpack_I recv_str) ;;
  if String.eqb typ "int" then
    ret (PInt msg0)
  else if String.eqb typ "list" then
    s <- recv msg0 ;;
    text <- lift (Utf8.decode s) ;;
    item <- lift (json_loads text) ;;
    ret item
  else if String.eqb typ "str" then
    s <- recv msg0 ;;
    ret (PBytes s)
  else
    ret (PInt (-1)).

Definition send_msg (itm : pyval) : io Z :=
  match itm with
  | PStr s =>
      packed_data <- lift (pack_I (len s)) ;;
      sendall packed_data ;;
      encoded <- lift (Utf8.encode s) ;;
      sendall encoded ;;
      ret 0
  | PInt z =>
      packed_data <- lift (pack_I z) ;;
      sendall packed_data ;;
      ret 0
  | PList l =>
      json_string <- lift (json_dumps l) ;;
      packed_data <- lift (pack_I (len json_string)) ;;
      sendall packed_data ;;
      encoded <- lift (Utf8.encode json_string) ;;
      sendall encoded ;;
      ret 0
  | _ => ret (-1)
  end.

End WithJson.
End Codec.
Import Codec.

(** ** The hardware collaborator ([mcculw.ul])

    The driver is outside the repository.  It is an oracle: which devices
    are on the bus, whether a buffer can be allocated, and which calls
    raise.  What [ul.get_status] answers at each poll is an input of the
    forwarder loop (see [poll] below). *)

Record descriptor : Type := mkDesc {
  dev_str : pystr;        (* str(device) *)
  product_id : Z;
  unique_id : pystr
}.

Inductive ul_call : Type :=
| ignore_instacal
| create_daq_device (board : Z) (d : descriptor)
| release_daq_device (board : Z)
| a_load_queue (board : Z) (channels ranges : pyval) (count : Z)
| a_in_scan (board buffer_size rate : Z)
| stop_background (board : Z)
| win_buf_free.

Class Hardware : Type := {
  get_daq_device_inventory : list descriptor;
  scaled_win_buf_alloc : Z -> option Z;   (* None: no memory handle *)
  ul : ul_call -> result unit
}.

(** Python's [len] on the values a JSON frame can carry. *)
Definition py_len (v : pyval) : result Z :=
  match v with
  | PStr s => Ok (len s)
  | PBytes b => Ok (len b)
  | PList l => Ok (len l)
  | PDict d => Ok (len d)
  | _ => Raise TypeError
  end.

(** ** StreamForwarder: [read_device_scans], [server.py] lines 74-174 *)

Module Forwarder.

(** The [Config] named tuple built by the [start] command. *)
Record Config : Type := mkConfig {
  Board : Z;
  Descriptor : option descriptor;
  Channels : pyval;
  Ranges : pyval;
  Samples : Z;
  Rate : Z
}.

(** The loop variables [samples] and [tail]. *)
Record cursor : Type := mkCursor {
  samples : Z;
  tail : Z
}.

(** One answer of [ul.get_status]: the index [head] the driver has
    written up to, with the content of the buffer at that moment; or the
    call raising. *)
Inductive poll : Type :=
| Status (head : Z) (data : list Z)
| StatusError.

(** [data[a:b]] on the buffer: the elements at indices [a .. b-1], none
    when [b <= a]. *)
Definition slice (data : list Z) (a b : Z) : list Z :=
  firstn (Z.to_nat (b - a)) (skipn (Z.to_nat a) data).

(** [int(sample_rate * number_of_channels / 2)]: the true division is
    exact on products below [2^53], and [int] truncates towards zero. *)
Definition threshold (sample_rate number_of_channels : Z) : Z :=
  Z.quot (sample_rate * number_of_channels) 2.

(** [(one_second - (one_second % 96)) * 10] *)
Definition buffer_size_of (sample_rate number_of_channels : Z) : Z :=
  let one_second := sample_rate * number_of_channels in
  (one_second - one_second mod 96) * 10.

Section WithJson.
Context `{Json}.
Local Open Scope io_scope.

(** The body of the [while flag.is_set()] loop after [ul.get_status] has
    answered [head] (lines 139-165). *)
Definition poll_cycle (sample_rate number_of_channels buffer_size : Z)
    (data : list Z) (head : Z) (st : cursor) : io cursor :=
  if head >? tail st then
    if (head - tail st) >? threshold sample_rate number_of_channels then
      let sending := head - tail st in
      let samples' := samples st + sending in
      send_msg (PInt sending) ;;
      let python_list := slice data (tail st) head in
      let packed_data := pack_doubles python_list in
      sendall packed_data ;;
      ret (mkCursor samples' head)
    else ret st
  else
    let sending := buffer_size - tail st + head in
    if sending >? threshold sample_rate number_of_channels then
      let samples' := samples st + sending in
      send_msg (PInt sending) ;;
      let python_list := slice data (tail st) buffer_size ++ slice data 0 head in
      let packed_data := pack_doubles python_list in
      sendall packed_data ;;
      ret (mkCursor samples' head)
    else ret st.

(** The loop itself: one element of [polls] per iteration in which the
    flag was found set; the flag is clear when [polls] is used up. *)
Fixpoint forward_loop (sample_rate number_of_channels buffer_size : Z)
    (polls : list poll) (st : cursor) : io cursor :=
  match polls with
  | [] => ret st
  | StatusError :: _ => throw ULError
  | Status head data :: rest =>
      st' <- poll_cycle sample_rate number_of_channels buffer_size data head st ;;
      forward_loop sample_rate number_of_channels buffer_size rest st'
  end.

(** How the thread function ends. *)
Inductive thread_end : Type :=
| NoMemory                  (* "memory allocation error" *)
| Finished (st : cursor)    (* flag cleared, device released *)
| Logged (e : exn).         (* [except Exception as e: logger.info(e)] *)

Context `{Hardware}.

Definition read_device_scans (config : Config) (polls : list poll) : io thread_end :=
  let board_number := Board config in
  number_of_channels <- lift (py_len (Channels config)) ;;
  let sample_rate := Rate config in
  let buffer_size := buffer_size_of sample_rate number_of_channels in
  match scaled_win_buf_alloc buffer_size with
  | None => ret NoMemory
  | Some memHandle =>
      try_except
        (lift (ul (a_load_queue board_number (Channels config) (Ranges config)
                     number_of_channels)) ;;
         lift (ul (a_in_scan board_number buffer_size sample_rate)) ;;
         st <- forward_loop sample_rate number_of_channels buffer_size polls
                 (mkCursor 0 0) ;;
         lift (ul (stop_background board_number)) ;;
         lift (ul win_buf_free) ;;
         lift (ul (release_daq_device board_number)) ;;
         ret (Finished st))
        (fun e => Some (ret (Logged e)))
  end.

End WithJson.
End Forwarder.

(** ** Device inventory: class [BOARDS] of [getBoard.py] *)

Module Boards.

Definition _valid_board (daq_type : Z) : bool :=
  if daq_type =? 0x113 then true
  else if daq_type =? 0x114 then true
  else if daq_type =? 0x12B then true
  else if daq_type =? 0x12C then true
  else false.

Record BOARDS : Type := mkBoards {
  available_device_list : list pyval;
  ul_list : list descriptor;
  device_count : Z
}.

(** The [for device in self.ul_list] loop of [_get_boards]. *)
Fixpoint scan_inventory (board_index : Z) (devices : list descriptor)
  : list pyval :=
  match devices with
  | [] => []
  | device :: rest =>
      let device_dict :=
        PDict [ (PStr (str_of "Name"), PStr (dev_str device));
                (PStr (str_of "Product_ID"), PInt (product_id device));
                (PStr (str_of "Serial_Number"), PStr (unique_id device));
                (PStr (str_of "Board_Number"), PInt board_index) ] in
      if _valid_board (product_id device)
      then device_dict :: scan_inventory (board_index + 1) rest
      else scan_inventory (board_index + 1) rest
  end.

(** [BOARDS()]: the constructor runs [_get_boards] and keeps its count. *)
Definition _get_boards `{Hardware} : result BOARDS :=
  match ul ignore_instacal with
  | Raise e => Raise e
  | Ok _ =>
      let found := get_daq_device_inventory in
      let available := scan_inventory 0 found in
      Ok (mkBoards available found (len available))
  end.

Definition read_boards (b : BOARDS) : list pyval := available_device_list b.

(** [self.ul_list[int(board_num)]] *)
Definition read_dev_desc (b : BOARDS) (board_num : Z) : result descriptor :=
  let n := len (ul_list b) in
  let i := if board_num <? 0 then board_num + n else board_num in
  if (0 <=? i) && (i <? n) then
    match nth_error (ul_list b) (Z.to_nat i) with
    | Some d => Ok d
    | None => Raise IndexError
    end
  else Raise IndexError.

End Boards.

(** ** CommandDispatcher: [handle_client], [server.py] lines 177-289 *)

Module Dispatcher.
Import Forwarder.

(** [str.lower()] as far as the [match message] can tell: exact on ASCII
    and on the two code points whose lowercase form contains an ASCII
    letter (U+212A KELVIN SIGN, U+0130); every other code point outside
    ASCII lowers to text outside ASCII again and is kept as it is. *)
Definition lower_cp (cp : Z) : pystr :=
  if (65 <=? cp) && (cp <=? 90) then [cp + 32]
  else if cp =? 8490 then [107]
  else if cp =? 304 then [105; 775]
  else [cp].

Definition lower (s : pystr) : pystr := flat_map lower_cp s.

(** The local variables of [handle_client]. *)
Record session : Type := mkSession {
  board_number : Z;
  board_desc : option descriptor;
  thread : option Config;     (* the forwarder thread object, by its arguments *)
  stop_event : bool;
  board_selected : bool
}.

(** What the handler does to threads. *)
Inductive action : Type :=
| Started (configuration : Config)   (* thread.start() *)
| Joined (configuration : Config).   (* thread.join() *)

Record world : Type := mkWorld {
  conn : connection;
  sess : session;
  trace : list action
}.

Definition hm (A : Type) : Type := st world A.

Definition on_conn {A} (m : io A) : hm A :=
  fun w => let (r, c') := m (conn w) in (r, mkWorld c' (sess w) (trace w)).

Definition get_sess : hm session := fun w => (Ok (sess w), w).

Definition set_sess (f : session -> session) : hm unit :=
  fun w => (Ok tt, mkWorld (conn w) (f (sess w)) (trace w)).

Definition emit (a : action) : hm unit :=
  fun w => (Ok tt, mkWorld (conn w) (sess w) (trace w ++ [a])).

Definition set_board_number (n : Z) (s : session) : session :=
  mkSession n (board_desc s) (thread s) (stop_event s) (board_selected s).
Definition set_board_desc (d : option descriptor) (s : session) : session :=
  mkSession (board_number s) d (thread s) (stop_event s) (board_selected s).
Definition set_thread (t : option Config) (s : session) : session :=
  mkSession (board_number s) (board_desc s) t (stop_event s) (board_selected s).
Definition set_stop_event (b : bool) (s : session) : session :=
  mkSession (board_number s) (board_desc s) (thread s) b (board_selected s).
Definition set_board_selected (b : bool) (s : session) : session :=
  mkSession (board_number s) (board_desc s) (thread s) (stop_event s) b.

(** The values before the [while True]. *)
Definition initial_session : session := mkSession (-1) None None false false.

Inductive loop_ctl : Type := Continue | Break.

Definition as_int (v : pyval) : Z :=
  match v with PInt z => z | _ => 0 end.

Section WithLibraries.
Context `{Json} `{Hardware}.
Local Open Scope io_scope.

(** The [match message] statement (lines 195-281). *)
Definition dispatch (boards : Boards.BOARDS) (message : pystr) : hm loop_ctl :=
  if pystr_eqb message (str_of "list") then
    let dlist := Boards.read_boards boards in
    on_conn (send_msg (PList dlist)) ;;
    ret Continue
  else if pystr_eqb message (str_of "open") then
    try_except
      (s <- get_sess ;;
       if negb (board_selected s) then
         n <- on_conn (get_msg "int") ;;
         set_sess (set_board_number (as_int n)) ;;
         d <- lift (Boards.read_dev_desc boards (as_int n)) ;;
         set_sess (set_board_desc (Some d)) ;;
         on_conn (send_msg (PStr (unique_id d))) ;;
         lift (ul ignore_instacal) ;;
         lift (ul (create_daq_device (as_int n) d)) ;;
         set_sess (set_board_selected true)
       else ret tt)
      (fun _ => Some (ret tt)) ;;
    ret Continue
  else if pystr_eqb message (str_of "start") then
    s <- get_sess ;;
    if negb (board_selected s) then
      ret Continue
    else
      input_channels <- on_conn (get_msg "list") ;;
      input_ranges <- on_conn (get_msg "list") ;;
      sample_rate <- on_conn (get_msg "int") ;;
      samples_to_display <- on_conn (get_msg "int") ;;
      let configuration :=
        mkConfig (board_number s) (board_desc s) input_channels input_ranges
          (as_int samples_to_display) (as_int sample_rate) in
      set_sess (set_stop_event true) ;;
      set_sess (set_thread (Some configuration)) ;;
      emit (Started configuration) ;;
      ret Continue
  else if pystr_eqb message (str_of "stop") then
    s <- get_sess ;;
    (if stop_event s then
       set_sess (set_stop_event false) ;;
       match thread s with
       | Some configuration => emit (Joined configuration)
       | None => throw AttributeError
       end ;;
       set_sess (set_thread None)
     else
       lift (ul (release_daq_device (board_number s)))) ;;
    set_sess (set_board_selected false) ;;
    ret Continue
  else if pystr_eqb message (str_of "exit") then
    ret Break
  else
    ret Continue.

(** One turn of the [while True] loop: the [try] block and its two
    handlers (lines 186-286). *)
Definition iteration (boards : Boards.BOARDS) : hm loop_ctl :=
  try_except
    (data <- on_conn (get_msg "str") ;;
     match data with
     | PBytes [] => ret Break
     | PBytes b =>
         text <- lift (Utf8.decode b) ;;
         dispatch boards (lower text)
     | _ => throw AttributeError
     end)
    (fun e =>
       match e with
       | TimeoutError => Some (ret Continue)
       | ConnectionResetError => Some (ret Break)
       | _ => None
       end).

(** The loop; [None] when the fuel runs out before the loop is left. *)
Fixpoint command_loop (fuel : nat) (boards : Boards.BOARDS) : hm (option unit) :=
  match fuel with
  | O => ret None
  | S k =>
      ctl <- iteration boards ;;
      match ctl with
      | Break => ret (Some tt)
      | Continue => command_loop k boards
      end
  end.

(** How the handler thread ends. *)
Inductive handler_end : Type :=
| ConnectionClosed         (* left the loop, [conn.close()] done *)
| Crashed (e : exn)        (* an exception no handler matches *)
| OutOfFuel.

(** After the loop: [conn.close()] when the loop was left by [break]; an
    exception no handler matched ends the thread where it was raised. *)
Definition leave (r : result (option unit) * world) : handler_end * world :=
  match r with
  | (Ok (Some _), w) =>
      (ConnectionClosed, mkWorld (close (conn w)) (sess w) (trace w))
  | (Ok None, w) => (OutOfFuel, w)
  | (Raise e, w) => (Crashed e, w)
  end.

Definition handle_client (fuel : nat) (c : connection) : handler_end * world :=
  let w0 := mkWorld c initial_session [] in
  match Boards._get_boards with
  | Raise e => (Crashed e, w0)
  | Ok boards => leave (command_loop fuel boards w0)
  end.

End WithLibraries.
End Dispatcher.

(** ** Function bodies with [return] inside [try ... finally] *)

(** How a block of statements ends: it falls through to the next
    statement, it executes [return v], or it raises. *)
Inductive completion : Type :=
| Fall
| Return (v : pyval)
| Throw (e : exn).

(** [except E1: ... except E2: ...] whose handler bodies fall through:
    an exception of a listed class is absorbed. *)
Definition except_falling (caught : list exn) (body : completion) : completion :=
  match body with
  | Throw e => if existsb (exn_eqb e) caught then Fall else Throw e
  | other => other
  end.

(** [finally]: when the [finally] block itself returns or raises, that
    replaces whatever the [try] statement was about to do. *)
Definition finally (body fin : completion) : completion :=
  match fin with
  | Fall => body
  | _ => fin
  end.

(** ** SessionClient and StreamReceiver: class [DaqSocketManager] *)

Module Manager.

Record DaqSocketManager : Type := mkManager {
  socket : option connection;
  running : bool;
  thread : bool;                (* self.thread is a Thread object *)
  stop_event : bool;
  data_list : list Z;
  new_data : bool;
  rate : Z;
  samples_to_display : Z;
  channels : list pyval;
  gains : list pyval
}.

Definition set_socket (s : option connection) (m : DaqSocketManager) :=
  mkManager s (running m) (thread m) (stop_event m) (data_list m) (new_data m)
    (rate m) (samples_to_display m) (channels m) (gains m).
Definition set_running (b : bool) (m : DaqSocketManager) :=
  mkManager (socket m) b (thread m) (stop_event m) (data_list m) (new_data m)
    (rate m) (samples_to_display m) (channels m) (gains m).
Definition set_thread (b : bool) (m : DaqSocketManager) :=
  mkManager (socket m) (running m) b (stop_event m) (data_list m) (new_data m)
    (rate m) (samples_to_display m) (channels m) (gains m).
Definition set_stop_event (b : bool) (m : DaqSocketManager) :=
  mkManager (socket m) (running m) (thread m) b (data_list m) (new_data m)
    (rate m) (samples_to_display m) (channels m) (gains m).
Definition set_data_list (l : list Z) (m : DaqSocketManager) :=
  mkManager (socket m) (running m) (thread m) (stop_event m) l (new_data m)
    (rate m) (samples_to_display m) (channels m) (gains m).
Definition set_new_data (b : bool) (m : DaqSocketManager) :=
  mkManager (socket m) (running m) (thread m) (stop_event m) (data_list m) b
    (rate m) (samples_to_display m) (channels m) (gains m).

(** [__init__], with the socket the caller connects later. *)
Definition init : DaqSocketManager :=
  mkManager None false false false [] false 1000 1000
    [PInt 0; PInt 1; PInt 2; PInt 3] [PInt 1; PInt 1; PInt 1; PInt 1].

Definition mm (A : Type) : Type := st DaqSocketManager A.

(** A method of [self.socket]; [None] has no methods. *)
Definition on_socket {A} (op : io A) : mm A :=
  fun m =>
    match socket m with
    | None => (Raise AttributeError, m)
    | Some c => let (r, c') := op c in (r, set_socket (Some c') m)
    end.

Definition update (f : DaqSocketManager -> DaqSocketManager) : mm unit :=
  fun m => (Ok tt, f m).

Definition get_status (m : DaqSocketManager) : bool := new_data m.

Definition get_data_list (m : DaqSocketManager) : list Z * DaqSocketManager :=
  (data_list m, set_new_data false m).

(** What joining the receiver thread does to the object: the thread has
    run concurrently and may have changed it; [None] when the thread never
    ends.  The interleaving is not the manager's code. *)
Class Scheduler : Type := {
  thread_join : DaqSocketManager -> option DaqSocketManager
}.

Section WithLibraries.
Context `{Json}.
Local Open Scope io_scope.

Definition send_msg (itm : pyval) : mm Z := on_socket (Codec.send_msg itm).
Definition get_msg (typ : string) : mm pyval := on_socket (Codec.get_msg typ).

(** [ctypes.sizeof(ctypes.c_double)] and [struct.calcsize('d')] *)
Definition size_of_double : Z := 8.

(** The inner [while len(recv_str) < chunk_size] loop (lines 349-352);
    [None] when the fuel runs out first. *)
Fixpoint recv_chunk (fuel : nat) (chunk_size : Z) (recv_str : list byte)
  : io (option (list byte)) :=
  if len recv_str <? chunk_size then
    match fuel with
    | O => ret None
    | S k =>
        let diff := Z.min (chunk_size - len recv_str) chunk_size in
        chunk <- recv diff ;;
        recv_chunk k chunk_size (recv_str ++ chunk)
    end
  else ret (Some recv_str).

(** The body of [while self.stop_event.is_set()] (lines 344-358). *)
Definition scan_once (fuel : nat) : mm (option unit) :=
  v <- get_msg "int" ;;
  let samples_to_read := Dispatcher.as_int v in
  let chunk_size := size_of_double * samples_to_read in
  r <- on_socket (recv_chunk fuel chunk_size []) ;;
  match r with
  | None => ret None
  | Some recv_str =>
      let l := len recv_str / size_of_double in
      unpacked <- lift (unpack_doubles l recv_str) ;;
      update (set_data_list unpacked) ;;
      update (set_new_data true) ;;
      ret (Some tt)
  end.

(** The outer loop.  The flag is the one stored in the object; the writes
    of other threads between two turns are not part of this function. *)
Fixpoint scan_loop (fuel : nat) : mm (option unit) :=
  fun m =>
    if stop_event m then
      match fuel with
      | O => (Ok None, m)
      | S k =>
          match scan_once fuel m with
          | (Ok (Some _), m') => scan_loop k m'
          | other => other
          end
      end
    else (Ok (Some tt), m).

(** [read_server_scans] (lines 325-376); [None] when it has not ended
    within the fuel. *)
Definition read_server_scans (fuel : nat) (m : DaqSocketManager)
  : option (completion * DaqSocketManager) :=
  match scan_loop fuel m with
  | (Ok None, _) => None
  | (Ok (Some _), m') => Some (Return PNone, set_new_data false m')
  | (Raise TimeoutError, m') => Some (Return PNone, set_new_data false m')
  | (Raise ConnectionResetError, m') => Some (Fall, m')
  | (Raise e, m') => Some (Throw e, m')
  end.

(** [start_server] (lines 261-296). *)
Definition start_server (m : DaqSocketManager) : completion * DaqSocketManager :=
  let body : mm unit :=
    send_msg (PStr (str_of "start")) ;;
    send_msg (PList (channels m)) ;;
    send_msg (PList (gains m)) ;;
    send_msg (PInt (rate m)) ;;
    send_msg (PInt (samples_to_display m)) ;;
    update (set_stop_event true) ;;
    update (set_thread true) ;;
    update (set_running true) in
  match body m with
  | (Ok _, m') => (Return (PStr (str_of "running")), m')
  | (Raise TimeoutError, m') => (Return (PStr (str_of "error")), m')
  | (Raise ConnectionResetError, m') => (Return (PStr (str_of "error")), m')
  | (Raise e, m') => (Throw e, m')
  end.

Context `{Scheduler}.

(** The [try] block of [stop_server] (lines 307-313); [None] when
    [self.thread.join()] never comes back. *)
Definition stop_server_try (m : DaqSocketManager)
  : option (completion * DaqSocketManager) :=
  match send_msg (PStr (str_of "stop")) m with
  | (Raise e, m1) => Some (Throw e, m1)
  | (Ok _, m1) =>
      if running m1 then
        let m2 := set_stop_event false m1 in
        if thread m2 then
          match thread_join m2 with
          | Some m3 => Some (Return (PInt 0), m3)
          | None => None
          end
        else Some (Throw AttributeError, m2)
      else Some (Return (PInt 0), m1)
  end.

(** [stop_server] (lines 298-323). *)
Definition stop_server (m : DaqSocketManager)
  : option (completion * DaqSocketManager) :=
  match stop_server_try m with
  | None => None
  | Some (c, m1) =>
      let after_handlers :=
        except_falling [TimeoutError; ConnectionResetError] c in
      let m2 := set_running false m1 in
      Some (finally after_handlers (Return (PStr (str_of "idle"))), m2)
  end.

End WithLibraries.
End Manager.

(** ** ConnectionAdmission: the accept loop of [start_server],
    [server.py] lines 351-361 *)

Module Admission.

Inductive verdict : Type :=
| CloseIt      (* conn.close() *)
| Dispatch.    (* a handle_client thread is started *)

(** Lines 353-361, given what [threading.active_count()] answers. *)
Definition on_accept (active_count : Z) : verdict :=
  let thread_count := active_count - 1 in
  if thread_count >? 1 then CloseIt else Dispatch.

(** The threads of the server process besides the main thread, and what
    the accept loop has done so far. *)
Record server : Type := mkServer {
  handlers : Z;       (* live handle_client threads *)
  forwarders : Z;     (* live read_device_scans threads *)
  dispatched : Z;     (* connections given a handler *)
  refused : Z         (* connections closed by the accept loop *)
}.

Definition active_count (s : server) : Z := 1 + handlers s + forwarders s.

Inductive event : Type :=
| Accept            (* server_socket.accept() returns *)
| HandlerEnds       (* a handle_client thread finishes *)
| ForwarderStarts   (* a handler executes the start command *)
| ForwarderEnds.    (* a read_device_scans thread finishes *)

Definition step (s : server) (e : event) : server :=
  match e with
  | Accept =>
      match on_accept (active_count s) with
      | CloseIt => mkServer (handlers s) (forwarders s) (dispatched s) (refused s + 1)
      | Dispatch => mkServer (handlers s + 1) (forwarders s) (dispatched s + 1) (refused s)
      end
  | HandlerEnds =>
      if 0 <? handlers s
      then mkServer (handlers s - 1) (forwarders s) (dispatched s) (refused s)
      else s
  | ForwarderStarts =>
      if 0 <? handlers s
      then mkServer (handlers s) (forwarders s + 1) (dispatched s) (refused s)
      else s
  | ForwarderEnds =>
      if 0 <? forwarders s
      then mkServer (handlers s) (forwarders s - 1) (dispatched s) (refused s)
      else s
  end.

Definition listening : server := mkServer 0 0 0 0.

(** The accept loop of [start_server] driven by the events [es]. *)
Definition start_server (es : list event) : server :=
  fold_left step es listening.

End Admission.

(** ** A bench to run the model on

    Concrete collaborators for the examples: the fragment of [json] the
    consumer needs for its channel and gain lists (flat lists of ints,
    printed the way [json.dumps] prints them), one USB-200 device on the
    bus, and a receiver thread that is joined without further changes. *)

Module Bench.

Fixpoint string_of_pystr (s : pystr) : string :=
  match s with
  | [] => EmptyString
  | cp :: r => String (ascii_of_N (Z.to_N cp)) (string_of_pystr r)
  end.

Definition dump_int (z : Z) : pystr :=
  str_of (NilZero.string_of_int (Z.to_int z)).

Fixpoint dump_items (l : list pyval) : result pystr :=
  match l with
  | [] => Ok []
  | PInt z :: r =>
      match dump_items r with
      | Raise e => Raise e
      | Ok [] => Ok (dump_int z)
      | Ok t => Ok (dump_int z ++ [44; 32] ++ t)
      end
  | _ :: _ => Raise TypeError
  end.

Definition dumps (l : list pyval) : result pystr :=
  match dump_items l with
  | Raise e => Raise e
  | Ok t => Ok ([91] ++ t ++ [93])
  end.

(** Splits at commas, dropping blanks. *)
Fixpoint split_items (s : pystr) (cur : pystr) : list pystr :=
  match s with
  | [] => [cur]
  | cp :: r =>
      if cp =? 44 then cur :: split_items r []
      else if cp =? 32 then split_items r cur
      else split_items r (cur ++ [cp])
  end.

Fixpoint load_items (l : list pystr) : result (list pyval) :=
  match l with
  | [] => Ok []
  | t :: r =>
      match NilZero.int_of_string (string_of_pystr t), load_items r with
      | Some d, Ok vs => Ok (PInt (Z.of_int d) :: vs)
      | _, _ => Raise JSONDecodeError
      end
  end.

Definition loads (s : pystr) : result pyval :=
  match s with
  | 91 :: body =>
      match rev body with
      | 93 :: inner =>
          match rev inner with
          | [] => Ok (PList [])
          | items =>
              match load_items (split_items items []) with
              | Ok vs => Ok (PList vs)
              | Raise e => Raise e
              end
          end
      | _ => Raise JSONDecodeError
      end
  | _ => Raise JSONDecodeError
  end.

#[export] Instance int_list_json : Json :=
  {| json_dumps := dumps; json_loads := loads |}.

Definition usb_201 : descriptor :=
  mkDesc (str_of "USB-201 (01A2B3C4)") 0x113 (str_of "01A2B3C4").

#[export] Instance one_board : Hardware :=
  {| get_daq_device_inventory := [usb_201];
     scaled_win_buf_alloc := fun _ => Some 1;
     ul := fun _ => Ok tt |}.

#[export] Instance joined_at_once : Manager.Scheduler :=
  {| Manager.thread_join := fun m => Some m |}.

(** A receiver thread that never ends. *)
Definition never_joined : Manager.Scheduler :=
  {| Manager.thread_join := fun _ => None |}.

(** The consumer after [connect] and a successful [start_server], with
    the events [r] still to arrive on its socket. *)
Definition streaming (r : list event) : Manager.DaqSocketManager :=
  snd (Manager.start_server
         (Manager.set_socket (Some (incoming r)) Manager.init)).

(** The same, on a socket whose next [sendall] raises [e]. *)
Definition streaming_then_fault (e : exn) : Manager.DaqSocketManager :=
  Manager.set_socket (Some (mkConn [] [] [Some e] false)) (streaming []).

(** The command frame of ['StArT'] and a handler that has no board. *)
Definition start_frame : list byte := le_bytes 4 5 ++ bytes_of "StArT".

Definition idle_world : Dispatcher.world :=
  Dispatcher.mkWorld (incoming [Seg (start_frame ++ le_bytes 4 12)])
    Dispatcher.initial_session [].

(** A buffer of 960 samples, sample [i] having the bit pattern [i]. *)
Definition ramp : list Z := map Z.of_nat (seq 0 960).

End Bench.

(** ** Vocabulary of the statements *)

(** The bytes [send_msg] writes on a fresh connection. *)
Definition wire `{Json} (itm : pyval) : list byte :=
  tx (snd (send_msg itm (incoming []))).

(** A connection on which the bytes [b] have arrived in one piece and the
    peer has then closed. *)
Definition delivered (b : list byte) : connection := incoming [Seg b].

(** What is left to arrive once the front of a segment has been read:
    its unread bytes [rest], if any, then the later events [r]. *)
Definition pending (rest : list byte) (r : list event) : list event :=
  match rest with
  | [] => r
  | _ => Seg rest :: r
  end.

(** The connection [c] after [b] more bytes have been sent on it. *)
Definition sent (c : connection) (b : list byte) : connection :=
  mkConn (rx c) (tx c ++ b) (tx_faults c) (closed c).

(** The unread occupancy of the ring buffer, as the data model of the
    specification defines it. *)
Definition occupancy (head tail capacity : Z) : Z := (head - tail) mod capacity.

(** Only the socket differs between the two manager objects. *)
Definition socket_only (m m' : Manager.DaqSocketManager) : Prop :=
  m' = Manager.set_socket (Manager.socket m') m.

(** The thread counts the accept loop keeps the server within. *)
Definition thread_bounds (s : Admission.server) : Prop :=
  0 <= Admission.handlers s <= 2 /\ 0 <= Admission.forwarders s.

(** The stop flag is set only while a board is selected. *)
Definition flag_follows_board (s : Dispatcher.session) : Prop :=
  Dispatcher.board_selected s = false -> Dispatcher.stop_event s = false.

(** Whatever way the handler computation [m] ends, normally or by an
    exception, a session that satisfied [P] before satisfies [Q] after. *)
Definition triple {A} (P : Dispatcher.session -> Prop) (m : Dispatcher.hm A)
    (Q : Dispatcher.session -> Prop) : Prop :=
  forall w r w', P (Dispatcher.sess w) -> m w = (r, w') -> Q (Dispatcher.sess w').

(** All code points of the text are ASCII. *)
Definition is_ascii (s : pystr) : Prop := Forall (fun cp => 0 <= cp < 128) s.

(** ** More vocabulary: streams of data frames *)

(** A data frame as the forwarder writes it: the count of samples, then
    the samples packed. *)
Definition data_frame (block : list Z) : list byte :=
  le_bytes 4 (len block) ++ pack_doubles block.

Definition data_frames (blocks : list (list Z)) : list byte :=
  flat_map data_frame blocks.

(** The number of samples in a sequence of blocks. *)
Definition total (blocks : list (list Z)) : Z :=
  fold_right (fun b acc => len b + acc) 0 blocks.

(** An answer of [ul.get_status] whose index lies in the buffer, the
    buffer having its full capacity. *)
Definition poll_in_range (cap : Z) (p : Forwarder.poll) : Prop :=
  match p with
  | Forwarder.Status head data => 0 <= head < cap /\ len data = cap
  | Forwarder.StatusError => False
  end.

(** A block the receiver can take: not empty, a count that fits the
    prefix, samples that are 64-bit patterns. *)
Definition block_ok (b : list Z) : Prop :=
  b <> [] /\ len b < 2 ^ 32 /\ Forall (fun x => 0 <= x < 2 ^ 64) b.

(** The connection [c'] is [c] after some writes: nothing was read from
    it, it was not closed, and the bytes sent have only grown. *)
Definition writes_only (c c' : connection) : Prop :=
  rx c' = rx c /\ closed c' = closed c /\ exists b, tx c' = tx c ++ b.

(** A socket computation that only writes, however it ends. *)
Definition write_only {A} (m : io A) : Prop :=
  forall c, writes_only c (snd (m c)).

(** ** More fixtures *)

Module Fixtures.

(** The binary64 patterns of 1.0 and 2.0. *)
Definition one : Z := 0x3FF0000000000000.
Definition two : Z := 0x4000000000000000.

(** A consumer whose receiver thread is running, with the events [r]
    still to arrive on its socket and nothing sent yet. *)
Definition receiver (r : list event) : Manager.DaqSocketManager :=
  Manager.set_stop_event true
    (Manager.set_socket (Some (incoming r)) Manager.init).

End Fixtures.

(** ** More vocabulary: the command handler *)

(** The five commands of the [match message] statement. *)
Definition commands : list pystr :=
  [str_of "list"; str_of "open"; str_of "start"; str_of "stop"; str_of "exit"].

(** What becomes of the outcome of the [try] block in [handle_client]:
    the two [except] clauses. *)
Definition after_handlers (o : result Dispatcher.loop_ctl * Dispatcher.world)
  : result Dispatcher.loop_ctl * Dispatcher.world :=
  match o with
  | (Raise TimeoutError, w) => (Ok Dispatcher.Continue, w)
  | (Raise ConnectionResetError, w) => (Ok Dispatcher.Break, w)
  | other => other
  end.

(** The stop flag is set exactly while there is a thread object. *)
Definition thread_follows_flag (s : Dispatcher.session) : Prop :=
  Dispatcher.stop_event s = true <-> Dispatcher.thread s <> None.

(** What is left to arrive on a socket, as a number: one for each event
    and one for each byte. *)
Fixpoint weight (r : list event) : nat :=
  match r with
  | [] => 0
  | Seg b :: r' => S (List.length b + weight r')
  | _ :: r' => S (weight r')
  end.

(** A computation that never makes the measure [mu] of its state grow,
    however it ends. *)
Definition noninc {S A : Type} (mu : S -> nat) (m : st S A) : Prop :=
  forall s, (mu (snd (m s)) <= mu s)%nat.

(** What is left to arrive for a handler. *)
Definition backlog (w : Dispatcher.world) : nat :=
  weight (rx (Dispatcher.conn w)).

Module Handlers.

(** The inventory of [Bench.one_board], as [BOARDS()] finds it. *)
Definition boards : Boards.BOARDS :=
  Boards.mkBoards (Boards.scan_inventory 0 [Bench.usb_201]) [Bench.usb_201] 1.

(** A driver on which creating and releasing a device fail. *)
Definition failing_driver : Hardware :=
  {| get_daq_device_inventory := [Bench.usb_201];
     scaled_win_buf_alloc := fun _ => Some 1;
     ul := fun c =>
             match c with
             | create_daq_device _ _ | release_daq_device _ => Raise ULError
             | _ => Ok tt
             end |}.

(** The frame of the command [name], followed by [rest]. *)
Definition command (name : string) (rest : list byte) : list byte :=
  le_bytes 4 (len (bytes_of name)) ++ bytes_of name ++ rest.

(** A frame carrying the text [text], followed by [rest]. *)
Definition text_frame (text : string) (rest : list byte) : list byte :=
  le_bytes 4 (len (bytes_of text)) ++ bytes_of text ++ rest.

(** A handler with the session [s] to which [bytes] arrive in one
    segment before the peer closes. *)
Definition handler (bytes : list byte) (s : Dispatcher.session)
  : Dispatcher.world :=
  Dispatcher.mkWorld (incoming [Seg bytes]) s [].

(** The session after board 0 has been opened. *)
Definition selected : Dispatcher.session :=
  Dispatcher.mkSession 0 (Some Bench.usb_201) None false true.

Definition four_channels : Forwarder.Config :=
  Forwarder.mkConfig 0 (Some Bench.usb_201)
    (PList [PInt 0; PInt 1; PInt 2; PInt 3])
    (PList [PInt 1; PInt 1; PInt 1; PInt 1]) 1000 1000.

(** The session while that configuration is streaming. *)
Definition streaming : Dispatcher.session :=
  Dispatcher.mkSession 0 (Some Bench.usb_201) (Some four_channels) true true.

End Handlers.

(** ** The rest of the consumer: [disconnect], [get_device_list],
    [open_list_device] ([daqSocketManager.py] lines 174-259) *)

(** [int(x)] is Python's own: [None] when it raises. *)
Class Builtins : Type := {
  py_int : pyval -> option Z
}.

Module Client.
Import Manager.

(** How a method that may call [exit] ends. *)
Inductive ending : Type :=
| Returns (v : pyval)
| Raises (e : exn)
| Exits (code : Z).        (* SystemExit *)

Section WithLibraries.
Context `{Json}.
Local Open Scope io_scope.

(** [disconnect] (lines 174-177).  The last line drops the socket
    object from [self]; the connection it stood for is still what the
    peer sees, so it is returned beside the object, as it was left:
    [None] when an exception came first and nothing was dropped. *)
Definition disconnect (m : DaqSocketManager)
  : result unit * DaqSocketManager * option connection :=
  match (send_msg (PStr (str_of "exit")) ;;
         on_socket (fun c => (Ok tt, close c))) m with
  | (Ok _, m1) => (Ok tt, set_socket None m1, socket m1)
  | (Raise e, m1) => (Raise e, m1, None)
  end.

(** [get_device_list] (lines 214-229): the one [except] clause drops the
    socket and calls [exit(0)]; any other exception gets out. *)
Definition get_device_list (m : DaqSocketManager) : ending * DaqSocketManager :=
  match (send_msg (PStr (str_of "list")) ;; get_msg "list") m with
  | (Ok device_list, m') => (Returns device_list, m')
  | (Raise ConnectionResetError, m') => (Exits 0, set_socket None m')
  | (Raise e, m') => (Raises e, m')
  end.

(** The [except] clauses of [open_list_device] followed by its
    [finally: return device_serial_number], the variable still holding
    its initial 0: the [return] in the [finally] clause discards
    whatever exception is on its way, [SystemExit] included. *)
Definition open_failed (e : exn) (m : DaqSocketManager)
  : pyval * DaqSocketManager :=
  match e with
  | ConnectionResetError => (PInt 0, set_socket None m)
  | _ => (PInt 0, m)
  end.

Context `{Builtins}.

(** [open_list_device] (lines 231-259). *)
Definition open_list_device (board_number : pyval) (m : DaqSocketManager)
  : pyval * DaqSocketManager :=
  match send_msg (PStr (str_of "open")) m with
  | (Raise e, m1) => open_failed e m1
  | (Ok _, m1) =>
      match py_int board_number with
      | None => (PInt 0, m1)
      | Some n =>
          match (send_msg (PInt n) ;; get_msg "str") m1 with
          | (Ok device_serial_number, m2) => (device_serial_number, m2)
          | (Raise e, m2) => open_failed e m2
          end
      end
  end.

End WithLibraries.
End Client.

Module Clients.

(** [int] on the values the callers pass: an [int] itself, and a [str]
    of decimal digits. *)
#[export] Instance decimal_int : Builtins :=
  {| py_int := fun v =>
       match v with
       | PInt z => Some z
       | PStr s =>
           match NilZero.int_of_string (Bench.string_of_pystr s) with
           | Some d => Some (Z.of_int d)
           | None => None
           end
       | _ => None
       end |}.

(** A connected consumer to which [bytes] arrive in one segment. *)
Definition connected (r : list event) : Manager.DaqSocketManager :=
  Manager.set_socket (Some (incoming r)) Manager.init.

End Clients.

(** Everything the consumer has written to its socket. *)
Definition outbox (m : Manager.DaqSocketManager) : list byte :=
  match Manager.socket m with
  | Some c => tx c
  | None => []
  end.

(** The dictionary [_get_boards] builds for the device found at
    position [board_index] of the inventory. *)
Definition device_dict (device : descriptor) (board_index : Z) : pyval :=
  PDict [ (PStr (str_of "Name"), PStr (dev_str device));
          (PStr (str_of "Product_ID"), PInt (product_id device));
          (PStr (str_of "Serial_Number"), PStr (unique_id device));
          (PStr (str_of "Board_Number"), PInt board_index) ].

(** ** The chart data of the web application: [add_samples_to_data]
    ([web-app.py] lines 1044-1095) *)

Module WebApp.

(** A time stamp [float(index) * 1 / sample_rate], carried by its two
    integers: no arithmetic is done on it afterwards. *)
Definition stamp : Type := (Z * Z)%type.

(** The [chart_data] dictionary. *)
Record chart_data : Type := mkChart {
  sample_count : Z;
  samples : list stamp;
  data : list (list Z)
}.

(** [deque(l, maxlen=maxlen)]: the last [maxlen] elements. *)
Definition deque {A} (l : list A) (maxlen : Z) : list A :=
  skipn (List.length l - Z.to_nat maxlen) l.

(** [q.append(x)] on a deque of that [maxlen]. *)
Definition append {A} (maxlen : Z) (q : list A) (x : A) : list A :=
  deque (q ++ [x]) maxlen.

(** [range(a, b)] *)
Definition range (a b : Z) : list Z :=
  map (fun k => a + Z.of_nat k) (seq 0 (Z.to_nat (b - a))).

(** [for chan in range(num_chans): l[chan] = f(chan, l[chan])], on the
    entries from index [chan] on. *)
Fixpoint for_chans {A} (f : Z -> A -> A) (chan num_chans : Z) (l : list A)
  : list A :=
  match l with
  | [] => []
  | x :: r =>
      (if chan <? num_chans then f chan x else x)
        :: for_chans f (chan + 1) num_chans r
  end.

(** [None] when the function raises: [ZeroDivisionError] without
    channels, [ValueError] on a negative [maxlen], [IndexError] when
    the chart has fewer columns than channels, [ZeroDivisionError]
    again at the first time stamp of a zero sample rate. *)
Definition add_samples_to_data (number_of_samples num_chans : Z)
    (chart : chart_data) (block : list Z) (sample_rate : Z)
  : option (Z * chart_data) :=
  if num_chans =? 0 then None
  else
    let num_samples_read := Z.quot (len block) num_chans in
    let current_sample_count := sample_count chart in
    if num_samples_read <? num_chans then Some (current_sample_count, chart)
    else if number_of_samples <? 0 then None
    else if len (data chart) <? num_chans then None
    else
      let samples0 := deque (samples chart) number_of_samples in
      let data0 :=
        for_chans (fun _ col => deque col number_of_samples) 0 num_chans
          (data chart) in
      let start_sample :=
        if num_samples_read >? number_of_samples
        then num_samples_read - number_of_samples else 0 in
      if (sample_rate =? 0) && (start_sample <? num_samples_read) then None
      else
      let '(samples1, data1) :=
        fold_left
          (fun '(ss, dd) sample =>
             (append number_of_samples ss
                (current_sample_count + sample, sample_rate),
              for_chans
                (fun chan col =>
                   let data_index := sample * num_chans + chan in
                   append number_of_samples col
                     (nth (Z.to_nat data_index) block 0))
                0 num_chans dd))
          (range start_sample num_samples_read) (samples0, data0) in
      Some (current_sample_count + num_samples_read,
            mkChart (sample_count chart) samples1 data1).

(** The samples of channel [chan] in a block of [scans] interleaved
    scans of [num_chans] channels. *)
Definition column (block : list Z) (num_chans chan scans : Z) : list Z :=
  map (fun sample => nth (Z.to_nat (sample * num_chans + chan)) block 0)
    (range 0 scans).

End WebApp.

(** * Properties *)

(** Comparisons settled by arithmetic. *)
Lemma gtb_true (a b : Z) : b < a -> (a >? b) = true.
Proof. intros Hlt. now apply Z.gtb_lt. Qed.

Lemma gtb_false (a b : Z) : a <= b -> (a >? b) = false.
Proof. intros Hle. rewrite Z.gtb_ltb. now apply Z.ltb_ge. Qed.

Lemma ltb_true (a b : Z) : a < b -> (a <? b) = true.
Proof. intros Hlt. now apply Z.ltb_lt. Qed.

Lemma ltb_false (a b : Z) : b <= a -> (a <? b) = false.
Proof. intros Hle. now apply Z.ltb_ge. Qed.

Lemma eqb_false (a b : Z) : a <> b -> (a =? b) = false.
Proof. intros Hne. now apply Z.eqb_neq. Qed.

Lemma eqb_true (a b : Z) : a = b -> (a =? b) = true.
Proof. intros Heq. now apply Z.eqb_eq. Qed.

(** Takes the branch of each integer test that the context decides. *)
Ltac settle :=
  repeat first
    [ rewrite gtb_true by lia
    | rewrite gtb_false by lia
    | rewrite ltb_true by lia
    | rewrite ltb_false by lia
    | rewrite eqb_false by lia
    | rewrite eqb_true by lia ].

(** ** Little-endian integers *)

Module BytesFacts.

Lemma Z_of_byte_range (b : byte) : 0 <= Z_of_byte b < 256.
Proof.
  unfold Z_of_byte. pose proof (Byte.to_N_bounded b) as Hb. lia.
Qed.

Lemma Z_of_byte_of_Z (z : Z) : Z_of_byte (byte_of_Z z) = z mod 256.
Proof.
  unfold Z_of_byte, byte_of_Z.
  assert (Hr : 0 <= z mod 256 < 256) by (apply Z.mod_pos_bound; lia).
  destruct (Byte.of_N (Z.to_N (z mod 256))) as [b|] eqn:E.
  - apply Byte.to_of_N in E. rewrite E. lia.
  - apply Byte.of_N_None_iff in E. lia.
Qed.

Lemma byte_of_Z_of_byte (b : byte) : byte_of_Z (Z_of_byte b) = b.
Proof.
  pose proof (Z_of_byte_range b) as Hr.
  unfold byte_of_Z. rewrite Z.mod_small by lia.
  unfold Z_of_byte. rewrite N2Z.id, Byte.of_to_N. reflexivity.
Qed.

(** Bits that do not overlap add up. *)
Lemma lor_shiftl_add (a b n : Z) :
  0 <= n -> 0 <= a < 2 ^ n -> Z.lor a (Z.shiftl b n) = a + b * 2 ^ n.
Proof.
  intros Hn Ha.
  assert (Hland : Z.land a (Z.shiftl b n) = 0).
  { apply Z.bits_inj'. intros m Hm.
    rewrite Z.land_spec, Z.bits_0.
    destruct (Z.lt_ge_cases m n) as [Hlt | Hge].
    - rewrite Z.shiftl_spec_low by lia. apply andb_false_r.
    - replace a with (a mod 2 ^ n) by (apply Z.mod_small; lia).
      rewrite Z.mod_pow2_bits_high by lia. reflexivity. }
  rewrite <- Z.lxor_lor by exact Hland.
  rewrite <- Z.add_nocarry_lxor by exact Hland.
  rewrite Z.shiftl_mul_pow2 by lia. reflexivity.
Qed.

Lemma le_bytes_length (n : nat) (v : Z) : List.length (le_bytes n v) = n.
Proof.
  revert v. induction n as [|n IH]; intros v; simpl; [reflexivity|].
  now rewrite IH.
Qed.

Lemma le_value_le_bytes (n : nat) (v : Z) :
  le_value (le_bytes n v) = v mod 2 ^ (8 * Z.of_nat n).
Proof.
  revert v. induction n as [|n IH]; intros v.
  - simpl. now rewrite Z.mod_1_r.
  - cbn [le_bytes le_value]. rewrite IH, Z_of_byte_of_Z.
    rewrite lor_shiftl_add by (try lia; apply Z.mod_pos_bound; lia).
    rewrite Z.shiftr_div_pow2 by lia.
    replace (8 * Z.of_nat (S n)) with (8 + 8 * Z.of_nat n) by lia.
    rewrite Z.pow_add_r by lia.
    change (2 ^ 8) with 256.
    rewrite Z.rem_mul_r by (try lia; apply Z.pow_pos_nonneg; lia).
    lia.
Qed.

Lemma le_value_range (b : list byte) :
  0 <= le_value b < 2 ^ (8 * len b).
Proof.
  unfold len. induction b as [|x r IH].
  - simpl. lia.
  - cbn [le_value List.length].
    pose proof (Z_of_byte_range x) as Hx.
    rewrite lor_shiftl_add by lia.
    replace (8 * Z.of_nat (S (List.length r)))
      with (8 + 8 * Z.of_nat (List.length r)) by lia.
    rewrite Z.pow_add_r by lia. change (2 ^ 8) with 256. nia.
Qed.

Lemma le_bytes_le_value (b : list byte) :
  le_bytes (List.length b) (le_value b) = b.
Proof.
  induction b as [|x r IH]; [reflexivity|].
  cbn [le_value List.length le_bytes].
  pose proof (Z_of_byte_range x) as Hx.
  rewrite lor_shiftl_add by lia.
  f_equal.
  - rewrite <- (byte_of_Z_of_byte x) at 2.
    unfold byte_of_Z. change (2 ^ 8) with 256.
    now rewrite Z.mod_add by lia.
  - rewrite Z.shiftr_div_pow2 by lia. change (2 ^ 8) with 256.
    rewrite Z.div_add by lia. rewrite Z.div_small by lia. exact IH.
Qed.

(** Packed samples come back: eight bytes per sample, read in groups. *)
Lemma unpack_groups_pack (l : list Z) :
  Forall (fun x => 0 <= x < 2 ^ 64) l ->
  unpack_groups (List.length l) (pack_doubles l) = l.
Proof.
  induction 1 as [|x l Hx _ IH]; [reflexivity|].
  cbn [List.length unpack_groups pack_doubles flat_map].
  unfold pack_d at 1 3.
  rewrite firstn_app, skipn_app, le_bytes_length.
  rewrite firstn_all2 by (rewrite le_bytes_length; lia).
  rewrite skipn_all2 by (rewrite le_bytes_length; lia).
  cbn [Nat.sub firstn skipn app]. rewrite app_nil_r.
  rewrite le_value_le_bytes. change (8 * Z.of_nat 8) with 64.
  rewrite Z.mod_small by lia. f_equal. exact IH.
Qed.

Lemma pack_doubles_length (l : list Z) : len (pack_doubles l) = 8 * len l.
Proof.
  unfold len, pack_doubles, pack_d. induction l as [|x l IH].
  - reflexivity.
  - cbn [flat_map]. rewrite length_app, le_bytes_length.
    cbn [List.length]. lia.
Qed.

Lemma pack_doubles_app (a b : list Z) :
  pack_doubles (a ++ b) = pack_doubles a ++ pack_doubles b.
Proof. apply flat_map_app. Qed.

(** A block of samples packed by the forwarder is unpacked to the same
    samples by the receiver. *)
Lemma unpack_pack_doubles (l : list Z) :
  Forall (fun x => 0 <= x < 2 ^ 64) l ->
  unpack_doubles (len l) (pack_doubles l) = Ok l.
Proof.
  intros Hl. unfold unpack_doubles.
  rewrite pack_doubles_length, Z.eqb_refl.
  unfold len. rewrite Nat2Z.id. now rewrite unpack_groups_pack.
Qed.

End BytesFacts.
Import BytesFacts.

(** ** FrameCodec *)

Module CodecFacts.

Lemma set_rx_set_rx (c : connection) (r r' : list event) :
  set_rx (set_rx c r) r' = set_rx c r'.
Proof. reflexivity. Qed.

(** [recv(len(b))] when the bytes [b] are at the front of a segment. *)
Lemma recv_front (b rest : list byte) (r : list event) (c : connection) :
  b <> [] -> rx c = Seg (b ++ rest) :: r ->
  recv (len b) c = (Ok b, set_rx c (pending rest r)).
Proof.
  intros Hne Hrx. unfold recv, len.
  destruct b as [|x b']; [congruence|].
  rewrite eqb_false by (cbn [List.length]; lia).
  rewrite Hrx, Nat2Z.id. cbn [app recv_events firstn skipn List.length].
  rewrite firstn_app, firstn_all, Nat.sub_diag, firstn_O, app_nil_r.
  rewrite skipn_app, skipn_all, Nat.sub_diag, skipn_O.
  now destruct rest.
Qed.

(** [recv(4)] on a segment that starts with a four-byte prefix. *)
Lemma recv_header (v : Z) (rest : list byte) (r : list event) (c : connection) :
  rx c = Seg (le_bytes 4 v ++ rest) :: r ->
  recv sizeof_c_uint c = (Ok (le_bytes 4 v), set_rx c (pending rest r)).
Proof.
  intros Hrx.
  change sizeof_c_uint with (len (le_bytes 4 v)).
  apply recv_front; [discriminate | exact Hrx].
Qed.

Lemma unpack_I_four (b : list byte) :
  List.length b = 4%nat -> unpack_I b = Ok (le_value b).
Proof.
  intros Hl. do 5 (destruct b as [|? b]; try discriminate Hl). reflexivity.
Qed.

Lemma unpack_I_le_bytes (v : Z) :
  0 <= v < 2 ^ 32 -> unpack_I (le_bytes 4 v) = Ok v.
Proof.
  intros Hv. rewrite unpack_I_four by apply le_bytes_length.
  rewrite le_value_le_bytes. change (8 * Z.of_nat 4) with 32.
  now rewrite Z.mod_small by lia.
Qed.

Lemma pack_I_in_range (v : Z) :
  0 <= v < 2 ^ 32 -> pack_I v = Ok (le_bytes 4 v).
Proof.
  intros [H0 H1]. unfold pack_I.
  apply Z.leb_le in H0. apply Z.ltb_lt in H1. now rewrite H0, H1.
Qed.

Lemma unpack_pack_I (v : Z) (b : list byte) :
  pack_I v = Ok b -> unpack_I b = Ok v.
Proof.
  unfold pack_I. intros Hp.
  destruct ((0 <=? v) && (v <? 2 ^ 32)) eqn:Hr; [|discriminate].
  injection Hp as <-.
  apply andb_true_iff in Hr. destruct Hr as [H0 H1].
  apply Z.leb_le in H0. apply Z.ltb_lt in H1.
  apply unpack_I_le_bytes. lia.
Qed.

Lemma sendall_ok (data : list byte) (c : connection) :
  tx_faults c = [] -> sendall data c = (Ok tt, sent c data).
Proof.
  intros Hf. unfold sendall, sent. now rewrite Hf.
Qed.

Lemma sent_sent (c : connection) (a b : list byte) :
  sent (sent c a) b = sent c (a ++ b).
Proof.
  unfold sent. cbn [rx tx tx_faults closed]. now rewrite app_assoc.
Qed.

Section WithJson.
Context `{Json}.

(** *** Reading frames that have arrived whole *)

Lemma get_msg_int_frame (v : Z) (rest : list byte) (r : list event)
    (c : connection) :
  0 <= v < 2 ^ 32 ->
  rx c = Seg (le_bytes 4 v ++ rest) :: r ->
  get_msg "int" c = (Ok (PInt v), set_rx c (pending rest r)).
Proof.
  intros Hv Hrx. unfold get_msg, bind, lift.
  rewrite (recv_header v rest r c Hrx).
  rewrite unpack_I_le_bytes by exact Hv. reflexivity.
Qed.

Lemma get_msg_str_frame (b rest : list byte) (r : list event) (c : connection) :
  b <> [] -> len b < 2 ^ 32 ->
  rx c = Seg (le_bytes 4 (len b) ++ b ++ rest) :: r ->
  get_msg "str" c = (Ok (PBytes b), set_rx c (pending rest r)).
Proof.
  intros Hne Hl Hrx. unfold get_msg, bind, lift.
  rewrite (recv_header (len b) (b ++ rest) r c Hrx).
  rewrite unpack_I_le_bytes by (unfold len in *; lia).
  cbn [String.eqb Ascii.eqb Bool.eqb].
  rewrite (recv_front b rest r); [reflexivity | exact Hne |].
  destruct b; [congruence | reflexivity].
Qed.

Lemma get_msg_list_frame (b rest : list byte) (text : pystr) (v : pyval)
    (r : list event) (c : connection) :
  b <> [] -> len b < 2 ^ 32 ->
  Utf8.decode b = Ok text -> json_loads text = Ok v ->
  rx c = Seg (le_bytes 4 (len b) ++ b ++ rest) :: r ->
  get_msg "list" c = (Ok v, set_rx c (pending rest r)).
Proof.
  intros Hne Hl Hdec Hload Hrx. unfold get_msg, bind, lift.
  rewrite (recv_header (len b) (b ++ rest) r c Hrx).
  rewrite unpack_I_le_bytes by (unfold len in *; lia).
  cbn [String.eqb Ascii.eqb Bool.eqb].
  rewrite (recv_front b rest r); [| exact Hne |].
  - now rewrite Hdec, Hload.
  - destruct b; [congruence | reflexivity].
Qed.

(** A frame whose length prefix is zero. *)
Lemma get_msg_empty_frame (rest : list byte) (r : list event) (c : connection) :
  rx c = Seg (le_bytes 4 0 ++ rest) :: r ->
  get_msg "str" c = (Ok (PBytes []), set_rx c (pending rest r)).
Proof.
  intros Hrx. unfold get_msg, bind, lift.
  rewrite (recv_header 0 rest r c Hrx). reflexivity.
Qed.

(** *** What [send_msg] writes *)

Lemma send_int_ok (v : Z) (c : connection) :
  0 <= v < 2 ^ 32 -> tx_faults c = [] ->
  send_msg (PInt v) c = (Ok 0, sent c (le_bytes 4 v)).
Proof.
  intros Hv Hf. unfold send_msg, bind, lift.
  rewrite pack_I_in_range by exact Hv.
  now rewrite sendall_ok by exact Hf.
Qed.

Lemma send_str_ok (s : pystr) (b : list byte) (c : connection) :
  len s < 2 ^ 32 -> Utf8.encode s = Ok b -> tx_faults c = [] ->
  send_msg (PStr s) c = (Ok 0, sent c (le_bytes 4 (len s) ++ b)).
Proof.
  intros Hs Hb Hf. unfold send_msg, bind, lift.
  rewrite pack_I_in_range by (unfold len in *; lia).
  rewrite sendall_ok by exact Hf. rewrite Hb.
  rewrite sendall_ok by exact Hf. now rewrite sent_sent.
Qed.

Lemma send_list_ok (l : list pyval) (text : pystr) (b : list byte)
    (c : connection) :
  json_dumps l = Ok text -> len text < 2 ^ 32 -> Utf8.encode text = Ok b ->
  tx_faults c = [] ->
  send_msg (PList l) c = (Ok 0, sent c (le_bytes 4 (len text) ++ b)).
Proof.
  intros Hd Hs Hb Hf. unfold send_msg, bind, lift. rewrite Hd.
  rewrite pack_I_in_range by (unfold len in *; lia).
  rewrite sendall_ok by exact Hf. rewrite Hb.
  rewrite sendall_ok by exact Hf. now rewrite sent_sent.
Qed.

Lemma int_wire (v : Z) : 0 <= v < 2 ^ 32 -> wire (PInt v) = le_bytes 4 v.
Proof.
  intros Hv. unfold wire. now rewrite send_int_ok.
Qed.

(** The bytes of a str frame: the number of code points, then the UTF-8
    encoding. *)
Lemma str_wire (s : pystr) (b : list byte) :
  len s < 2 ^ 32 -> Utf8.encode s = Ok b ->
  wire (PStr s) = le_bytes 4 (len s) ++ b.
Proof.
  intros Hs Hb. unfold wire. now rewrite (send_str_ok s b).
Qed.

Lemma list_wire (l : list pyval) (text : pystr) (b : list byte) :
  json_dumps l = Ok text -> len text < 2 ^ 32 -> Utf8.encode text = Ok b ->
  wire (PList l) = le_bytes 4 (len text) ++ b.
Proof.
  intros Hd Hs Hb. unfold wire. now rewrite (send_list_ok l text b).
Qed.

(** *** UTF-8 lengths *)

(** One code point gives between one and four bytes, and one byte
    exactly when it is ASCII. *)
Lemma encode_cp_length (cp : Z) (b : list byte) :
  Utf8.encode_cp cp = Ok b ->
  (1 <= List.length b)%nat /\ (List.length b = 1%nat <-> 0 <= cp < 128).
Proof.
  unfold Utf8.encode_cp. intros Hb.
  repeat match type of Hb with
         | (if ?t then _ else _) = _ => destruct t eqn:?
         end;
    try discriminate; injection Hb as <-; cbn [List.length];
    repeat match goal with
           | E : (_ <? _) = true |- _ => apply Z.ltb_lt in E
           | E : (_ <? _) = false |- _ => apply Z.ltb_ge in E
           end;
    split; try lia; split; intros; try lia; try discriminate.
Qed.

Lemma encode_length (s : pystr) (b : list byte) :
  Utf8.encode s = Ok b ->
  (List.length s <= List.length b)%nat /\
  (List.length b = List.length s <-> is_ascii s).
Proof.
  revert b. induction s as [|cp s IH]; intros b Hb.
  - injection Hb as <-. cbn [List.length]. split; [lia|].
    split; [constructor | reflexivity].
  - cbn [Utf8.encode] in Hb.
    destruct (Utf8.encode_cp cp) as [b1|] eqn:E1; [|discriminate].
    destruct (Utf8.encode s) as [b2|] eqn:E2; [|discriminate].
    injection Hb as <-.
    destruct (encode_cp_length cp b1 E1) as [H1 H1'].
    destruct (IH b2 eq_refl) as [H2 H2'].
    rewrite length_app. cbn [List.length]. split; [lia|].
    unfold is_ascii in *. split.
    + intros Hl. constructor; [apply H1' | apply H2']; lia.
    + intros Ha. inversion Ha as [|? ? Hcp Hs]; subst.
      apply H1' in Hcp. apply H2' in Hs. lia.
Qed.

Lemma encode_ascii (s : pystr) :
  is_ascii s -> Utf8.encode s = Ok (map byte_of_Z s).
Proof.
  induction 1 as [|cp s Hcp _ IH]; [reflexivity|].
  cbn [Utf8.encode map]. rewrite IH. unfold Utf8.encode_cp.
  settle. reflexivity.
Qed.

Lemma decode_fuel_ascii (s : pystr) (fuel : nat) :
  is_ascii s -> (List.length s <= fuel)%nat ->
  Utf8.decode_fuel fuel (map byte_of_Z s) = Ok s.
Proof.
  intros Ha. revert fuel. induction Ha as [|cp s Hcp _ IH]; intros fuel Hf.
  - destruct fuel; reflexivity.
  - destruct fuel as [|k]; [cbn [List.length] in Hf; lia|].
    cbn [map Utf8.decode_fuel]. rewrite Z_of_byte_of_Z.
    rewrite Z.mod_small by lia. settle.
    rewrite IH by (cbn [List.length] in Hf; lia). reflexivity.
Qed.

Lemma decode_ascii (s : pystr) :
  is_ascii s -> Utf8.decode (map byte_of_Z s) = Ok s.
Proof.
  intros Ha. unfold Utf8.decode. apply decode_fuel_ascii; [exact Ha|].
  now rewrite length_map.
Qed.

(** *** Round trips, frame kind by frame kind *)

(** UInt32 frames: what was sent is what is read. *)
Lemma uint32_roundtrip (v : Z) :
  0 <= v < 2 ^ 32 ->
  get_msg "int" (delivered (wire (PInt v))) = (Ok (PInt v), incoming []).
Proof.
  intros Hv. rewrite int_wire by exact Hv.
  rewrite (get_msg_int_frame v [] [] _ Hv)
    by (unfold delivered, incoming; cbn [rx]; now rewrite app_nil_r).
  reflexivity.
Qed.

(** What [get_msg('str')] returns on a str frame: the first [len(s)]
    bytes of the encoding, whatever the length of the encoding. *)
Lemma str_frame_read (s : pystr) (b : list byte) :
  len s < 2 ^ 32 -> Utf8.encode s = Ok b ->
  fst (get_msg "str" (delivered (wire (PStr s))))
  = Ok (PBytes (firstn (List.length s) b)).
Proof.
  intros Hs Hb. rewrite (str_wire s b Hs Hb).
  unfold get_msg, bind, lift.
  rewrite (recv_header (len s) b [] (delivered (le_bytes 4 (len s) ++ b)))
    by reflexivity.
  rewrite unpack_I_le_bytes by (unfold len in *; lia).
  cbn [String.eqb Ascii.eqb Bool.eqb].
  unfold recv, len. destruct s as [|cp s'].
  - cbn in Hb. injection Hb as <-. reflexivity.
  - rewrite eqb_false by (cbn [List.length]; lia).
    rewrite Nat2Z.id.
    destruct b as [|x b']; reflexivity.
Qed.

(** Utf8String frames of ASCII text: [get_msg] returns the payload, and
    the payload decodes to the text that was sent. *)
Lemma ascii_str_roundtrip (s : pystr) :
  len s < 2 ^ 32 -> is_ascii s ->
  exists b, fst (get_msg "str" (delivered (wire (PStr s)))) = Ok (PBytes b)
            /\ Utf8.decode b = Ok s.
Proof.
  intros Hl Ha. exists (map byte_of_Z s).
  rewrite (str_frame_read s _ Hl (encode_ascii s Ha)).
  rewrite <- (length_map byte_of_Z s), firstn_all.
  split; [reflexivity | now apply decode_ascii].
Qed.

(** Utf8String frames of any other text: [get_msg] returns a proper
    prefix of the payload. *)
Lemma non_ascii_str_truncated (s : pystr) (b : list byte) :
  len s < 2 ^ 32 -> Utf8.encode s = Ok b -> ~ is_ascii s ->
  exists b', fst (get_msg "str" (delivered (wire (PStr s)))) = Ok (PBytes b')
             /\ (List.length b' < List.length b)%nat.
Proof.
  intros Hl Hb Hna. exists (firstn (List.length s) b).
  split; [now apply str_frame_read|].
  destruct (encode_length s b Hb) as [Hle Hiff].
  rewrite length_firstn.
  assert (List.length b <> List.length s) by (intros E; apply Hna, Hiff, E).
  lia.
Qed.

(** JsonList frames, given what the [json] module promises: [dumps]
    writes ASCII text (its default [ensure_ascii]) that [loads] reads back
    as [v]. *)
Lemma list_roundtrip (l : list pyval) (text : pystr) (v : pyval) :
  json_dumps l = Ok text -> is_ascii text -> len text < 2 ^ 32 ->
  json_loads text = Ok v ->
  fst (get_msg "list" (delivered (wire (PList l)))) = Ok v.
Proof.
  intros Hd Ha Hl Hload.
  rewrite (list_wire l text _ Hd Hl (encode_ascii text Ha)).
  destruct text as [|cp text'].
  - unfold get_msg, bind, lift.
    rewrite (recv_header 0 [] [] (delivered (le_bytes 4 (len []) ++ map byte_of_Z [])))
      by reflexivity.
    rewrite unpack_I_le_bytes by lia.
    cbn [String.eqb Ascii.eqb Bool.eqb]. unfold recv. cbn [Z.eqb].
    change (Utf8.decode []) with (@Ok pystr []). cbv beta iota.
    now rewrite Hload.
  - rewrite (get_msg_list_frame (map byte_of_Z (cp :: text')) []
               (cp :: text') v []); try reflexivity.
    + discriminate.
    + unfold len in *. now rewrite length_map.
    + now apply decode_ascii.
    + exact Hload.
    + unfold delivered, incoming, len. cbn [rx].
      now rewrite length_map, app_nil_r.
Qed.

(** C1 (code defect): the length prefix of a Utf8String frame is the
    number of code points of the text, not the number of bytes that
    follow.  The text 'é' (U+00E9, two bytes in UTF-8) goes out as the
    prefix 1 and the bytes C3 A9; [get_msg('str')] reads one byte, returns
    [b'\xc3'] (which is not the payload and does not decode), and leaves
    A9 in the stream in front of the next frame. *)
Theorem C1_str_frame_prefix_counts_code_points :
  wire (PStr [233]) = [x01; x00; x00; x00; xc3; xa9] /\
  Utf8.encode [233] = Ok [xc3; xa9] /\
  get_msg "str" (delivered (wire (PStr [233])))
    = (Ok (PBytes [xc3]), incoming [Seg [xa9]]) /\
  Utf8.decode [xc3] = Raise UnicodeDecodeError.
Proof.
  repeat split.
Qed.

(** The receiver's accumulating loop never ends once the peer has closed:
    [recv] keeps returning [b''] and the length does not grow. *)
Lemma recv_chunk_spins_when_closed (fuel : nat) (chunk_size : Z)
    (recv_str : list byte) (c : connection) :
  rx c = [] -> len recv_str < chunk_size ->
  Manager.recv_chunk fuel chunk_size recv_str c = (Ok None, c).
Proof.
  intros Hrx Hlt. revert recv_str Hlt.
  induction fuel as [|k IH]; intros recv_str Hlt; cbn [Manager.recv_chunk].
  - settle. reflexivity.
  - settle. unfold bind, recv.
    rewrite eqb_false by (unfold len in *; lia).
    rewrite Hrx. cbn [recv_events].
    replace (set_rx c []) with c by (destruct c; cbn in Hrx; now subst).
    rewrite app_nil_r. now apply IH.
Qed.

(** C5 (code defect).  [get_msg] calls [recv] once for the prefix and once
    for the payload and takes whatever each call returns.  A five-byte
    payload arriving as 'he' then 'llo' is returned as [b'he'], with 'llo'
    left in front of the next frame; when the peer closes after the prefix
    the result is [b''], no exception; a prefix arriving in two halves
    raises [struct.error].  The receiver's own loop for sample payloads
    ([recv_chunk]) does accumulate the same two segments into 'hello'. *)
Theorem C5_get_msg_reads_once :
  get_msg "str"
    (incoming [Seg (le_bytes 4 5); Seg (bytes_of "he"); Seg (bytes_of "llo")])
  = (Ok (PBytes (bytes_of "he")), incoming [Seg (bytes_of "llo")])
  /\ get_msg "str" (incoming [Seg (le_bytes 4 5)]) = (Ok (PBytes []), incoming [])
  /\ get_msg "int" (incoming [Seg [x05; x00]; Seg [x00; x00]])
     = (Raise StructError, incoming [Seg [x00; x00]])
  /\ Manager.recv_chunk 2 5 []
       (incoming [Seg (bytes_of "he"); Seg (bytes_of "llo")])
     = (Ok (Some (bytes_of "hello")), incoming []).
Proof.
  repeat split.
Qed.

End WithJson.

(** The channel list of the consumer goes through a JsonList frame
    unchanged. *)
Example channel_list_roundtrip :
  fst (get_msg (H := Bench.int_list_json) "list"
         (delivered (wire (H := Bench.int_list_json)
                       (PList [PInt 0; PInt 1; PInt 2; PInt 3]))))
  = Ok (PList [PInt 0; PInt 1; PInt 2; PInt 3]).
Proof.
  apply (list_roundtrip (H := Bench.int_list_json) _ (str_of "[0, 1, 2, 3]"));
    try reflexivity.
  repeat constructor; lia.
Qed.

End CodecFacts.

(** ** StreamForwarder *)

Module ForwarderFacts.
Import Forwarder CodecFacts.

Lemma slice_length (data : list Z) (a b : Z) :
  0 <= a <= b -> b <= len data -> len (slice data a b) = b - a.
Proof.
  unfold len, slice. intros Hab Hb.
  rewrite length_firstn, length_skipn. lia.
Qed.

Lemma slice_nth (data : list Z) (a b i : Z) :
  0 <= a -> 0 <= i < b - a ->
  nth_error (slice data a b) (Z.to_nat i) = nth_error data (Z.to_nat (a + i)).
Proof.
  unfold slice. intros Ha Hi.
  rewrite nth_error_firstn.
  replace (Z.to_nat i <? Z.to_nat (b - a))%nat with true
    by (symmetry; apply Nat.ltb_lt; lia).
  rewrite nth_error_skipn. f_equal. lia.
Qed.

(** The threshold is the floor of half the samples of one second. *)
Lemma threshold_floor (rate nch : Z) :
  0 <= rate -> 0 <= nch -> threshold rate nch = (rate * nch) / 2.
Proof.
  intros Hr Hn. unfold threshold. apply Z.quot_div_nonneg; nia.
Qed.

Lemma threshold_nonneg (rate nch : Z) :
  0 <= rate -> 0 <= nch -> 0 <= threshold rate nch.
Proof.
  intros Hr Hn. unfold threshold. apply Z.quot_pos; nia.
Qed.

(** The occupancy in the three positions of [head] against [tail]. *)
Lemma occupancy_cases (head tail cap : Z) :
  0 <= tail < cap -> 0 <= head < cap ->
  occupancy head tail cap =
    if head >? tail then head - tail
    else if head =? tail then 0
    else cap - tail + head.
Proof.
  intros Ht Hh. unfold occupancy.
  destruct (Z.lt_trichotomy head tail) as [Hlt | [Heq | Hgt]].
  - settle.
    replace (head - tail) with ((cap - tail + head) + (-1) * cap) by lia.
    rewrite Z.mod_add by lia. apply Z.mod_small. lia.
  - subst. settle. rewrite Z.sub_diag. apply Z.mod_0_l. lia.
  - settle. apply Z.mod_small. lia.
Qed.

(** Moving [tail] forward by the occupancy, modulo the capacity, puts it
    on [head]. *)
Lemma tail_plus_occupancy (head tail cap : Z) :
  0 <= head < cap -> (tail + occupancy head tail cap) mod cap = head.
Proof.
  intros Hh. unfold occupancy. rewrite Zplus_mod_idemp_r.
  replace (tail + (head - tail)) with head by lia.
  apply Z.mod_small. lia.
Qed.

Section WithJson.
Context `{Json}.

(** A UInt32 frame followed by a payload, on a socket that takes writes. *)
Lemma send_count_then_payload (v : Z) (payload : list byte) (c : connection)
    (A : Type) (k : io A) (x : A) :
  0 <= v < 2 ^ 32 -> tx_faults c = [] ->
  (forall c', k c' = (Ok x, c')) ->
  bind (send_msg (PInt v)) (fun _ => bind (sendall payload) (fun _ => k)) c
  = (Ok x, sent c (le_bytes 4 v ++ payload)).
Proof.
  intros Hv Hf Hk. unfold bind.
  rewrite send_int_ok by assumption.
  rewrite sendall_ok by exact Hf.
  now rewrite Hk, sent_sent.
Qed.

(** The straight branch: [head] ahead of [tail], more than the threshold
    between them. *)
Lemma poll_cycle_straight (rate nch cap : Z) (data : list Z) (head : Z)
    (st : cursor) (c : connection) :
  tail st < head -> threshold rate nch < head - tail st ->
  head - tail st < 2 ^ 32 -> tx_faults c = [] ->
  poll_cycle rate nch cap data head st c
  = (Ok (mkCursor (samples st + (head - tail st)) head),
     sent c (le_bytes 4 (head - tail st)
             ++ pack_doubles (slice data (tail st) head))).
Proof.
  intros Hht Hth Hr Hf. unfold poll_cycle. settle.
  apply send_count_then_payload; try assumption; [lia | reflexivity].
Qed.

(** The other branch: [head] not ahead of [tail]. *)
Lemma poll_cycle_wrapped (rate nch cap : Z) (data : list Z) (head : Z)
    (st : cursor) (c : connection) :
  head <= tail st -> threshold rate nch < cap - tail st + head ->
  0 <= cap - tail st + head < 2 ^ 32 -> tx_faults c = [] ->
  poll_cycle rate nch cap data head st c
  = (Ok (mkCursor (samples st + (cap - tail st + head)) head),
     sent c (le_bytes 4 (cap - tail st + head)
             ++ pack_doubles (slice data (tail st) cap ++ slice data 0 head))).
Proof.
  intros Hht Hth Hr Hf. unfold poll_cycle. settle.
  apply send_count_then_payload; try assumption; reflexivity.
Qed.

(** Nothing is sent and the cursor stays when the amount the code computes
    does not exceed the threshold. *)
Lemma poll_cycle_quiet (rate nch cap : Z) (data : list Z) (head : Z)
    (st : cursor) (c : connection) :
  (if head >? tail st then head - tail st else cap - tail st + head)
    <= threshold rate nch ->
  poll_cycle rate nch cap data head st c = (Ok st, c).
Proof.
  unfold poll_cycle. destruct (head >? tail st); intros Hle; settle;
    reflexivity.
Qed.

(** The amount the code takes for the number of samples to send, and
    the samples it packs. *)
Lemma poll_cycle_sends (rate nch cap : Z) (data : list Z) (head : Z)
    (st : cursor) (c : connection) :
  let sending :=
    if head >? tail st then head - tail st else cap - tail st + head in
  let payload :=
    if head >? tail st then slice data (tail st) head
    else slice data (tail st) cap ++ slice data 0 head in
  threshold rate nch < sending -> 0 <= sending < 2 ^ 32 ->
  tx_faults c = [] ->
  poll_cycle rate nch cap data head st c
  = (Ok (mkCursor (samples st + sending) head),
     sent c (le_bytes 4 sending ++ pack_doubles payload)).
Proof.
  cbv zeta. destruct (head >? tail st) eqn:E; intros Hth Hr Hf.
  - apply Z.gtb_lt in E. apply poll_cycle_straight; try assumption; lia.
  - rewrite Z.gtb_ltb in E. apply Z.ltb_ge in E.
    apply poll_cycle_wrapped; assumption.
Qed.

(** Away from [head = tail] that amount is the occupancy, and the packed
    list has that many samples. *)
Lemma sending_is_occupancy (data : list Z) (head tail cap : Z) :
  len data = cap -> 0 <= tail < cap -> 0 <= head < cap -> head <> tail ->
  (if head >? tail then head - tail else cap - tail + head)
  = occupancy head tail cap
  /\ len (if head >? tail then slice data tail head
          else slice data tail cap ++ slice data 0 head)
     = occupancy head tail cap.
Proof.
  intros Hdata Ht Hh Hne.
  rewrite (occupancy_cases head tail cap Ht Hh).
  destruct (Z.lt_trichotomy head tail) as [Hlt | [Heq | Hgt]]; settle.
  - split; [reflexivity|].
    unfold len. rewrite length_app.
    pose proof (slice_length data tail cap) as L1.
    pose proof (slice_length data 0 head) as L2.
    unfold len in *. lia.
  - lia.
  - split; [reflexivity | apply slice_length; lia].
Qed.

(** C2 (amended).  In a poll cycle whose occupancy is strictly above the
    threshold, the forwarder sends a UInt32 count frame carrying the
    occupancy, then the packed samples (as many as the occupancy), adds
    the occupancy to its running total, and moves [tail] forward by the
    occupancy modulo the capacity, that is to [head]. *)
Theorem C2_forwards_above_threshold (rate nch cap : Z) (data : list Z)
    (head : Z) (st : cursor) (c : connection) :
  0 <= rate -> 0 <= nch ->
  len data = cap -> 0 <= tail st < cap -> 0 <= head < cap ->
  tx_faults c = [] ->
  threshold rate nch < occupancy head (tail st) cap ->
  occupancy head (tail st) cap < 2 ^ 32 ->
  let n := occupancy head (tail st) cap in
  let payload :=
    if head >? tail st then slice data (tail st) head
    else slice data (tail st) cap ++ slice data 0 head in
  exists st',
    poll_cycle rate nch cap data head st c
      = (Ok st', sent c (le_bytes 4 n ++ pack_doubles payload))
    /\ len payload = n
    /\ samples st' = samples st + n
    /\ tail st' = (tail st + n) mod cap
    /\ tail st' = head.
Proof.
  intros Hrate Hnch Hdata Ht Hh Hf Hth Hr n payload. subst n payload.
  pose proof (threshold_nonneg rate nch Hrate Hnch) as Hth0.
  assert (Hne : head <> tail st).
  { intros ->. unfold occupancy in Hth.
    rewrite Z.sub_diag, Z.mod_0_l in Hth; lia. }
  destruct (sending_is_occupancy data head (tail st) cap Hdata Ht Hh Hne)
    as [Hsend Hlen].
  exists (mkCursor (samples st + occupancy head (tail st) cap) head).
  cbn [samples tail].
  rewrite (tail_plus_occupancy head (tail st) cap Hh).
  split; [|now repeat split].
  rewrite <- Hsend at 1 2.
  apply poll_cycle_sends; try assumption; rewrite Hsend; lia.
Qed.

(** What does hold of the quiet case: with [head] different from [tail]
    and the occupancy at or below the threshold, the cycle sends nothing
    and leaves the cursor where it was. *)
Lemma poll_cycle_below_threshold (rate nch cap : Z) (data : list Z)
    (head : Z) (st : cursor) (c : connection) :
  0 <= tail st < cap -> 0 <= head < cap -> head <> tail st ->
  occupancy head (tail st) cap <= threshold rate nch ->
  poll_cycle rate nch cap data head st c = (Ok st, c).
Proof.
  intros Ht Hh Hne Hle. apply poll_cycle_quiet.
  rewrite (occupancy_cases head (tail st) cap Ht Hh) in Hle.
  destruct (head >? tail st); [exact Hle|].
  now rewrite eqb_false in Hle by exact Hne.
Qed.

(** With [head] equal to [tail] the code takes the whole capacity for the
    amount to send. *)
Lemma poll_cycle_head_at_tail (rate nch cap : Z) (data : list Z)
    (st : cursor) (c : connection) :
  0 <= tail st < cap -> threshold rate nch < cap -> cap < 2 ^ 32 ->
  tx_faults c = [] ->
  poll_cycle rate nch cap data (tail st) st c
  = (Ok (mkCursor (samples st + cap) (tail st)),
     sent c (le_bytes 4 cap
             ++ pack_doubles (slice data (tail st) cap ++ slice data 0 (tail st)))).
Proof.
  intros Ht Hth Hc Hf.
  rewrite poll_cycle_wrapped; try assumption; try lia.
  now replace (cap - tail st + tail st) with cap by lia.
Qed.

(** C3 (code defect).  With 100 Hz on one channel the buffer holds 960
    samples and the threshold is 50.  A cycle that finds [head] equal to
    [tail] (here both 0) has occupancy zero, and sends a count frame of
    960 followed by the whole buffer.  This is what happens when the
    driver reports the same [head] at two polls in a row: the first cycle
    forwards samples 0..59 and sets [tail = 60]; at the second the
    occupancy is zero and the whole buffer goes out, samples 0..59 for
    the second time. *)
Theorem C3_empty_buffer_is_forwarded_whole :
  let data := Bench.ramp in
  let cap := buffer_size_of 100 1 in
  cap = 960 /\ threshold 100 1 = 50 /\
  occupancy 0 0 cap = 0 /\
  poll_cycle 100 1 cap data 0 (mkCursor 0 0) (incoming [])
  = (Ok (mkCursor 960 0),
     sent (incoming []) (le_bytes 4 960 ++ pack_doubles data)) /\
  occupancy 60 60 cap = 0 /\
  forward_loop 100 1 cap [Status 60 data; Status 60 data]
    (mkCursor 0 0) (incoming [])
  = (Ok (mkCursor (60 + 960) 60),
     sent (incoming [])
       (le_bytes 4 60 ++ pack_doubles (slice data 0 60) ++
        le_bytes 4 960 ++ pack_doubles (slice data 60 960 ++ slice data 0 60))).
Proof.
  vm_compute. repeat split.
Qed.

(** C4.  In a poll cycle whose read range wraps ([tail + available]
    beyond the capacity), whatever is sent is the count frame followed by
    the packed samples of [[tail, capacity)] and then of [[0, head)]: the
    cycle sends exactly that above the threshold and nothing otherwise.
    This payload has [available] samples of eight bytes each, the i-th
    being the buffer entry at [(tail + i) mod capacity]. *)
Theorem C4_wrapped_payload (rate nch cap : Z) (data : list Z)
    (head : Z) (st : cursor) (c : connection) :
  len data = cap -> 0 <= tail st < cap -> 0 <= head < cap ->
  let available := occupancy head (tail st) cap in
  cap < tail st + available ->
  let payload := slice data (tail st) cap ++ slice data 0 head in
  (threshold rate nch < available -> available < 2 ^ 32 ->
   tx_faults c = [] ->
   poll_cycle rate nch cap data head st c
   = (Ok (mkCursor (samples st + available) head),
      sent c (le_bytes 4 available ++ pack_doubles payload)))
  /\ (available <= threshold rate nch ->
      poll_cycle rate nch cap data head st c = (Ok st, c))
  /\ pack_doubles payload
     = pack_doubles (slice data (tail st) cap) ++ pack_doubles (slice data 0 head)
  /\ len payload = available
  /\ len (pack_doubles payload) = 8 * available
  /\ (forall i, 0 <= i < available ->
        nth_error payload (Z.to_nat i)
        = nth_error data (Z.to_nat ((tail st + i) mod cap))).
Proof.
  intros Hdata Ht Hh available Hwrap payload. subst available payload.
  pose proof (occupancy_cases head (tail st) cap Ht Hh) as Hocc.
  assert (Hlt : 0 < head < tail st).
  { destruct (Z.lt_trichotomy head (tail st)) as [Hlt | [Heq | Hgt]];
      revert Hocc; settle; intros Hocc; lia. }
  revert Hocc. settle. intros Hocc. rewrite Hocc in *. clear Hocc.
  assert (Hlen : len (slice data (tail st) cap ++ slice data 0 head)
                 = cap - tail st + head).
  { unfold len. rewrite length_app.
    pose proof (slice_length data (tail st) cap) as L1.
    pose proof (slice_length data 0 head) as L2.
    unfold len in *. lia. }
  split; [intros; apply poll_cycle_wrapped; try assumption; lia|].
  split; [intros Hle; apply poll_cycle_quiet; settle; exact Hle|].
  split; [apply pack_doubles_app|].
  split; [exact Hlen|].
  split; [rewrite pack_doubles_length, Hlen; reflexivity|].
  intros i Hi.
  pose proof (slice_length data (tail st) cap) as L1. unfold len in *.
  destruct (Z.lt_ge_cases i (cap - tail st)) as [Hlo | Hhi].
  - rewrite nth_error_app1 by lia.
    rewrite slice_nth by lia.
    now rewrite Z.mod_small by lia.
  - rewrite nth_error_app2 by lia.
    replace (Z.to_nat i - List.length (slice data (tail st) cap))%nat
      with (Z.to_nat (i - (cap - tail st))) by lia.
    rewrite slice_nth by lia.
    replace (tail st + i) with ((i - (cap - tail st)) + 1 * cap) by lia.
    rewrite Z.mod_add by lia.
    rewrite Z.mod_small by lia. f_equal.
Qed.

End WithJson.

(** C2 as the specification states it fails where the occupancy equals
    the threshold: 100 Hz on one channel (threshold 50, capacity 960),
    [tail = 0], [head = 50]; the occupancy is 50 and the cycle sends
    nothing and leaves [tail] at 0. *)
Lemma C2_counterexample :
  let cap := buffer_size_of 100 1 in
  let st := mkCursor 0 0 in
  threshold 100 1 <= occupancy 50 (tail st) cap /\
  poll_cycle (H := Bench.int_list_json) 100 1 cap Bench.ramp 50 st (incoming [])
  = (Ok st, incoming []).
Proof.
  vm_compute. split; [discriminate | reflexivity].
Qed.

(** One sample more than the threshold is forwarded. *)
Lemma C2_witness :
  exists st',
    poll_cycle (H := Bench.int_list_json) 100 1 960 Bench.ramp 51
      (mkCursor 0 0) (incoming [])
    = (Ok st',
       sent (incoming [])
         (le_bytes 4 51 ++ pack_doubles (slice Bench.ramp 0 51)))
    /\ len (slice Bench.ramp 0 51) = 51
    /\ samples st' = 51
    /\ tail st' = (0 + 51) mod 960
    /\ tail st' = 51.
Proof.
  apply (C2_forwards_above_threshold (H := Bench.int_list_json) 100 1 960
           Bench.ramp 51 (mkCursor 0 0) (incoming []));
    vm_compute; try reflexivity; try (split; congruence); congruence.
Defined.

(** Eighty samples across the seam: 60 from 900 up, then 20 from 0. *)
Lemma C4_witness :
  poll_cycle (H := Bench.int_list_json) 100 1 960 Bench.ramp 20
    (mkCursor 0 900) (incoming [])
  = (Ok (mkCursor 80 20),
     sent (incoming [])
       (le_bytes 4 80
        ++ pack_doubles (slice Bench.ramp 900 960 ++ slice Bench.ramp 0 20))).
Proof.
  apply (C4_wrapped_payload (H := Bench.int_list_json) 100 1 960
           Bench.ramp 20 (mkCursor 0 900) (incoming []));
    vm_compute; try reflexivity; try (split; congruence); congruence.
Defined.

End ForwarderFacts.

(** ** CommandDispatcher *)

Module DispatcherFacts.
Import Dispatcher CodecFacts.

(** *** A small program logic for the handler *)

Section Logic.
Context {A B : Type}.

Lemma triple_ret (P : session -> Prop) (a : A) : triple P (ret a) P.
Proof. intros w r w' HP Hrun. injection Hrun as _ <-. exact HP. Qed.

Lemma triple_throw (P : session -> Prop) (e : exn) :
  triple P (throw e : hm A) P.
Proof. intros w r w' HP Hrun. injection Hrun as _ <-. exact HP. Qed.

Lemma triple_lift (P : session -> Prop) (x : result A) : triple P (lift x) P.
Proof. intros w r w' HP Hrun. injection Hrun as _ <-. exact HP. Qed.

Lemma triple_on_conn (P : session -> Prop) (m : io A) :
  triple P (on_conn m) P.
Proof.
  intros w r w' HP Hrun. unfold on_conn in Hrun.
  destruct (m (conn w)) as [r0 c']. injection Hrun as _ <-. exact HP.
Qed.

Lemma triple_weaken (P Q Q' : session -> Prop) (m : hm A) :
  triple P m Q -> (forall s, Q s -> Q' s) -> triple P m Q'.
Proof. intros Hm Himp w r w' HP Hrun. eapply Himp, Hm; eassumption. Qed.

Lemma triple_bind (P Q R : session -> Prop) (m : hm A) (k : A -> hm B) :
  triple P m Q -> (forall s, Q s -> R s) ->
  (forall a, triple Q (k a) R) ->
  triple P (bind m k) R.
Proof.
  intros Hm Himp Hk w r w' HP Hrun. unfold bind in Hrun.
  destruct (m w) as [[a|e] w1] eqn:E.
  - eapply Hk; [|exact Hrun]. eapply Hm; eassumption.
  - injection Hrun as _ <-. eapply Himp, Hm; eassumption.
Qed.

Lemma triple_try_except (P Q R : session -> Prop) (m : hm A)
    (h : exn -> option (hm A)) :
  triple P m Q -> (forall s, Q s -> R s) ->
  (forall e k, h e = Some k -> triple Q k R) ->
  triple P (try_except m h) R.
Proof.
  intros Hm Himp Hh w r w' HP Hrun. unfold try_except in Hrun.
  destruct (m w) as [[a|e] w1] eqn:E.
  - injection Hrun as _ <-. eapply Himp, Hm; eassumption.
  - destruct (h e) as [k|] eqn:Ek.
    + eapply Hh; [exact Ek | | exact Hrun]. eapply Hm; eassumption.
    + injection Hrun as _ <-. eapply Himp, Hm; eassumption.
Qed.

End Logic.

Lemma triple_get_sess {B} (P R : session -> Prop) (k : session -> hm B) :
  (forall s, P s -> triple (fun s' => s' = s) (k s) R) ->
  triple P (bind get_sess k) R.
Proof.
  intros Hk w r w' HP Hrun. unfold bind, get_sess in Hrun.
  eapply (Hk (sess w) HP w); [reflexivity | exact Hrun].
Qed.

Lemma triple_set_sess (Q : session -> Prop) (f : session -> session) :
  triple (fun s => Q (f s)) (set_sess f) Q.
Proof. intros w r w' HP Hrun. injection Hrun as _ <-. exact HP. Qed.

Lemma triple_emit (P : session -> Prop) (a : action) : triple P (emit a) P.
Proof. intros w r w' HP Hrun. injection Hrun as _ <-. exact HP. Qed.

Lemma triple_pre {A} (P P' Q : session -> Prop) (m : hm A) :
  triple P' m Q -> (forall s, P s -> P' s) -> triple P m Q.
Proof. intros Hm Himp w r w' HP Hrun. eapply Hm; [apply Himp, HP | exact Hrun]. Qed.

Section WithLibraries.
Context `{Json} `{Hardware}.

(** The [start] branch with no board selected: nothing at all happens. *)
Lemma dispatch_start_idle (boards : Boards.BOARDS) (w : world) :
  board_selected (sess w) = false ->
  dispatch boards (str_of "start") w = (Ok Continue, w).
Proof.
  intros Hsel. unfold dispatch.
  change (pystr_eqb (str_of "start") (str_of "list")) with false.
  change (pystr_eqb (str_of "start") (str_of "open")) with false.
  change (pystr_eqb (str_of "start") (str_of "start")) with true.
  cbv iota. unfold bind, get_sess. rewrite Hsel. reflexivity.
Qed.

(** C8.  A [start] command (in any letter case) received while no board
    is selected leaves the handler as it was: the session variables are
    the same (no configuration, stop flag as before, still no board), no
    thread is started or joined, nothing is sent, and nothing beyond the
    command frame itself is read.  The loop goes on to its next turn. *)
Theorem C8_start_while_idle (boards : Boards.BOARDS) (w : world)
    (payload rest : list byte) (text : pystr) (r : list event) :
  board_selected (sess w) = false ->
  rx (conn w) = Seg (le_bytes 4 (len payload) ++ payload ++ rest) :: r ->
  len payload < 2 ^ 32 ->
  Utf8.decode payload = Ok text ->
  lower text = str_of "start" ->
  iteration boards w
  = (Ok Continue,
     mkWorld (set_rx (conn w) (pending rest r)) (sess w) (trace w)).
Proof.
  intros Hsel Hrx Hlen Hdec Hlow.
  assert (Hne : payload <> []).
  { intros ->. change (Utf8.decode []) with (@Ok pystr []) in Hdec.
    injection Hdec as <-. discriminate Hlow. }
  unfold iteration, try_except, bind, on_conn.
  rewrite (get_msg_str_frame payload rest r (conn w) Hne Hlen Hrx).
  destruct payload as [|b0 payload']; [congruence|].
  unfold lift. rewrite Hdec, Hlow.
  rewrite dispatch_start_idle by exact Hsel. reflexivity.
Qed.

(** An empty command frame whose four prefix bytes are read at once: the
    handler leaves the loop and closes the connection; nothing is sent,
    whatever follows the four bytes is left unread, and the session and
    its threads are not touched. *)
Lemma empty_frame_ends_handler (fuel : nat) (boards : Boards.BOARDS)
    (w : world) (rest : list byte) (r : list event) :
  rx (conn w) = Seg (le_bytes 4 0 ++ rest) :: r ->
  leave (command_loop (S fuel) boards w)
  = (ConnectionClosed,
     mkWorld (close (set_rx (conn w) (pending rest r))) (sess w) (trace w)).
Proof.
  intros Hrx. cbn [command_loop].
  unfold bind at 1. unfold iteration, try_except, bind, on_conn.
  rewrite (get_msg_empty_frame rest r (conn w) Hrx).
  reflexivity.
Qed.

(** C10 (code defect).  An empty command frame ends the handler cleanly
    only if its prefix is read at once.  When the four zero bytes come
    in one read, [get_msg] returns [b''], the loop is left and the
    connection closed.  When the same four bytes come as two reads of
    two, the single prefix [recv] of [get_msg] returns two bytes,
    [struct.unpack] raises, neither [except] clause matches, and the
    handler thread ends by [struct.error]: the connection is not closed
    and the second half of the prefix is still unread.  Session and
    threads are as before in both cases. *)
Theorem C10_split_zero_prefix_crashes_handler (fuel : nat)
    (boards : Boards.BOARDS) (r : list event) (sent_so_far : list byte)
    (faults : list (option exn)) (s : session) (t : list action) :
  leave (command_loop (S fuel) boards
           (mkWorld
              (mkConn (Seg [x00; x00] :: Seg [x00; x00] :: r)
                 sent_so_far faults false) s t))
  = (Crashed StructError,
     mkWorld (mkConn (Seg [x00; x00] :: r) sent_so_far faults false) s t)
  /\ leave (command_loop (S fuel) boards
              (mkWorld
                 (mkConn (Seg [x00; x00; x00; x00] :: r)
                    sent_so_far faults false) s t))
     = (ConnectionClosed, mkWorld (mkConn r sent_so_far faults true) s t).
Proof.
  split.
  - cbn [command_loop]. unfold bind at 1.
    unfold iteration, try_except, bind, on_conn. reflexivity.
  - rewrite (empty_frame_ends_handler fuel boards _ [] r) by reflexivity.
    reflexivity.
Qed.

(** *** The stop flag and the selected board *)

(** The two kinds of steps of the handler: one that leaves the session
    alone, and an assignment to a session variable. *)
Ltac pass Q :=
  eapply (triple_bind _ Q);
  [ first [ apply triple_on_conn | apply triple_lift | apply triple_emit
          | apply triple_throw | apply triple_ret ]
  | | intros ? ].

Ltac assign Q :=
  eapply (triple_bind _ Q);
  [ eapply triple_pre;
    [ apply triple_set_sess
    | cbv beta; intros; subst; cbn; auto ]
  | | intros _ ].

Lemma dispatch_keeps_flag_rule (boards : Boards.BOARDS) (message : pystr) :
  triple flag_follows_board (dispatch boards message) flag_follows_board.
Proof.
  unfold dispatch.
  destruct (pystr_eqb message (str_of "list")).
  { pass flag_follows_board; [auto | apply triple_ret]. }
  destruct (pystr_eqb message (str_of "open")).
  { eapply (triple_bind _ flag_follows_board);
      [| auto | intros; apply triple_ret].
    eapply (triple_try_except _ flag_follows_board);
      [| auto | intros e k Hk; injection Hk as <-; apply triple_ret].
    apply triple_get_sess. intros s Hs.
    destruct (board_selected s) eqn:Esel; cbn [negb].
    - eapply triple_pre; [apply triple_ret|]. now intros s' ->.
    - (* on the way only the board number, the descriptor and the
         selection change *)
      pose (Q := fun s' : session => stop_event s' = false).
      assert (HQ : forall s', Q s' -> flag_follows_board s')
        by (unfold Q, flag_follows_board; auto).
      apply (triple_pre _ Q); [|intros s' ->; apply Hs, Esel].
      pass Q; [exact HQ|]. assign Q; [exact HQ|].
      pass Q; [exact HQ|]. assign Q; [exact HQ|].
      pass Q; [exact HQ|]. pass Q; [exact HQ|]. pass Q; [exact HQ|].
      eapply triple_pre; [apply triple_set_sess|].
      intros s' _. unfold flag_follows_board. cbn. discriminate. }
  destruct (pystr_eqb message (str_of "start")).
  { apply triple_get_sess. intros s Hs.
    destruct (board_selected s) eqn:Esel; cbn [negb].
    - pose (Q := fun s' : session => board_selected s' = true).
      assert (HQ : forall s', Q s' -> flag_follows_board s')
        by (unfold Q, flag_follows_board; intros; congruence).
      apply (triple_pre _ Q); [|intros s' ->; exact Esel].
      pass Q; [exact HQ|]. pass Q; [exact HQ|].
      pass Q; [exact HQ|]. pass Q; [exact HQ|].
      assign Q; [exact HQ|]. assign Q; [exact HQ|].
      pass Q; [exact HQ|].
      eapply triple_weaken; [apply triple_ret | exact HQ].
    - eapply triple_pre; [apply triple_ret|]. now intros s' ->. }
  destruct (pystr_eqb message (str_of "stop")).
  { apply triple_get_sess. intros s Hs.
    pose (Q := fun s' : session => stop_event s' = false).
    assert (HQ : forall s', Q s' -> flag_follows_board s')
      by (unfold Q, flag_follows_board; auto).
    eapply (triple_bind _ Q); [| exact HQ |].
    - destruct (stop_event s) eqn:Eev.
      + eapply triple_pre with (P' := fun _ => True); [|auto].
        eapply (triple_bind _ Q);
          [ eapply triple_pre; [apply triple_set_sess | reflexivity]
          | auto | intros _ ].
        eapply (triple_bind _ Q); [| auto | intros _].
        * destruct (thread s); [apply triple_emit | apply triple_throw].
        * eapply triple_pre; [apply triple_set_sess | auto].
      + eapply triple_pre; [apply triple_lift|]. now intros s' ->.
    - intros _. assign Q; [exact HQ|].
      eapply triple_weaken; [apply triple_ret | exact HQ]. }
  destruct (pystr_eqb message (str_of "exit")); apply triple_ret.
Qed.


Lemma iteration_keeps_flag_rule (boards : Boards.BOARDS) :
  triple flag_follows_board (iteration boards) flag_follows_board.
Proof.
  unfold iteration.
  eapply (triple_try_except _ flag_follows_board); [| auto |].
  - pass flag_follows_board; [auto|].
    destruct a as [| | | | |b| |]; try apply triple_throw.
    destruct b as [|b0 b']; [apply triple_ret|].
    pass flag_follows_board; [auto|].
    apply dispatch_keeps_flag_rule.
  - intros e k Hk. destruct e; try discriminate; injection Hk as <-;
      apply triple_ret.
Qed.

Lemma command_loop_keeps_flag_rule (fuel : nat) (boards : Boards.BOARDS) :
  triple flag_follows_board (command_loop fuel boards) flag_follows_board.
Proof.
  induction fuel as [|k IH]; cbn [command_loop]; [apply triple_ret|].
  eapply (triple_bind _ flag_follows_board);
    [apply iteration_keeps_flag_rule | auto |].
  intros [|]; [exact IH | apply triple_ret].
Qed.

(** However the handler ends, its stop flag is set only if a board is
    selected: a session without a board has a clear stop flag, before a
    [start] command and (by C8) after it. *)
Lemma handle_client_flag_rule (fuel : nat) (c : connection)
    (e : handler_end) (w : world) :
  handle_client fuel c = (e, w) -> flag_follows_board (sess w).
Proof.
  unfold handle_client.
  assert (Hinit : flag_follows_board initial_session) by (intros _; reflexivity).
  destruct Boards._get_boards as [boards|e0].
  - destruct (command_loop fuel boards (mkWorld c initial_session []))
      as [[[u|]|e1] w1] eqn:E;
      pose proof (command_loop_keeps_flag_rule fuel boards
                    (mkWorld c initial_session []) _ _ Hinit E) as Hw;
      cbn [leave]; intros Heq; injection Heq as _ <-; exact Hw.
  - intros Heq. injection Heq as _ <-. exact Hinit.
Qed.

End WithLibraries.

(** ['StArT'] with no board selected, the first argument frame of the
    command already behind it in the same segment. *)
Lemma C8_witness :
  iteration (H := Bench.int_list_json) (H0 := Bench.one_board)
    (Boards.mkBoards [] [] 0) Bench.idle_world
  = (Ok Continue,
     mkWorld (incoming [Seg (le_bytes 4 12)]) initial_session []).
Proof.
  apply (C8_start_while_idle (H := Bench.int_list_json) (H0 := Bench.one_board)
           (Boards.mkBoards [] [] 0) Bench.idle_world (bytes_of "StArT")
           (le_bytes 4 12) (str_of "StArT") []);
    vm_compute; reflexivity.
Defined.

(** A connection that opens with an empty frame followed by a [start]
    command: the handler closes it with the command unread. *)
Lemma empty_frame_ends_handler_witness :
  handle_client (H := Bench.int_list_json) (H0 := Bench.one_board) 1
    (incoming [Seg (le_bytes 4 0 ++ Bench.start_frame)])
  = (ConnectionClosed,
     mkWorld (close (incoming [Seg Bench.start_frame])) initial_session []).
Proof.
  apply (empty_frame_ends_handler (H := Bench.int_list_json)
           (H0 := Bench.one_board) 0
           (Boards.mkBoards
              (Boards.scan_inventory 0 [Bench.usb_201]) [Bench.usb_201] 1)
           (mkWorld (incoming [Seg (le_bytes 4 0 ++ Bench.start_frame)])
              initial_session [])
           Bench.start_frame []).
  reflexivity.
Defined.

End DispatcherFacts.

(** ** SessionClient and StreamReceiver *)

Module ManagerFacts.
Import Manager CodecFacts.

Lemma socket_only_refl (m : DaqSocketManager) : socket_only m m.
Proof. unfold socket_only. now destruct m. Qed.

Lemma socket_only_trans (m1 m2 m3 : DaqSocketManager) :
  socket_only m1 m2 -> socket_only m2 m3 -> socket_only m1 m3.
Proof.
  unfold socket_only. intros H12 H23. rewrite H23. rewrite H12.
  reflexivity.
Qed.

(** A method of the socket changes nothing else in the object. *)
Lemma on_socket_frame {A} (op : io A) (m m' : DaqSocketManager) (r : result A) :
  on_socket op m = (r, m') -> socket_only m m'.
Proof.
  unfold on_socket. destruct (socket m) as [c|] eqn:E.
  - destruct (op c) as [r' c']. intros Heq. injection Heq as _ <-.
    reflexivity.
  - intros Heq. injection Heq as _ <-. apply socket_only_refl.
Qed.

Section WithLibraries.
Context `{Json}.

(** A turn of the receiver loop that raises has published nothing: the
    object is as it was at the start of the turn, up to what was read
    from the socket. *)
Lemma scan_once_raises (fuel : nat) (m m' : DaqSocketManager) (e : exn) :
  scan_once fuel m = (Raise e, m') -> socket_only m m'.
Proof.
  unfold scan_once, bind.
  destruct (get_msg "int" m) as [[v|e1] m1] eqn:E1.
  2:{ intros Heq. injection Heq as _ <-.
      now apply on_socket_frame in E1. }
  apply on_socket_frame in E1.
  destruct (on_socket (recv_chunk fuel _ []) m1) as [[o|e2] m2] eqn:E2.
  2:{ intros Heq. injection Heq as _ <-.
      apply on_socket_frame in E2. eapply socket_only_trans; eassumption. }
  apply on_socket_frame in E2.
  assert (H12 : socket_only m m2) by (eapply socket_only_trans; eassumption).
  destruct o as [recv_str|]; [|discriminate].
  unfold lift.
  destruct (unpack_doubles _ recv_str) as [u|e3]; [discriminate|].
  intros Heq. injection Heq as _ <-. exact H12.
Qed.

(** No turn of the loop, whatever its outcome, writes [running],
    [stop_event] or [thread]. *)
Lemma scan_once_flags (fuel : nat) (m m' : DaqSocketManager)
    (r : result (option unit)) :
  scan_once fuel m = (r, m') ->
  running m' = running m /\ stop_event m' = stop_event m
  /\ thread m' = thread m.
Proof.
  unfold scan_once, bind.
  destruct (get_msg "int" m) as [[v|e1] m1] eqn:E1;
    apply on_socket_frame in E1; unfold socket_only in E1.
  2:{ intros Heq. injection Heq as _ <-. now rewrite E1. }
  destruct (on_socket (recv_chunk fuel _ []) m1) as [[o|e2] m2] eqn:E2;
    apply on_socket_frame in E2; unfold socket_only in E2.
  2:{ intros Heq. injection Heq as _ <-. now rewrite E2, E1. }
  destruct o as [recv_str|].
  2:{ intros Heq. injection Heq as _ <-. now rewrite E2, E1. }
  unfold lift, update, ret.
  destruct (unpack_doubles _ recv_str) as [u|e3];
    intros Heq; injection Heq as _ <-; now rewrite E2, E1.
Qed.

Lemma scan_loop_flags (fuel : nat) (m m' : DaqSocketManager)
    (r : result (option unit)) :
  scan_loop fuel m = (r, m') ->
  running m' = running m /\ stop_event m' = stop_event m
  /\ thread m' = thread m.
Proof.
  revert m. induction fuel as [|k IH]; intros m Hl; cbn [scan_loop] in Hl.
  - destruct (stop_event m) eqn:Ef; injection Hl as _ <-; now repeat split.
  - destruct (stop_event m) eqn:Ef;
      [|injection Hl as _ <-; now repeat split].
    destruct (scan_once (S k) m) as [[[[]|]|e] m1] eqn:E1;
      pose proof (scan_once_flags _ _ _ _ E1) as (F1 & F2 & F3).
    + apply IH in Hl. destruct Hl as (G1 & G2 & G3).
      repeat split; congruence.
    + injection Hl as _ <-. repeat split; congruence.
    + injection Hl as _ <-. repeat split; congruence.
Qed.

(** A turn that publishes a block is followed by the rest of the run. *)
Lemma read_server_scans_unroll (fuel : nat) (m m1 : DaqSocketManager) :
  stop_event m = true ->
  scan_once (S fuel) m = (Ok (Some tt), m1) ->
  read_server_scans (S fuel) m = read_server_scans fuel m1.
Proof.
  intros Hflag Hturn. unfold read_server_scans. cbn [scan_loop].
  now rewrite Hflag, Hturn.
Qed.

(** The accumulating loop on a payload that has arrived whole. *)
Lemma recv_chunk_whole (fuel : nat) (b rest : list byte) (r : list event)
    (c : connection) :
  b <> [] -> rx c = Seg (b ++ rest) :: r ->
  recv_chunk (S fuel) (len b) [] c = (Ok (Some b), set_rx c (pending rest r)).
Proof.
  intros Hne Hrx. cbn [recv_chunk]. change (len []) with 0.
  assert (Hpos : 0 < len b)
    by (destruct b; [congruence | unfold len; cbn [List.length]; lia]).
  settle. unfold bind.
  rewrite Z.sub_0_r, Z.min_id.
  rewrite (recv_front b rest r c Hne Hrx).
  cbn [app]. destruct fuel; cbn [recv_chunk]; settle; reflexivity.
Qed.

(** A turn of the loop on a data frame that has arrived whole: the block
    is published and flagged as new. *)
Lemma scan_once_publishes (fuel : nat) (l : list Z) (rest : list byte)
    (r : list event) (m : DaqSocketManager) (c : connection) :
  socket m = Some c -> l <> [] -> len l < 2 ^ 32 ->
  Forall (fun x => 0 <= x < 2 ^ 64) l ->
  rx c = Seg (le_bytes 4 (len l) ++ pack_doubles l ++ rest) :: r ->
  scan_once (S fuel) m
  = (Ok (Some tt),
     set_new_data true
       (set_data_list l (set_socket (Some (set_rx c (pending rest r))) m))).
Proof.
  intros Hs Hne Hl Hbits Hrx.
  assert (Hpack : pack_doubles l <> []).
  { destruct l as [|x l']; [congruence|]. discriminate. }
  unfold scan_once, bind, get_msg. unfold on_socket at 1. rewrite Hs.
  rewrite (get_msg_int_frame (len l) (pack_doubles l ++ rest) r c)
    by first [ exact Hrx | unfold len in *; lia ].
  cbn [Dispatcher.as_int]. unfold on_socket at 1. cbn [socket set_socket].
  unfold size_of_double. rewrite <- pack_doubles_length.
  rewrite (recv_chunk_whole fuel (pack_doubles l) rest r)
    by first [ exact Hpack
             | destruct (pack_doubles l); [congruence | reflexivity] ].
  rewrite pack_doubles_length.
  replace (8 * len l / 8) with (len l) by (rewrite Z.mul_comm, Z.div_mul; lia).
  unfold lift. rewrite unpack_pack_doubles by exact Hbits.
  reflexivity.
Qed.

(** C7 (amended).  When a read times out in a turn of the receiver loop,
    [read_server_scans] returns (the thread ends) with [new_data] cleared;
    the published block [data_list] is the one that was there at the start
    of the turn, and neither [running] nor the loop's own flag
    [stop_event] is cleared. *)
Theorem C7_timeout_ends_receiver (fuel : nat) (m m1 : DaqSocketManager) :
  stop_event m = true ->
  scan_once (S fuel) m = (Raise TimeoutError, m1) ->
  exists mf,
    read_server_scans (S fuel) m = Some (Return PNone, mf)
    /\ new_data mf = false
    /\ data_list mf = data_list m
    /\ running mf = running m
    /\ stop_event mf = true.
Proof.
  intros Hflag Hturn.
  exists (set_new_data false m1).
  pose proof (scan_once_raises _ _ _ _ Hturn) as Hso.
  unfold read_server_scans. cbn [scan_loop]. rewrite Hflag, Hturn.
  split; [reflexivity|].
  unfold socket_only in Hso. rewrite Hso. cbn.
  repeat split. exact Hflag.
Qed.

(** However many blocks were published before it, a run of the receiver
    that a timeout ends leaves both flags as they were. *)
Lemma timeout_keeps_flags (fuel : nat) (m m' : DaqSocketManager) :
  scan_loop fuel m = (Raise TimeoutError, m') ->
  exists mf,
    read_server_scans fuel m = Some (Return PNone, mf)
    /\ new_data mf = false
    /\ data_list mf = data_list m'
    /\ running mf = running m
    /\ stop_event mf = stop_event m.
Proof.
  intros Hl. exists (set_new_data false m').
  destruct (scan_loop_flags _ _ _ _ Hl) as (F1 & F2 & _).
  unfold read_server_scans. rewrite Hl. now repeat split.
Qed.

Lemma send_str_value (s : pystr) (m m1 : DaqSocketManager) (z : Z) :
  send_msg (PStr s) m = (Ok z, m1) -> z = 0.
Proof.
  unfold send_msg, on_socket.
  destruct (socket m) as [c|]; [|discriminate].
  unfold Codec.send_msg, bind, lift, ret.
  destruct (pack_I (len s)) as [p|]; [|discriminate].
  destruct (sendall p c) as [[[]|] c1]; [|discriminate].
  destruct (Utf8.encode s) as [b|]; [|discriminate].
  destruct (sendall b c1) as [[[]|] c2]; [|discriminate].
  intros Heq. now injection Heq as <- _.
Qed.

Context `{Scheduler}.

(** C9.  [stop_server] returns ['idle'] with [running] false whenever it
    returns: after a successful send (with or without a thread to join),
    after [TimeoutError], after [ConnectionResetError], and after any other
    exception, which the [return] of the [finally] block discards.  It
    fails to return only when joining the receiver thread never ends. *)
Theorem C9_stop_server_returns_idle (m : DaqSocketManager) :
  match stop_server m with
  | Some (c, m') => c = Return (PStr (str_of "idle")) /\ running m' = false
  | None =>
      exists m1, send_msg (PStr (str_of "stop")) m = (Ok 0, m1)
                 /\ running m1 = true
                 /\ thread_join (set_stop_event false m1) = None
  end.
Proof.
  unfold stop_server, stop_server_try.
  destruct (send_msg (PStr (str_of "stop")) m) as [[z|e] m1] eqn:Es.
  - assert (Hz : z = 0) by (eapply send_str_value; exact Es).
    subst z.
    destruct (running m1) eqn:Er.
    + destruct (thread (set_stop_event false m1)) eqn:Et.
      * destruct (thread_join (set_stop_event false m1)) as [m3|] eqn:Ej.
        -- split; reflexivity.
        -- exists m1. repeat split; assumption.
      * split; reflexivity.
    + split; reflexivity.
  - split; [|reflexivity].
    unfold except_falling, finally. reflexivity.
Qed.

End WithLibraries.

(** C7 as the specification states it fails on the flags: the consumer is
    streaming ([running] and [stop_event] both set by [start_server]) and
    its first read times out; the thread function returns with [running]
    and [stop_event] still set. *)
Lemma C7_counterexample :
  let m := Bench.streaming [Timeout] in
  let mf := Bench.streaming [] in
  running m = true /\ stop_event m = true /\
  read_server_scans (H := Bench.int_list_json) 1 m = Some (Return PNone, mf)
  /\ running mf = true /\ stop_event mf = true.
Proof.
  vm_compute. repeat split.
Qed.

(** A block of two samples was published; of the next block only eight of
    its sixteen bytes arrive before the read times out. *)
Lemma C7_witness :
  let m := set_data_list [7; 9]
             (Bench.streaming [Seg (le_bytes 4 2 ++ le_bytes 8 11); Timeout]) in
  exists mf,
    read_server_scans (H := Bench.int_list_json) 2 m = Some (Return PNone, mf)
    /\ new_data mf = false
    /\ data_list mf = [7; 9]
    /\ running mf = true
    /\ stop_event mf = true.
Proof.
  cbv zeta.
  apply (C7_timeout_ends_receiver (H := Bench.int_list_json) 1
           (set_data_list [7; 9]
              (Bench.streaming [Seg (le_bytes 4 2 ++ le_bytes 8 11); Timeout]))
           (set_data_list [7; 9] (Bench.streaming [])));
    reflexivity.
Defined.

(** The three ways through [stop_server]: the send succeeds and the thread
    is joined, the send times out, the connection is reset. *)
Lemma C9_witness :
  (exists m', stop_server (H := Bench.int_list_json) (H0 := Bench.joined_at_once)
                (Bench.streaming []) = Some (Return (PStr (str_of "idle")), m')
              /\ running m' = false)
  /\ (exists m', stop_server (H := Bench.int_list_json) (H0 := Bench.joined_at_once)
                   (Bench.streaming_then_fault TimeoutError)
                 = Some (Return (PStr (str_of "idle")), m')
                 /\ running m' = false)
  /\ (exists m', stop_server (H := Bench.int_list_json) (H0 := Bench.joined_at_once)
                   (Bench.streaming_then_fault ConnectionResetError)
                 = Some (Return (PStr (str_of "idle")), m')
                 /\ running m' = false).
Proof.
  pose proof (C9_stop_server_returns_idle (H := Bench.int_list_json)
                (H0 := Bench.joined_at_once) (Bench.streaming [])) as P1.
  pose proof (C9_stop_server_returns_idle (H := Bench.int_list_json)
                (H0 := Bench.joined_at_once)
                (Bench.streaming_then_fault TimeoutError)) as P2.
  pose proof (C9_stop_server_returns_idle (H := Bench.int_list_json)
                (H0 := Bench.joined_at_once)
                (Bench.streaming_then_fault ConnectionResetError)) as P3.
  split; [|split].
  - destruct (stop_server (Bench.streaming [])) as [[c m']|] eqn:E.
    + exists m'. destruct P1 as [-> Hr]. split; [reflexivity | exact Hr].
    + discriminate E.
  - destruct (stop_server (Bench.streaming_then_fault TimeoutError))
      as [[c m']|] eqn:E.
    + exists m'. destruct P2 as [-> Hr]. split; [reflexivity | exact Hr].
    + discriminate E.
  - destruct (stop_server (Bench.streaming_then_fault ConnectionResetError))
      as [[c m']|] eqn:E.
    + exists m'. destruct P3 as [-> Hr]. split; [reflexivity | exact Hr].
    + discriminate E.
Defined.

(** The paths of [stop_server] one by one, on the bench: the value the
    [try] statement was about to give, and what the caller gets. *)
Example stop_server_paths :
  stop_server_try (H := Bench.int_list_json) (H0 := Bench.joined_at_once)
    (Bench.streaming [])
  = Some (Return (PInt 0), set_stop_event false (snd (send_msg
            (H := Bench.int_list_json) (PStr (str_of "stop")) (Bench.streaming []))))
  /\ fst (send_msg (H := Bench.int_list_json) (PStr (str_of "stop"))
            (Bench.streaming_then_fault TimeoutError)) = Raise TimeoutError
  /\ fst (send_msg (H := Bench.int_list_json) (PStr (str_of "stop"))
            (Bench.streaming_then_fault ConnectionResetError))
     = Raise ConnectionResetError
  /\ stop_server (H := Bench.int_list_json) (H0 := Bench.joined_at_once)
       (set_socket None (Bench.streaming []))
     = Some (Return (PStr (str_of "idle")),
             set_running false (set_socket None (Bench.streaming [])))
  /\ stop_server (H := Bench.int_list_json) (H0 := Bench.never_joined)
       (Bench.streaming [])
     = None.
Proof.
  vm_compute. repeat split.
Qed.

End ManagerFacts.

(** ** From the ring buffer to the published block *)

Module EndToEnd.
Import Forwarder Manager CodecFacts ForwarderFacts ManagerFacts.

Lemma Forall_firstn_skipn {A} (P : A -> Prop) (n : nat) (l : list A) :
  Forall P l -> Forall P (firstn n l) /\ Forall P (skipn n l).
Proof.
  intros Hl. rewrite <- (firstn_skipn n l) in Hl.
  now apply Forall_app in Hl.
Qed.

Section WithJson.
Context `{Json}.

(** What one forwarding cycle writes, delivered whole to a receiver,
    is published there as the very samples that were in the buffer. *)
Lemma forwarded_block_is_published (rate nch cap : Z) (data : list Z)
    (head : Z) (st : cursor) (fuel : nat) (m : DaqSocketManager) :
  0 <= rate -> 0 <= nch ->
  len data = cap -> 0 <= tail st < cap -> 0 <= head < cap ->
  Forall (fun x => 0 <= x < 2 ^ 64) data ->
  threshold rate nch < occupancy head (tail st) cap ->
  occupancy head (tail st) cap < 2 ^ 32 ->
  let payload :=
    if head >? tail st then slice data (tail st) head
    else slice data (tail st) cap ++ slice data 0 head in
  let wire := tx (snd (poll_cycle rate nch cap data head st (incoming []))) in
  fst (scan_once (S fuel) (set_socket (Some (delivered wire)) m))
  = Ok (Some tt)
  /\ data_list (snd (scan_once (S fuel) (set_socket (Some (delivered wire)) m)))
     = payload.
Proof.
  intros Hrate Hnch Hdata Ht Hh Hbits Hth Hr payload wire.
  pose proof (threshold_nonneg rate nch Hrate Hnch) as Hth0.
  assert (Hne : head <> tail st).
  { intros ->. unfold occupancy in Hth.
    rewrite Z.sub_diag, Z.mod_0_l in Hth; lia. }
  destruct (sending_is_occupancy data head (tail st) cap Hdata Ht Hh Hne)
    as [Hsend Hlen].
  fold payload in Hlen.
  subst wire.
  rewrite poll_cycle_sends by (try reflexivity; rewrite Hsend; lia).
  fold payload. rewrite Hsend, <- Hlen.
  cbn [snd sent tx incoming app].
  assert (Hp : Forall (fun x => 0 <= x < 2 ^ 64) payload).
  { subst payload. unfold slice.
    destruct (head >? tail st);
      repeat first [ apply Forall_app; split
                   | apply Forall_firstn_skipn
                   | exact Hbits ]. }
  assert (Hpn : payload <> []).
  { intros E. rewrite E in Hlen. change (len []) with 0 in Hlen. lia. }
  rewrite (scan_once_publishes fuel payload [] [] _ (delivered
             (le_bytes 4 (len payload) ++ pack_doubles payload)));
    try assumption; try reflexivity.
  - split; reflexivity.
  - lia.
  - unfold delivered, incoming. cbn [rx]. now rewrite app_nil_r.
Qed.

End WithJson.
End EndToEnd.

(** ** ConnectionAdmission *)

Module AdmissionFacts.
Import Admission.

(** The test of the accept loop on the raw count: more than two live
    threads, the main thread included. *)
Lemma on_accept_spec (n : Z) :
  on_accept n = if n >? 2 then CloseIt else Dispatch.
Proof.
  unfold on_accept. destruct (Z.lt_ge_cases 2 n); settle; reflexivity.
Qed.

Lemma step_bounds (s : server) (e : event) :
  thread_bounds s -> thread_bounds (step s e).
Proof.
  unfold thread_bounds, step. intros [Hh Hf]. destruct e.
  - rewrite on_accept_spec. unfold active_count.
    destruct (Z.gtb_spec (1 + handlers s + forwarders s) 2);
      cbn [handlers forwarders]; lia.
  - destruct (Z.ltb_spec 0 (handlers s)); cbn [handlers forwarders]; lia.
  - destruct (Z.ltb_spec 0 (handlers s)); cbn [handlers forwarders]; lia.
  - destruct (Z.ltb_spec 0 (forwarders s)); cbn [handlers forwarders]; lia.
Qed.

Lemma fold_bounds (es : list event) (s : server) :
  thread_bounds s -> thread_bounds (fold_left step es s).
Proof.
  revert s. induction es as [|e es IH]; intros s Hs; [exact Hs|].
  cbn [fold_left]. apply IH, step_bounds, Hs.
Qed.

Lemma start_server_bounds (es : list event) : thread_bounds (start_server es).
Proof.
  apply fold_bounds. unfold thread_bounds, listening. cbn [handlers forwarders]. lia.
Qed.

(** C6 (amended).  In every state the accept loop can reach, at most two
    connection-handler threads are alive.  A connection accepted while two
    or more threads besides the main one are alive (handlers and
    forwarders together) is closed and gets no handler; a connection
    accepted while at most one is alive gets a handler, a second one
    included. *)
Theorem C6_at_most_two_handlers (es : list event) :
  let s := start_server es in
  0 <= handlers s <= 2
  /\ (2 <= handlers s + forwarders s ->
      step s Accept
      = mkServer (handlers s) (forwarders s) (dispatched s) (refused s + 1))
  /\ (handlers s + forwarders s <= 1 ->
      step s Accept
      = mkServer (handlers s + 1) (forwarders s) (dispatched s + 1) (refused s)).
Proof.
  cbv zeta. destruct (start_server_bounds es) as [Hh Hf].
  split; [exact Hh|].
  unfold step. rewrite on_accept_spec. unfold active_count.
  split; intros Hc; settle; reflexivity.
Qed.

(** C6 as the specification states it fails at the second connection:
    with one handler alive the next connection is given a handler too,
    and nothing is closed. *)
Lemma C6_counterexample :
  handlers (start_server [Accept]) = 1
  /\ on_accept (active_count (start_server [Accept])) = Dispatch
  /\ handlers (start_server [Accept; Accept]) = 2
  /\ refused (start_server [Accept; Accept]) = 0.
Proof.
  repeat split.
Qed.

(** The third connection is the one that is closed. *)
Lemma C6_witness :
  step (start_server [Accept; Accept]) Accept = mkServer 2 0 2 1.
Proof.
  apply (C6_at_most_two_handlers [Accept; Accept]).
  vm_compute. discriminate.
Defined.

(** One client that is streaming (its handler and its forwarder) keeps
    every other connection out. *)
Example streaming_client_blocks_others :
  step (start_server [Accept; ForwarderStarts]) Accept = mkServer 1 1 1 1.
Proof. reflexivity. Qed.

End AdmissionFacts.

(** * Further properties of the code *)

(** ** FrameCodec, frame kind by frame kind *)

Module CodecMore.
Import CodecFacts.

Section WithJson.
Context `{Json}.

(** X1.  UInt32 frames round-trip.  For [v] in [0, 2^32), [send_msg]
    appends the four little-endian bytes of [v] to whatever was sent
    before and returns 0; [get_msg('int')], with these bytes at the front
    of what has arrived, returns [v] and leaves what follows them. *)
Theorem uint32_frame_roundtrip (v : Z) :
  0 <= v < 2 ^ 32 ->
  (forall c, tx_faults c = [] ->
     send_msg (PInt v) c = (Ok 0, sent c (wire (PInt v))))
  /\ List.length (wire (PInt v)) = 4%nat
  /\ (forall c rest r,
        rx c = Seg (wire (PInt v) ++ rest) :: r ->
        get_msg "int" c = (Ok (PInt v), set_rx c (pending rest r))).
Proof.
  intros Hv. rewrite (int_wire v Hv).
  split; [intros c Hf; now apply send_int_ok|].
  split; [apply le_bytes_length|].
  intros c rest r Hrx. now apply get_msg_int_frame.
Qed.

(** An int outside [0, 2^32) is refused: [send_msg] raises
    [struct.error] and not a byte is written. *)
Lemma send_int_out_of_range (v : Z) (c : connection) :
  v < 0 \/ 2 ^ 32 <= v ->
  send_msg (PInt v) c = (Raise StructError, c).
Proof.
  intros Hv. unfold send_msg, bind, lift, pack_I.
  destruct Hv as [Hneg | Hbig].
  - replace (0 <=? v) with false by (symmetry; apply Z.leb_gt; lia).
    reflexivity.
  - replace (v <? 2 ^ 32) with false by (symmetry; apply Z.ltb_ge; lia).
    now rewrite andb_false_r.
Qed.

(** X2.  Utf8String frames of ASCII text round-trip up to decoding:
    [get_msg('str')] returns a bytes object that decodes to the text that
    was sent, and leaves what follows the frame. *)
Theorem ascii_str_frame_roundtrip (s : pystr) :
  len s < 2 ^ 32 -> is_ascii s ->
  forall c rest r,
    rx c = Seg (wire (PStr s) ++ rest) :: r ->
    exists b,
      get_msg "str" c = (Ok (PBytes b), set_rx c (pending rest r))
      /\ Utf8.decode b = Ok s.
Proof.
  intros Hl Ha c rest r Hrx.
  rewrite (str_wire s _ Hl (encode_ascii s Ha)) in Hrx.
  exists (map byte_of_Z s). split; [|now apply decode_ascii].
  destruct s as [|cp s'].
  - cbn [map app] in Hrx. change (len []) with 0 in Hrx.
    now apply get_msg_empty_frame.
  - rewrite <- app_assoc in Hrx.
    replace (len (cp :: s')) with (len (map byte_of_Z (cp :: s'))) in Hrx
      by (unfold len; now rewrite length_map).
    apply get_msg_str_frame; [discriminate | | exact Hrx].
    unfold len in *. now rewrite length_map.
Qed.

(** X3.  Utf8String frames of any other text are cut: the prefix counts
    code points, the encoding is longer, so [get_msg('str')] returns the
    first [len(s)] bytes of the encoding and the remaining bytes stay in
    the stream, in front of the next frame. *)
Theorem non_ascii_str_frame_cut (s : pystr) (b : list byte) :
  len s < 2 ^ 32 -> Utf8.encode s = Ok b -> ~ is_ascii s ->
  get_msg "str" (delivered (wire (PStr s)))
  = (Ok (PBytes (firstn (List.length s) b)),
     incoming [Seg (skipn (List.length s) b)])
  /\ skipn (List.length s) b <> []
  /\ firstn (List.length s) b <> b.
Proof.
  intros Hl Hb Hna.
  destruct (encode_length s b Hb) as [Hle Hiff].
  assert (Hlt : (List.length s < List.length b)%nat).
  { assert (List.length b <> List.length s) by (intros E; apply Hna, Hiff, E).
    lia. }
  assert (Hskip : skipn (List.length s) b <> []).
  { intros E. apply (f_equal (@List.length byte)) in E.
    rewrite length_skipn in E. cbn [List.length] in E. lia. }
  split; [|split; [exact Hskip|]].
  - assert (Hs : s <> []) by (intros ->; apply Hna; constructor).
    rewrite (str_wire s b Hl Hb).
    rewrite <- (firstn_skipn (List.length s) b) at 1.
    assert (Hfl : len (firstn (List.length s) b) = len s).
    { unfold len. rewrite length_firstn. lia. }
    rewrite <- Hfl.
    rewrite (get_msg_str_frame (firstn (List.length s) b)
               (skipn (List.length s) b) []); try reflexivity.
    + unfold pending, delivered, incoming, set_rx. cbn [tx tx_faults closed].
      destruct (skipn (List.length s) b); [congruence | reflexivity].
    + intros E. apply (f_equal (@List.length byte)) in E.
      rewrite length_firstn in E. cbn [List.length] in E.
      destruct s; [congruence | cbn [List.length] in *; lia].
    + rewrite Hfl. exact Hl.
  - intros E. apply (f_equal (@List.length byte)) in E.
    rewrite length_firstn in E. lia.
Qed.

(** X4.  JsonList frames round-trip as far as [json] does: when
    [json.dumps] gives ASCII text for the list and [json.loads] reads
    that text back as [v], [get_msg('list')] on the bytes [send_msg]
    wrote returns [v] and leaves what follows the frame. *)
Theorem json_list_frame_roundtrip (l : list pyval) (text : pystr) (v : pyval) :
  json_dumps l = Ok text -> is_ascii text -> text <> [] ->
  len text < 2 ^ 32 -> json_loads text = Ok v ->
  (forall c, tx_faults c = [] ->
     send_msg (PList l) c = (Ok 0, sent c (wire (PList l))))
  /\ (forall c rest r,
        rx c = Seg (wire (PList l) ++ rest) :: r ->
        get_msg "list" c = (Ok v, set_rx c (pending rest r))).
Proof.
  intros Hd Ha Hne Hl Hload.
  rewrite (list_wire l text _ Hd Hl (encode_ascii text Ha)).
  split.
  - intros c Hf. now apply send_list_ok; try apply encode_ascii.
  - intros c rest r Hrx. rewrite <- app_assoc in Hrx.
    replace (len text) with (len (map byte_of_Z text)) in Hrx
      by (unfold len; now rewrite length_map).
    apply (get_msg_list_frame (map byte_of_Z text) rest text v r c);
      try assumption.
    + destruct text; [congruence | discriminate].
    + unfold len in *. now rewrite length_map.
    + now apply decode_ascii.
Qed.

(** X5.  Reading a frame when the prefix is not there.  On a connection
    the peer has closed, [get_msg] raises [struct.error] for every
    [typ] (the empty [recv] result cannot be unpacked).  When fewer than
    four bytes have arrived, the same exception is raised and those
    bytes are lost.  A timeout or a reset at the prefix is raised as it
    is. *)
Theorem get_msg_without_prefix (typ : string) (sent_so_far : list byte)
    (faults : list (option exn)) (cl : bool) (r : list event) :
  get_msg typ (mkConn [] sent_so_far faults cl)
  = (Raise StructError, mkConn [] sent_so_far faults cl)
  /\ (forall b, b <> [] -> (List.length b < 4)%nat ->
        get_msg typ (mkConn (Seg b :: r) sent_so_far faults cl)
        = (Raise StructError, mkConn r sent_so_far faults cl))
  /\ get_msg typ (mkConn (Timeout :: r) sent_so_far faults cl)
     = (Raise TimeoutError, mkConn r sent_so_far faults cl)
  /\ get_msg typ (mkConn (Reset :: r) sent_so_far faults cl)
     = (Raise ConnectionResetError, mkConn r sent_so_far faults cl).
Proof.
  split; [reflexivity|]. split; [|split; reflexivity].
  intros b Hne Hlen.
  destruct b as [|b0 [|b1 [|b2 [|b3 b']]]]; try congruence;
    try (cbn [List.length] in Hlen; lia); reflexivity.
Qed.

End WithJson.

Lemma uint32_frame_roundtrip_witness :
  (forall c, tx_faults c = [] ->
     send_msg (H := Bench.int_list_json) (PInt 70000) c
     = (Ok 0, sent c (wire (H := Bench.int_list_json) (PInt 70000))))
  /\ List.length (wire (H := Bench.int_list_json) (PInt 70000)) = 4%nat
  /\ (forall c rest r,
        rx c = Seg (wire (H := Bench.int_list_json) (PInt 70000) ++ rest) :: r ->
        get_msg (H := Bench.int_list_json) "int" c
        = (Ok (PInt 70000), set_rx c (pending rest r))).
Proof.
  apply (uint32_frame_roundtrip (H := Bench.int_list_json) 70000). lia.
Defined.

Lemma send_int_out_of_range_witness :
  send_msg (H := Bench.int_list_json) (PInt (-1)) (incoming [])
  = (Raise StructError, incoming []).
Proof.
  apply (send_int_out_of_range (H := Bench.int_list_json) (-1) (incoming [])).
  left. lia.
Defined.

Lemma ascii_str_frame_roundtrip_witness :
  exists b,
    get_msg (H := Bench.int_list_json) "str"
      (delivered (wire (H := Bench.int_list_json) (PStr (str_of "stop"))))
    = (Ok (PBytes b), incoming [])
    /\ Utf8.decode b = Ok (str_of "stop").
Proof.
  change (incoming [])
    with (set_rx (delivered (wire (H := Bench.int_list_json)
                               (PStr (str_of "stop")))) (pending [] [])).
  apply (ascii_str_frame_roundtrip (H := Bench.int_list_json) (str_of "stop"));
    [ vm_compute; reflexivity
    | repeat constructor; lia
    | vm_compute; reflexivity ].
Defined.

Lemma non_ascii_str_frame_cut_witness :
  get_msg (H := Bench.int_list_json) "str"
    (delivered (wire (H := Bench.int_list_json) (PStr [233; 116; 233])))
  = (Ok (PBytes [xc3; xa9; x74]), incoming [Seg [xc3; xa9]])
  /\ [xc3; xa9] <> []
  /\ [xc3; xa9; x74] <> [xc3; xa9; x74; xc3; xa9].
Proof.
  apply (non_ascii_str_frame_cut (H := Bench.int_list_json) [233; 116; 233]
           [xc3; xa9; x74; xc3; xa9]).
  - vm_compute. reflexivity.
  - reflexivity.
  - intros Ha. inversion Ha as [|? ? Hcp _]. lia.
Defined.

Lemma json_list_frame_roundtrip_witness :
  (forall c, tx_faults c = [] ->
     send_msg (H := Bench.int_list_json) (PList [PInt 0; PInt 1; PInt 2; PInt 3]) c
     = (Ok 0, sent c (wire (H := Bench.int_list_json)
                        (PList [PInt 0; PInt 1; PInt 2; PInt 3]))))
  /\ (forall c rest r,
        rx c = Seg (wire (H := Bench.int_list_json)
                      (PList [PInt 0; PInt 1; PInt 2; PInt 3]) ++ rest) :: r ->
        get_msg (H := Bench.int_list_json) "list" c
        = (Ok (PList [PInt 0; PInt 1; PInt 2; PInt 3]),
           set_rx c (pending rest r))).
Proof.
  apply (json_list_frame_roundtrip (H := Bench.int_list_json)
           [PInt 0; PInt 1; PInt 2; PInt 3] (str_of "[0, 1, 2, 3]")).
  - reflexivity.
  - repeat constructor; lia.
  - discriminate.
  - vm_compute. reflexivity.
  - reflexivity.
Defined.

End CodecMore.

(** ** StreamForwarder: the loop *)

Module ForwarderMore.
Import Forwarder CodecFacts ForwarderFacts.

Lemma sent_nil (c : connection) : sent c [] = c.
Proof. unfold sent. rewrite app_nil_r. now destruct c. Qed.

Section WithJson.
Context `{Json}.

(** One cycle, with [head] and [tail] inside the buffer: either nothing
    happens, or one data frame goes out whose count is the number of
    samples that follow it. *)
Lemma poll_cycle_shape (rate nch cap : Z) (data : list Z) (head : Z)
    (st : cursor) (c : connection) :
  cap < 2 ^ 32 -> 0 <= tail st < cap -> 0 <= head < cap -> len data = cap ->
  tx_faults c = [] ->
  poll_cycle rate nch cap data head st c = (Ok st, c)
  \/ exists block,
       0 < len block <= cap
       /\ poll_cycle rate nch cap data head st c
          = (Ok (mkCursor (samples st + len block) head),
             sent c (data_frame block)).
Proof.
  intros Hcap Ht Hh Hdata Hf.
  pose proof (slice_length data (tail st) head) as L1.
  pose proof (slice_length data (tail st) cap) as L2.
  pose proof (slice_length data 0 head) as L3.
  destruct (Z.lt_ge_cases (tail st) head) as [Hgt | Hle].
  - destruct (Z.lt_ge_cases (threshold rate nch) (head - tail st)) as [Hth | Hth].
    + right. exists (slice data (tail st) head).
      rewrite L1 by lia. split; [lia|].
      unfold data_frame. rewrite L1 by lia.
      apply poll_cycle_straight; try assumption; lia.
    + left. apply poll_cycle_quiet. settle. exact Hth.
  - destruct (Z.lt_ge_cases (threshold rate nch) (cap - tail st + head))
      as [Hth | Hth].
    + right. exists (slice data (tail st) cap ++ slice data 0 head).
      assert (Hlen : len (slice data (tail st) cap ++ slice data 0 head)
                     = cap - tail st + head).
      { unfold len in *. rewrite length_app. lia. }
      rewrite Hlen. split; [lia|].
      unfold data_frame. rewrite Hlen.
      apply poll_cycle_wrapped; try assumption; lia.
    + left. apply poll_cycle_quiet. settle. exact Hth.
Qed.

(** X6.  What the forwarder loop writes is a sequence of well-formed data
    frames.  With every reported [head] inside the buffer and a socket
    that takes the writes, the loop ends normally; the bytes it has sent
    are data frames of non-empty blocks (each count equal to the number
    of samples behind it), at most one per poll; its running total
    [samples] has grown by the number of samples sent; and [tail] is
    still inside the buffer. *)
Theorem forward_loop_sends_frames (rate nch cap : Z) (polls : list poll)
    (st : cursor) (c : connection) :
  cap < 2 ^ 32 -> 0 <= tail st < cap ->
  Forall (poll_in_range cap) polls -> tx_faults c = [] ->
  exists st' blocks,
    forward_loop rate nch cap polls st c = (Ok st', sent c (data_frames blocks))
    /\ Forall (fun b => 0 < len b <= cap) blocks
    /\ (List.length blocks <= List.length polls)%nat
    /\ samples st' = samples st + total blocks
    /\ 0 <= tail st' < cap.
Proof.
  intros Hcap Ht Hpolls. revert st c Ht.
  induction Hpolls as [|p polls Hp _ IH]; intros st c Ht Hf.
  - exists st, []. cbn [forward_loop data_frames flat_map total fold_right].
    rewrite sent_nil. unfold ret.
    repeat split; try constructor; try lia.
  - destruct p as [head data|]; [|contradiction].
    destruct Hp as [Hh Hdata]. cbn [forward_loop]. unfold bind.
    destruct (poll_cycle_shape rate nch cap data head st c Hcap Ht Hh Hdata Hf)
      as [Hq | (block & Hlen & He)].
    + rewrite Hq.
      destruct (IH st c Ht Hf) as (st' & blocks & Hrun & Hbl & Hn & Hs & Ht').
      exists st', blocks. rewrite Hrun.
      repeat split; try assumption; try lia.
      cbn [List.length]. lia.
    + rewrite He.
      destruct (IH (mkCursor (samples st + len block) head)
                  (sent c (data_frame block)))
        as (st' & blocks & Hrun & Hbl & Hn & Hs & Ht');
        [exact Hh | exact Hf |].
      exists st', (block :: blocks). rewrite Hrun.
      cbn [data_frames flat_map List.length samples] in *.
      rewrite sent_sent.
      repeat split; try assumption; try lia.
      * constructor; assumption.
      * change (total (block :: blocks)) with (len block + total blocks). lia.
Qed.

(** X7.  The loop stays silent below the threshold.  While every
    reported [head] differs from [tail] and leaves the occupancy at or
    below the threshold, nothing is sent and the cursor does not move,
    however many polls are made. *)
Theorem forward_loop_quiet (rate nch cap : Z) (polls : list poll)
    (st : cursor) (c : connection) :
  0 <= tail st < cap ->
  Forall (fun p => match p with
                   | Status head _ =>
                       0 <= head < cap /\ head <> tail st
                       /\ occupancy head (tail st) cap <= threshold rate nch
                   | StatusError => False
                   end) polls ->
  forward_loop rate nch cap polls st c = (Ok st, c).
Proof.
  intros Ht Hpolls.
  induction Hpolls as [|p polls Hp _ IH]; [reflexivity|].
  destruct p as [head data|]; [|contradiction].
  destruct Hp as (Hh & Hne & Hocc). cbn [forward_loop]. unfold bind.
  rewrite (poll_cycle_below_threshold rate nch cap data head st c Ht Hh Hne Hocc).
  exact IH.
Qed.

(** *** The thread writes and does nothing else *)

Lemma writes_only_refl (c : connection) : writes_only c c.
Proof. repeat split. exists []. now rewrite app_nil_r. Qed.

Lemma writes_only_trans (a b c : connection) :
  writes_only a b -> writes_only b c -> writes_only a c.
Proof.
  intros (R1 & C1 & x & T1) (R2 & C2 & y & T2).
  repeat split; try congruence.
  exists (x ++ y). rewrite T2, T1. now rewrite app_assoc.
Qed.

Lemma write_only_ret {A} (a : A) : write_only (ret a).
Proof. intros c. apply writes_only_refl. Qed.

Lemma write_only_throw {A} (e : exn) : write_only (@throw connection A e).
Proof. intros c. apply writes_only_refl. Qed.

Lemma write_only_lift {A} (r : result A) : write_only (lift r).
Proof. intros c. apply writes_only_refl. Qed.

Lemma write_only_sendall (data : list byte) : write_only (sendall data).
Proof.
  intros c. unfold sendall.
  destruct (tx_faults c) as [|[e|] f]; cbn [snd]; repeat split; cbn [tx].
  - now exists data.
  - exists []. now rewrite app_nil_r.
  - now exists data.
Qed.

Lemma write_only_bind {A B} (m : io A) (k : A -> io B) :
  write_only m -> (forall a, write_only (k a)) -> write_only (bind m k).
Proof.
  intros Hm Hk c. unfold bind. specialize (Hm c).
  destruct (m c) as [[a|e] c1]; cbn [snd] in *; [|exact Hm].
  eapply writes_only_trans; [exact Hm | apply Hk].
Qed.

Lemma write_only_try_except {A} (m : io A) (h : exn -> option (io A)) :
  write_only m -> (forall e k, h e = Some k -> write_only k) ->
  write_only (try_except m h).
Proof.
  intros Hm Hh c. unfold try_except. specialize (Hm c).
  destruct (m c) as [[a|e] c1]; cbn [snd] in *; [exact Hm|].
  destruct (h e) as [k|] eqn:E; cbn [snd]; [|exact Hm].
  eapply writes_only_trans; [exact Hm | apply (Hh e k E)].
Qed.

Ltac write_only :=
  repeat first
    [ apply write_only_ret | apply write_only_throw | apply write_only_lift
    | apply write_only_sendall
    | apply write_only_bind; [|intros ?] ].

Lemma write_only_send_msg (itm : pyval) : write_only (send_msg itm).
Proof. destruct itm; unfold send_msg; write_only. Qed.

Lemma write_only_poll_cycle (rate nch cap : Z) (data : list Z) (head : Z)
    (st : cursor) :
  write_only (poll_cycle rate nch cap data head st).
Proof.
  unfold poll_cycle.
  destruct (head >? tail st);
    [destruct (head - tail st >? threshold rate nch)
    |destruct (cap - tail st + head >? threshold rate nch)];
    cbv zeta; write_only; apply write_only_send_msg.
Qed.

Lemma write_only_forward_loop (rate nch cap : Z) (polls : list poll)
    (st : cursor) :
  write_only (forward_loop rate nch cap polls st).
Proof.
  revert st. induction polls as [|[head data|] polls IH]; intros st;
    cbn [forward_loop]; write_only.
  - apply write_only_poll_cycle.
  - apply IH.
Qed.

Context `{Hardware}.

(** X8.  The forwarder thread only writes, and lets no exception out
    but one.  However [read_device_scans] ends, it has read nothing from
    the socket and has not closed it, and what was sent before is still
    the front of what is sent.  It ends normally in every case (a
    failing driver call or socket write is caught and logged) except
    when [len(config.Channels)] raises, which happens before the [try]:
    then [TypeError] escapes with the connection untouched. *)
Theorem read_device_scans_contained (config : Config) (polls : list poll)
    (c : connection) :
  writes_only c (snd (read_device_scans config polls c))
  /\ ((exists e, fst (read_device_scans config polls c) = Ok e)
      \/ (py_len (Channels config) = Raise TypeError
          /\ read_device_scans config polls c = (Raise TypeError, c))).
Proof.
  split.
  - revert c. change (write_only (read_device_scans config polls)).
    unfold read_device_scans. apply write_only_bind; [write_only|].
    intros n. destruct (scaled_win_buf_alloc _); [|write_only].
    apply write_only_try_except.
    + write_only. apply write_only_forward_loop.
    + intros e k [= <-]. write_only.
  - unfold read_device_scans, bind at 1 3, lift at 1 6.
    destruct (py_len (Channels config)) as [n|e] eqn:E.
    + left. destruct (scaled_win_buf_alloc _); [|now eexists].
      unfold try_except.
      match goal with |- context [match ?m with _ => _ end] =>
        destruct m as [[a|e] c1] end; now eexists.
    + right. destruct (Channels config); cbn in E; try discriminate;
        injection E as <-; split; reflexivity.
Qed.

End WithJson.

(** X9.  The size of the scan buffer.  It is a multiple of 960 samples
    (so of 32 and of 96), it holds at most ten seconds of samples and at
    least ten seconds less 950 samples, and it is empty exactly when
    one second has fewer than 96 samples. *)
Theorem buffer_size_bounds (rate nch : Z) :
  let b := buffer_size_of rate nch in
  b mod 960 = 0 /\ b mod 32 = 0 /\ b mod 96 = 0
  /\ 10 * (rate * nch) - 950 <= b <= 10 * (rate * nch)
  /\ (b = 0 <-> 0 <= rate * nch < 96).
Proof.
  cbv zeta. unfold buffer_size_of.
  set (o := rate * nch).
  pose proof (Z.mod_pos_bound o 96 ltac:(lia)) as Hm.
  pose proof (Z.div_mod o 96 ltac:(lia)) as Hd.
  assert (Hq : (o - o mod 96) * 10 = o / 96 * 960) by lia.
  rewrite Hq.
  split; [apply Z.mod_mul; lia|].
  split; [replace (o / 96 * 960) with (o / 96 * 30 * 32) by lia;
          apply Z.mod_mul; lia|].
  split; [replace (o / 96 * 960) with (o / 96 * 10 * 96) by lia;
          apply Z.mod_mul; lia|].
  split; [lia|].
  split.
  - intros Hz. assert (Hdiv : o / 96 = 0) by lia.
    apply Z.div_small_iff in Hdiv; lia.
  - intros Ho. rewrite Z.div_small by lia. reflexivity.
Qed.

Lemma forward_loop_sends_frames_witness :
  exists st' blocks,
    forward_loop (H := Bench.int_list_json) 100 4 960
      [Status 300 Bench.ramp; Status 100 Bench.ramp] (mkCursor 0 0)
      (incoming [])
    = (Ok st', sent (incoming []) (data_frames blocks))
    /\ Forall (fun b => 0 < len b <= 960) blocks
    /\ (List.length blocks <= 2)%nat
    /\ samples st' = 0 + total blocks
    /\ 0 <= tail st' < 960.
Proof.
  apply (forward_loop_sends_frames (H := Bench.int_list_json) 100 4 960
           [Status 300 Bench.ramp; Status 100 Bench.ramp] (mkCursor 0 0)
           (incoming [])).
  - lia.
  - cbn. lia.
  - repeat constructor; cbn; lia.
  - reflexivity.
Defined.

Lemma forward_loop_quiet_witness :
  forward_loop (H := Bench.int_list_json) 100 4 960
    [Status 100 Bench.ramp; Status 200 Bench.ramp] (mkCursor 0 0)
    (incoming [])
  = (Ok (mkCursor 0 0), incoming []).
Proof.
  apply (forward_loop_quiet (H := Bench.int_list_json) 100 4 960
           [Status 100 Bench.ramp; Status 200 Bench.ramp] (mkCursor 0 0)
           (incoming [])).
  - cbn. lia.
  - repeat constructor; cbn; lia.
Defined.

End ForwarderMore.

(** ** The receiver thread on whole streams *)

Module ManagerMore.
Import Manager CodecFacts ManagerFacts.

Lemma set_rx_same (c : connection) : set_rx c (rx c) = c.
Proof. now destruct c. Qed.

Lemma len_app {A} (a b : list A) : len (a ++ b) = len a + len b.
Proof. unfold len. rewrite length_app. lia. Qed.

Lemma len_pos {A} (a : list A) : a <> [] -> 0 < len a.
Proof. destruct a; [congruence|]. unfold len. cbn [List.length]. lia. Qed.

Section WithLibraries.
Context `{Json}.

(** The inner loop gathers a payload that arrives in pieces. *)
Lemma recv_chunk_gathers (segs : list (list byte)) :
  forall (fuel : nat) (acc : list byte) (r : list event) (c : connection),
  Forall (fun s => s <> []) segs ->
  rx c = map Seg segs ++ r ->
  (List.length segs <= fuel)%nat ->
  recv_chunk fuel (len acc + len (List.concat segs)) acc c
  = (Ok (Some (acc ++ List.concat segs)), set_rx c r).
Proof.
  induction segs as [|s ss IH]; intros fuel acc r c Hne Hrx Hfuel.
  - cbn [List.concat map app] in *. change (len (@nil byte)) with 0.
    rewrite Z.add_0_r, app_nil_r.
    destruct fuel; cbn [recv_chunk]; rewrite Z.ltb_irrefl;
      unfold ret; now rewrite <- Hrx, set_rx_same.
  - inversion Hne as [|? ? Hs Hss]; subst.
    destruct fuel as [|k]; [cbn [List.length] in Hfuel; lia|].
    cbn [List.concat map app] in *.
    pose proof (len_pos s Hs) as Hpos.
    assert (Hacc : 0 <= len acc) by (unfold len; lia).
    assert (Hcc : 0 <= len (List.concat ss)) by (unfold len; lia).
    rewrite len_app.
    cbn [recv_chunk]. settle. unfold bind.
    rewrite Z.min_l by lia.
    replace (len acc + (len s + len (List.concat ss)) - len acc)
      with (len s + len (List.concat ss)) by lia.
    unfold recv. rewrite eqb_false by lia. rewrite Hrx.
    destruct s as [|b0 s']; [congruence|].
    cbn [recv_events].
    assert (Hn : (List.length (b0 :: s')
                  <= Z.to_nat (len (b0 :: s') + len (List.concat ss)))%nat)
      by (unfold len in *; lia).
    rewrite firstn_all2 by exact Hn. rewrite skipn_all2 by exact Hn.
    replace (len acc + (len (b0 :: s') + len (List.concat ss)))
      with (len (acc ++ b0 :: s') + len (List.concat ss))
      by (rewrite len_app; lia).
    rewrite (IH k (acc ++ b0 :: s') r (set_rx c (map Seg ss ++ r)));
      [ now rewrite <- app_assoc
      | exact Hss | reflexivity | cbn [List.length] in Hfuel; lia ].
Qed.

(** X10.  The receiver reassembles a payload that arrives in pieces.
    After the four bytes of the count, the samples may come in any
    number of segments: the inner loop reads until it has all of them,
    and the block published is the block that was packed.  (The
    receiver needs as many reads as there are segments.) *)
Theorem scan_once_reassembles (fuel : nat) (l : list Z)
    (segs : list (list byte)) (r : list event) (m : DaqSocketManager)
    (c : connection) :
  socket m = Some c -> block_ok l ->
  Forall (fun s => s <> []) segs -> List.concat segs = pack_doubles l ->
  rx c = Seg (le_bytes 4 (len l)) :: map Seg segs ++ r ->
  (List.length segs <= fuel)%nat ->
  scan_once fuel m
  = (Ok (Some tt),
     set_new_data true (set_data_list l (set_socket (Some (set_rx c r)) m))).
Proof.
  intros Hs (Hne & Hl & Hbits) Hsegs Hcat Hrx Hfuel.
  unfold scan_once, bind, get_msg. unfold on_socket at 1. rewrite Hs.
  rewrite (get_msg_int_frame (len l) [] (map Seg segs ++ r) c)
    by first [ now rewrite app_nil_r | unfold len in *; lia ].
  cbn [Dispatcher.as_int pending]. unfold on_socket at 1.
  cbn [socket set_socket]. unfold size_of_double.
  rewrite <- pack_doubles_length, <- Hcat.
  change (len (List.concat segs)) with (len (@nil byte) + len (List.concat segs)).
  rewrite (recv_chunk_gathers segs fuel [] r) by first [assumption | reflexivity].
  cbn [app]. rewrite Hcat, pack_doubles_length.
  replace (8 * len l / 8) with (len l) by (rewrite Z.mul_comm, Z.div_mul; lia).
  unfold lift. rewrite unpack_pack_doubles by exact Hbits.
  reflexivity.
Qed.

Lemma data_frames_cons_nonempty (b : list Z) (bs : list (list Z))
    (rest : list byte) :
  data_frames (b :: bs) ++ rest <> [].
Proof. cbn [data_frames flat_map]. unfold data_frame. discriminate. Qed.

(** X11.  A stream of data frames leaves the last block published.  The
    receiver, handed one frame after another in a single segment, takes
    one turn per frame and then stands where a receiver would that had
    just published the last block: the earlier blocks are overwritten,
    whether or not the consumer has fetched them. *)
Theorem receiver_keeps_last_block (blocks : list (list Z)) :
  forall (rest : list byte) (r : list event) (fuel : nat)
         (m : DaqSocketManager) (c : connection),
  socket m = Some c -> stop_event m = true ->
  blocks <> [] -> Forall block_ok blocks ->
  rx c = Seg (data_frames blocks ++ rest) :: r ->
  read_server_scans (List.length blocks + fuel) m
  = read_server_scans fuel
      (set_new_data true
         (set_data_list (last blocks [])
            (set_socket (Some (set_rx c (pending rest r))) m))).
Proof.
  induction blocks as [|b bs IH]; intros rest r fuel m c Hs Hflag Hne Hok Hrx;
    [congruence|].
  inversion Hok as [|? ? (Hb & Hlen & Hbits) Hoks]; subst.
  cbn [data_frames flat_map] in Hrx. fold (data_frames bs) in Hrx.
  unfold data_frame in Hrx. rewrite <- !app_assoc in Hrx.
  pose proof (scan_once_publishes (List.length bs + fuel) b
                (data_frames bs ++ rest) r m c Hs Hb Hlen Hbits Hrx) as Hturn.
  cbn [List.length Nat.add].
  rewrite (read_server_scans_unroll _ m _ Hflag Hturn).
  destruct bs as [|b2 bs'].
  - cbn [List.length Nat.add last data_frames flat_map app]. reflexivity.
  - pose proof (data_frames_cons_nonempty b2 bs' rest) as Hnz.
    destruct (data_frames (b2 :: bs') ++ rest) as [|x rest'] eqn:E;
      [congruence|].
    rewrite <- E in *.
    rewrite (IH rest r fuel _
               (set_rx c (Seg (data_frames (b2 :: bs') ++ rest) :: r)));
      try reflexivity; try assumption; discriminate.
Qed.

(** X12.  A stream that stops in the middle of a payload holds the
    receiver for ever.  When the peer closes after the count and fewer
    bytes than the count announces, every further read returns nothing
    and the inner loop never ends: no amount of fuel lets
    [read_server_scans] finish, and the stop flag is not looked at. *)
Theorem receiver_never_ends_on_short_payload (fuel : nat) (n : Z)
    (part : list byte) (m : DaqSocketManager) (c : connection) :
  socket m = Some c -> stop_event m = true ->
  0 <= n < 2 ^ 32 -> len part < 8 * n ->
  rx c = [Seg (le_bytes 4 n ++ part)] ->
  read_server_scans fuel m = None.
Proof.
  intros Hs Hflag Hn Hshort Hrx.
  destruct fuel as [|k]; unfold read_server_scans; cbn [scan_loop];
    rewrite Hflag; [reflexivity|].
  unfold scan_once, bind, get_msg. unfold on_socket at 1. rewrite Hs.
  rewrite (get_msg_int_frame n part [] c Hn Hrx).
  cbn [Dispatcher.as_int]. unfold on_socket at 1.
  cbn [socket set_socket]. unfold size_of_double.
  destruct part as [|p0 part'].
  - cbn [pending].
    rewrite recv_chunk_spins_when_closed by first [reflexivity | exact Hshort].
    reflexivity.
  - cbn [pending]. cbn [recv_chunk]. change (len (@nil byte)) with 0.
    assert (Hp : 0 < len (p0 :: part')) by (apply len_pos; discriminate).
    settle. unfold bind, recv.
    rewrite Z.sub_0_r, Z.min_id. rewrite eqb_false by lia.
    cbn [rx set_rx recv_events].
    assert (Hall : (List.length (p0 :: part') <= Z.to_nat (8 * n))%nat)
      by (unfold len in *; lia).
    rewrite firstn_all2 by exact Hall. rewrite skipn_all2 by exact Hall.
    cbn [app].
    rewrite recv_chunk_spins_when_closed by first [reflexivity | exact Hshort].
    reflexivity.
Qed.

(** X13.  A reset ends the receiver without the flag being cleared.  A
    connection reset met at the start of a turn makes
    [read_server_scans] fall off its end: unlike the timeout and the
    normal end, this path leaves [new_data] as it was, so a consumer
    polling [get_status] may go on seeing the last block as new. *)
Theorem receiver_reset_leaves_new_data (fuel : nat) (r : list event)
    (m : DaqSocketManager) (c : connection) :
  socket m = Some c -> stop_event m = true -> rx c = Reset :: r ->
  read_server_scans (S fuel) m
  = Some (Fall, set_socket (Some (set_rx c r)) m).
Proof.
  intros Hs Hflag Hrx. unfold read_server_scans. cbn [scan_loop].
  rewrite Hflag. unfold scan_once, bind, get_msg, on_socket. rewrite Hs.
  unfold Codec.get_msg, bind, recv. change (sizeof_c_uint =? 0) with false.
  cbv iota. rewrite Hrx. cbn [recv_events]. reflexivity.
Qed.

(** X14.  [start_server] is all or nothing on the object.  Either it
    returns ['running'] with [running], [thread] and the stop flag all
    set, or it returns something else (['error'], or an exception gets
    out) and the object is as before but for what went through its
    socket: a start that fails half-way leaves no flag behind. *)
Theorem start_server_all_or_nothing (m : DaqSocketManager) :
  (fst (start_server m) = Return (PStr (str_of "running"))
   /\ running (snd (start_server m)) = true
   /\ thread (snd (start_server m)) = true
   /\ stop_event (snd (start_server m)) = true
   /\ data_list (snd (start_server m)) = data_list m
   /\ new_data (snd (start_server m)) = new_data m)
  \/ (fst (start_server m) <> Return (PStr (str_of "running"))
      /\ socket_only m (snd (start_server m))).
Proof.
  unfold start_server. cbv zeta. unfold bind.
  assert (Herr : forall e m',
    socket_only m m' ->
    fst (match e with
         | TimeoutError | ConnectionResetError =>
             (Return (PStr (str_of "error")), m')
         | _ => (Throw e, m')
         end) <> Return (PStr (str_of "running"))
    /\ socket_only m (snd (match e with
         | TimeoutError | ConnectionResetError =>
             (Return (PStr (str_of "error")), m')
         | _ => (Throw e, m')
         end))).
  { intros e m' Hm'. destruct e; cbn [fst snd]; (split; [discriminate | exact Hm']). }
  destruct (send_msg (PStr (str_of "start")) m) as [[z1|e1] m1] eqn:E1;
    apply on_socket_frame in E1; [|right; now apply Herr].
  destruct (send_msg (PList (channels m)) m1) as [[z2|e2] m2] eqn:E2;
    apply on_socket_frame in E2;
    pose proof (socket_only_trans _ _ _ E1 E2) as H2; [|right; now apply Herr].
  destruct (send_msg (PList (gains m)) m2) as [[z3|e3] m3] eqn:E3;
    apply on_socket_frame in E3;
    pose proof (socket_only_trans _ _ _ H2 E3) as H3; [|right; now apply Herr].
  destruct (send_msg (PInt (rate m)) m3) as [[z4|e4] m4] eqn:E4;
    apply on_socket_frame in E4;
    pose proof (socket_only_trans _ _ _ H3 E4) as H4; [|right; now apply Herr].
  destruct (send_msg (PInt (samples_to_display m)) m4) as [[z5|e5] m5] eqn:E5;
    apply on_socket_frame in E5;
    pose proof (socket_only_trans _ _ _ H4 E5) as H5; [|right; now apply Herr].
  left. unfold update. cbn [fst snd].
  unfold socket_only in H5. rewrite H5.
  repeat split; reflexivity.
Qed.

End WithLibraries.

(** Two samples whose sixteen bytes arrive as five and eleven. *)
Lemma scan_once_reassembles_witness :
  scan_once (H := Bench.int_list_json) 2
    (Fixtures.receiver
       [Seg (le_bytes 4 2);
        Seg (firstn 5 (pack_doubles [Fixtures.one; Fixtures.two]));
        Seg (skipn 5 (pack_doubles [Fixtures.one; Fixtures.two]))])
  = (Ok (Some tt),
     set_new_data true
       (set_data_list [Fixtures.one; Fixtures.two] (Fixtures.receiver []))).
Proof.
  apply (scan_once_reassembles (H := Bench.int_list_json) 2
           [Fixtures.one; Fixtures.two]
           [firstn 5 (pack_doubles [Fixtures.one; Fixtures.two]);
            skipn 5 (pack_doubles [Fixtures.one; Fixtures.two])]
           []
           (Fixtures.receiver
              [Seg (le_bytes 4 2);
               Seg (firstn 5 (pack_doubles [Fixtures.one; Fixtures.two]));
               Seg (skipn 5 (pack_doubles [Fixtures.one; Fixtures.two]))])
           (incoming
              [Seg (le_bytes 4 2);
               Seg (firstn 5 (pack_doubles [Fixtures.one; Fixtures.two]));
               Seg (skipn 5 (pack_doubles [Fixtures.one; Fixtures.two]))])).
  - reflexivity.
  - split; [discriminate|]. split; [reflexivity|].
    repeat constructor; vm_compute; congruence.
  - repeat constructor; discriminate.
  - reflexivity.
  - reflexivity.
  - cbn [List.length]. lia.
Defined.

(** A block of one sample, then a block of two, in one segment. *)
Lemma receiver_keeps_last_block_witness :
  read_server_scans (H := Bench.int_list_json) (2 + 1)
    (Fixtures.receiver
       [Seg (data_frames [[Fixtures.one]; [Fixtures.two; Fixtures.one]] ++ []);
        Timeout])
  = read_server_scans (H := Bench.int_list_json) 1
      (set_new_data true
         (set_data_list [Fixtures.two; Fixtures.one]
            (Fixtures.receiver [Timeout]))).
Proof.
  apply (receiver_keeps_last_block (H := Bench.int_list_json)
           [[Fixtures.one]; [Fixtures.two; Fixtures.one]] [] [Timeout] 1
           (Fixtures.receiver
              [Seg (data_frames [[Fixtures.one]; [Fixtures.two; Fixtures.one]]
                    ++ []);
               Timeout])
           (incoming
              [Seg (data_frames [[Fixtures.one]; [Fixtures.two; Fixtures.one]]
                    ++ []);
               Timeout])).
  - reflexivity.
  - reflexivity.
  - discriminate.
  - repeat constructor; try discriminate; vm_compute; congruence.
  - reflexivity.
Defined.

(** A count of two samples followed by three bytes, then the end. *)
Lemma receiver_never_ends_on_short_payload_witness :
  read_server_scans (H := Bench.int_list_json) 1000
    (Fixtures.receiver [Seg (le_bytes 4 2 ++ [x01; x02; x03])])
  = None.
Proof.
  apply (receiver_never_ends_on_short_payload (H := Bench.int_list_json) 1000 2
           [x01; x02; x03]
           (Fixtures.receiver [Seg (le_bytes 4 2 ++ [x01; x02; x03])])
           (incoming [Seg (le_bytes 4 2 ++ [x01; x02; x03])])).
  - reflexivity.
  - reflexivity.
  - lia.
  - reflexivity.
  - reflexivity.
Defined.

Lemma receiver_reset_leaves_new_data_witness :
  read_server_scans (H := Bench.int_list_json) 1
    (set_new_data true (Fixtures.receiver [Reset]))
  = Some (Fall, set_new_data true (Fixtures.receiver [])).
Proof.
  apply (receiver_reset_leaves_new_data (H := Bench.int_list_json) 0 []
           (set_new_data true (Fixtures.receiver [Reset])) (incoming [Reset]));
    reflexivity.
Defined.

End ManagerMore.

(** ** The command handler, command by command *)

Module DispatcherMore.
Import Dispatcher CodecFacts DispatcherFacts.

Lemma pending_cons (l : list byte) (r : list event) :
  l <> [] -> pending l r = Seg l :: r.
Proof. destruct l; [congruence | reflexivity]. Qed.

Lemma pystr_eqb_eq (a b : pystr) : pystr_eqb a b = true <-> a = b.
Proof.
  revert b. induction a as [|x a IH]; intros [|y b]; cbn [pystr_eqb];
    try (split; [discriminate | congruence]); [tauto|].
  rewrite andb_true_iff, Z.eqb_eq, IH. split.
  - now intros [-> ->].
  - intros [= -> ->]. now split.
Qed.

Lemma pystr_eqb_neq (a b : pystr) : a <> b -> pystr_eqb a b = false.
Proof.
  intros Hne. destruct (pystr_eqb a b) eqn:E; [|reflexivity].
  now apply pystr_eqb_eq in E.
Qed.

Section WithLibraries.
Context `{Json} `{Hardware}.

(** A turn of the loop on a command frame that has arrived whole: the
    frame is read, decoded and lowered, the command dispatched, and the
    two [except] clauses applied to what comes of it. *)
Lemma iteration_command (boards : Boards.BOARDS) (w : world)
    (payload rest : list byte) (text : pystr) (r : list event) :
  payload <> [] -> len payload < 2 ^ 32 ->
  Utf8.decode payload = Ok text ->
  rx (conn w) = Seg (le_bytes 4 (len payload) ++ payload ++ rest) :: r ->
  iteration boards w
  = after_handlers
      (dispatch boards (lower text)
         (mkWorld (set_rx (conn w) (pending rest r)) (sess w) (trace w))).
Proof.
  intros Hne Hlen Hdec Hrx.
  unfold iteration, try_except, bind, on_conn.
  rewrite (get_msg_str_frame payload rest r (conn w) Hne Hlen Hrx).
  destruct payload as [|b0 payload']; [congruence|].
  unfold lift. rewrite Hdec.
  destruct (dispatch boards (lower text) _) as [[ctl|e] w1];
    [reflexivity | destruct e; reflexivity].
Qed.

(** A command that is none of the five is ignored.  Its frame is
    read and nothing else happens: nothing is sent back, the session and
    the threads are as before, and the loop goes on. *)
Lemma iteration_unknown_command (boards : Boards.BOARDS) (w : world)
    (payload rest : list byte) (text : pystr) (r : list event) :
  payload <> [] -> len payload < 2 ^ 32 ->
  Utf8.decode payload = Ok text ->
  ~ In (lower text) commands ->
  rx (conn w) = Seg (le_bytes 4 (len payload) ++ payload ++ rest) :: r ->
  iteration boards w
  = (Ok Continue,
     mkWorld (set_rx (conn w) (pending rest r)) (sess w) (trace w)).
Proof.
  intros Hne Hlen Hdec Hnot Hrx.
  rewrite (iteration_command boards w payload rest text r Hne Hlen Hdec Hrx).
  unfold dispatch. unfold commands in Hnot. cbn [In] in Hnot.
  rewrite !pystr_eqb_neq by (intros E; apply Hnot; rewrite E; tauto).
  reflexivity.
Qed.

(** X15.  What the prefix read finds decides the turn.  A connection
    found closed (a peer that went away without saying [exit]) gives no
    bytes, [struct.unpack] raises, and neither [except] clause matches:
    the handler thread ends by [struct.error] where it stands, the
    [if not data: break] never being reached and [conn.close()] never
    called.  A read that times out costs that turn and nothing else.  A
    reset leaves the loop, and the connection is closed.  In all three
    cases the session is as it was, and a running forwarder is neither
    stopped nor joined. *)
Theorem handler_at_prefix_read (fuel : nat) (boards : Boards.BOARDS)
    (r : list event) (sent_so_far : list byte) (faults : list (option exn))
    (cl : bool) (s : session) (t : list action) :
  leave (command_loop (S fuel) boards
           (mkWorld (mkConn [] sent_so_far faults cl) s t))
  = (Crashed StructError, mkWorld (mkConn [] sent_so_far faults cl) s t)
  /\ command_loop (S fuel) boards
       (mkWorld (mkConn (Timeout :: r) sent_so_far faults cl) s t)
     = command_loop fuel boards (mkWorld (mkConn r sent_so_far faults cl) s t)
  /\ leave (command_loop (S fuel) boards
              (mkWorld (mkConn (Reset :: r) sent_so_far faults cl) s t))
     = (ConnectionClosed, mkWorld (mkConn r sent_so_far faults true) s t).
Proof. repeat split. Qed.

(** *** [open] *)

Lemma dispatch_open_unfold (boards : Boards.BOARDS) (w : world) :
  dispatch boards (str_of "open") w
  = bind
      (try_except
         (bind get_sess (fun s =>
            if negb (board_selected s) then
              bind (on_conn (get_msg "int")) (fun n =>
              bind (set_sess (set_board_number (as_int n))) (fun _ =>
              bind (lift (Boards.read_dev_desc boards (as_int n))) (fun d =>
              bind (set_sess (set_board_desc (Some d))) (fun _ =>
              bind (on_conn (send_msg (PStr (unique_id d)))) (fun _ =>
              bind (lift (ul ignore_instacal)) (fun _ =>
              bind (lift (ul (create_daq_device (as_int n) d))) (fun _ =>
              set_sess (set_board_selected true))))))))
            else ret tt))
         (fun _ => Some (ret tt)))
      (fun _ => ret Continue) w.
Proof. reflexivity. Qed.

(** The [open] branch when everything succeeds. *)
Lemma iteration_open (boards : Boards.BOARDS) (w : world)
    (payload rest : list byte) (text : pystr) (r : list event)
    (n : Z) (d : descriptor) (id_bytes : list byte) :
  payload <> [] -> len payload < 2 ^ 32 ->
  Utf8.decode payload = Ok text -> lower text = str_of "open" ->
  rx (conn w)
  = Seg (le_bytes 4 (len payload) ++ payload ++ le_bytes 4 n ++ rest) :: r ->
  0 <= n < 2 ^ 32 ->
  board_selected (sess w) = false ->
  Boards.read_dev_desc boards n = Ok d ->
  len (unique_id d) < 2 ^ 32 -> Utf8.encode (unique_id d) = Ok id_bytes ->
  tx_faults (conn w) = [] ->
  ul ignore_instacal = Ok tt -> ul (create_daq_device n d) = Ok tt ->
  iteration boards w
  = (Ok Continue,
     mkWorld
       (sent (set_rx (conn w) (pending rest r))
          (le_bytes 4 (len (unique_id d)) ++ id_bytes))
       (set_board_selected true
          (set_board_desc (Some d) (set_board_number n (sess w))))
       (trace w)).
Proof.
  intros Hne Hlen Hdec Hlow Hrx Hn Hsel Hdesc Hidl Hid Hf Hig Hcr.
  rewrite (iteration_command boards w payload (le_bytes 4 n ++ rest) text r
             Hne Hlen Hdec Hrx).
  rewrite Hlow, dispatch_open_unfold.
  unfold try_except, bind, get_sess, on_conn, set_sess, lift.
  cbn [sess conn trace]. rewrite Hsel. cbn [negb].
  rewrite (get_msg_int_frame n rest r _ Hn) by reflexivity.
  cbn [as_int sess conn trace]. rewrite Hdesc.
  rewrite (send_str_ok (unique_id d) id_bytes) by first [assumption | exact Hf].
  rewrite Hig, Hcr. reflexivity.
Qed.

(** X16.  [open] on a free handler answers with the serial number, then
    creates the device.  The board number is read from the next frame,
    the descriptor looked up and its [unique_id] sent back as a str
    frame; only then is the device created.  If the creation succeeds
    the board is marked selected.  If it raises, the exception is
    swallowed by the [except Exception] of the branch: the client has
    its serial number all the same, but the board is not selected (a
    later [start] will be ignored), while [board_number] and
    [board_desc] keep the values of the failed attempt.  No thread is
    touched either way. *)
Theorem open_answers_then_creates (boards : Boards.BOARDS) (w : world)
    (payload rest : list byte) (text : pystr) (r : list event)
    (n : Z) (d : descriptor) (id_bytes : list byte) (created : result unit) :
  payload <> [] -> len payload < 2 ^ 32 ->
  Utf8.decode payload = Ok text -> lower text = str_of "open" ->
  rx (conn w)
  = Seg (le_bytes 4 (len payload) ++ payload ++ le_bytes 4 n ++ rest) :: r ->
  0 <= n < 2 ^ 32 ->
  board_selected (sess w) = false ->
  Boards.read_dev_desc boards n = Ok d ->
  len (unique_id d) < 2 ^ 32 -> Utf8.encode (unique_id d) = Ok id_bytes ->
  tx_faults (conn w) = [] ->
  ul ignore_instacal = Ok tt -> ul (create_daq_device n d) = created ->
  iteration boards w
  = (Ok Continue,
     mkWorld
       (sent (set_rx (conn w) (pending rest r))
          (le_bytes 4 (len (unique_id d)) ++ id_bytes))
       (match created with
        | Ok _ =>
            set_board_selected true
              (set_board_desc (Some d) (set_board_number n (sess w)))
        | Raise _ => set_board_desc (Some d) (set_board_number n (sess w))
        end)
       (trace w)).
Proof.
  intros Hne Hlen Hdec Hlow Hrx Hn Hsel Hdesc Hidl Hid Hf Hig Hcr.
  rewrite (iteration_command boards w payload (le_bytes 4 n ++ rest) text r
             Hne Hlen Hdec Hrx).
  rewrite Hlow, dispatch_open_unfold.
  unfold try_except, bind, get_sess, on_conn, set_sess, lift.
  cbn [sess conn trace]. rewrite Hsel. cbn [negb].
  rewrite (get_msg_int_frame n rest r _ Hn) by reflexivity.
  cbn [as_int sess conn trace]. rewrite Hdesc.
  rewrite (send_str_ok (unique_id d) id_bytes) by first [assumption | exact Hf].
  rewrite Hig, Hcr. destruct created as [[]|e]; reflexivity.
Qed.

(** X17.  A board number that is no index of the inventory is swallowed
    without an answer.  The lookup raises [IndexError] inside the [try]
    of the [open] branch: nothing is sent (the client is left waiting
    for a serial number), the board is not selected, and [board_number]
    keeps the refused number. *)
Theorem open_bad_number_is_silent (boards : Boards.BOARDS) (w : world)
    (payload rest : list byte) (text : pystr) (r : list event) (n : Z) :
  payload <> [] -> len payload < 2 ^ 32 ->
  Utf8.decode payload = Ok text -> lower text = str_of "open" ->
  rx (conn w)
  = Seg (le_bytes 4 (len payload) ++ payload ++ le_bytes 4 n ++ rest) :: r ->
  len (Boards.ul_list boards) <= n < 2 ^ 32 ->
  board_selected (sess w) = false ->
  iteration boards w
  = (Ok Continue,
     mkWorld (set_rx (conn w) (pending rest r))
       (set_board_number n (sess w)) (trace w)).
Proof.
  intros Hne Hlen Hdec Hlow Hrx Hn Hsel.
  assert (Hn0 : 0 <= len (Boards.ul_list boards)) by (unfold len; lia).
  rewrite (iteration_command boards w payload (le_bytes 4 n ++ rest) text r
             Hne Hlen Hdec Hrx).
  rewrite Hlow, dispatch_open_unfold.
  unfold try_except, bind, get_sess, on_conn, set_sess, lift.
  cbn [sess conn trace]. rewrite Hsel. cbn [negb].
  rewrite (get_msg_int_frame n rest r _) by first [lia | reflexivity].
  cbn [as_int sess conn trace].
  unfold Boards.read_dev_desc. cbv zeta. settle.
  rewrite andb_false_r. reflexivity.
Qed.

(** What the [open] branch can and cannot change. *)
Lemma open_branch_contained (boards : Boards.BOARDS) (w : world) :
  fst (dispatch boards (str_of "open") w) = Ok Continue
  /\ trace (snd (dispatch boards (str_of "open") w)) = trace w
  /\ stop_event (sess (snd (dispatch boards (str_of "open") w)))
     = stop_event (sess w)
  /\ thread (sess (snd (dispatch boards (str_of "open") w)))
     = thread (sess w)
  /\ (board_selected (sess w) = true ->
      dispatch boards (str_of "open") w = (Ok Continue, w)).
Proof.
  rewrite dispatch_open_unfold.
  unfold try_except, bind, get_sess, on_conn, set_sess, lift, ret.
  destruct (board_selected (sess w)) eqn:Esel; cbn [negb].
  - now destruct w.
  - destruct (get_msg "int" (conn w)) as [[n|e] c1]; cbn [sess conn trace];
      [|repeat split; discriminate].
    destruct (Boards.read_dev_desc boards (as_int n)) as [d|e];
      [|repeat split; discriminate].
    destruct (send_msg (PStr (unique_id d)) c1) as [[z|e] c2];
      cbn [sess conn trace]; [|repeat split; discriminate].
    destruct (ul ignore_instacal) as [u|e]; [|repeat split; discriminate].
    destruct (ul (create_daq_device (as_int n) d)) as [u'|e];
      repeat split; discriminate.
Qed.

(** X18.  [open] never raises and never touches a thread; on a handler
    that has a board it does nothing at all.  Whatever goes wrong
    inside the branch is caught there, so the loop always goes on; the
    stop flag, the thread and the record of threads are as before; and
    when a board is already selected not even the board number the
    client sends next is read: it stays on the socket, to be taken for
    the prefix of the next command. *)
Theorem open_is_contained (boards : Boards.BOARDS) (w : world) :
  fst (dispatch boards (str_of "open") w) = Ok Continue
  /\ trace (snd (dispatch boards (str_of "open") w)) = trace w
  /\ stop_event (sess (snd (dispatch boards (str_of "open") w)))
     = stop_event (sess w)
  /\ thread (sess (snd (dispatch boards (str_of "open") w)))
     = thread (sess w)
  /\ (board_selected (sess w) = true ->
      dispatch boards (str_of "open") w = (Ok Continue, w)).
Proof.
  rewrite dispatch_open_unfold.
  unfold try_except, bind, get_sess, on_conn, set_sess, lift, ret.
  destruct (board_selected (sess w)) eqn:Esel; cbn [negb].
  - now destruct w.
  - destruct (get_msg "int" (conn w)) as [[n|e] c1]; cbn [sess conn trace];
      [|repeat split; discriminate].
    destruct (Boards.read_dev_desc boards (as_int n)) as [d|e];
      [|repeat split; discriminate].
    destruct (send_msg (PStr (unique_id d)) c1) as [[z|e] c2];
      cbn [sess conn trace]; [|repeat split; discriminate].
    destruct (ul ignore_instacal) as [u|e]; [|repeat split; discriminate].
    destruct (ul (create_daq_device (as_int n) d)) as [u'|e];
      repeat split; discriminate.
Qed.

(** *** [start] and [stop] *)

Lemma dispatch_start_unfold (boards : Boards.BOARDS) (w : world) :
  dispatch boards (str_of "start") w
  = bind get_sess (fun s =>
      if negb (board_selected s) then ret Continue
      else
        bind (on_conn (get_msg "list")) (fun input_channels =>
        bind (on_conn (get_msg "list")) (fun input_ranges =>
        bind (on_conn (get_msg "int")) (fun sample_rate =>
        bind (on_conn (get_msg "int")) (fun samples_to_display =>
        let configuration :=
          Forwarder.mkConfig (board_number s) (board_desc s) input_channels
            input_ranges (as_int samples_to_display) (as_int sample_rate) in
        bind (set_sess (set_stop_event true)) (fun _ =>
        bind (set_sess (set_thread (Some configuration))) (fun _ =>
        bind (emit (Started configuration)) (fun _ =>
        ret Continue)))))))) w.
Proof. reflexivity. Qed.

Lemma dispatch_stop_unfold (boards : Boards.BOARDS) (w : world) :
  dispatch boards (str_of "stop") w
  = bind get_sess (fun s =>
      bind (if stop_event s then
              bind (set_sess (set_stop_event false)) (fun _ =>
              bind (match thread s with
                    | Some configuration => emit (Joined configuration)
                    | None => throw AttributeError
                    end) (fun _ =>
              set_sess (set_thread None)))
            else lift (ul (release_daq_device (board_number s)))) (fun _ =>
      bind (set_sess (set_board_selected false)) (fun _ =>
      ret Continue))) w.
Proof. reflexivity. Qed.

(** The [start] branch with a board selected. *)
Lemma iteration_start (boards : Boards.BOARDS) (w : world)
    (payload bc bg rest : list byte) (text tc tg : pystr) (vc vg : pyval)
    (rate smp : Z) (r : list event) :
  payload <> [] -> len payload < 2 ^ 32 ->
  Utf8.decode payload = Ok text -> lower text = str_of "start" ->
  bc <> [] -> len bc < 2 ^ 32 -> Utf8.decode bc = Ok tc ->
  json_loads tc = Ok vc ->
  bg <> [] -> len bg < 2 ^ 32 -> Utf8.decode bg = Ok tg ->
  json_loads tg = Ok vg ->
  0 <= rate < 2 ^ 32 -> 0 <= smp < 2 ^ 32 ->
  rx (conn w)
  = Seg (le_bytes 4 (len payload) ++ payload
         ++ le_bytes 4 (len bc) ++ bc ++ le_bytes 4 (len bg) ++ bg
         ++ le_bytes 4 rate ++ le_bytes 4 smp ++ rest) :: r ->
  board_selected (sess w) = true ->
  let configuration :=
    Forwarder.mkConfig (board_number (sess w)) (board_desc (sess w))
      vc vg smp rate in
  iteration boards w
  = (Ok Continue,
     mkWorld (set_rx (conn w) (pending rest r))
       (set_thread (Some configuration) (set_stop_event true (sess w)))
       (trace w ++ [Started configuration])).
Proof.
  intros Hne Hlen Hdec Hlow Hc Hcl Hcd Hcj Hg Hgl Hgd Hgj Hrate Hsmp Hrx Hsel
         configuration.
  rewrite (iteration_command boards w payload _ text r Hne Hlen Hdec Hrx).
  rewrite Hlow, dispatch_start_unfold.
  unfold bind, get_sess, on_conn, set_sess, emit, ret.
  cbn [sess conn trace]. rewrite Hsel. cbn [negb].
  rewrite (get_msg_list_frame bc
             (le_bytes 4 (len bg) ++ bg ++ le_bytes 4 rate
              ++ le_bytes 4 smp ++ rest) tc vc r _ Hc Hcl Hcd Hcj)
    by reflexivity.
  cbn [sess conn trace].
  rewrite (get_msg_list_frame bg (le_bytes 4 rate ++ le_bytes 4 smp ++ rest)
             tg vg r _ Hg Hgl Hgd Hgj) by reflexivity.
  cbn [sess conn trace].
  rewrite (get_msg_int_frame rate (le_bytes 4 smp ++ rest) r _ Hrate)
    by reflexivity.
  cbn [sess conn trace].
  rewrite (get_msg_int_frame smp rest r _ Hsmp) by reflexivity.
  reflexivity.
Qed.

(** X19.  [start] with a board selected reads its four arguments and
    starts a forwarder.  The two lists and the two integers are taken
    from the frames that follow the command; the configuration handed to
    the thread carries them together with the board number and the
    descriptor of the session; the stop flag is set and the thread
    started.  Nothing is sent back.  Whether a forwarder is already
    running is not looked at: its thread object is overwritten, not
    joined. *)
Theorem start_spawns_forwarder (boards : Boards.BOARDS) (w : world)
    (payload bc bg rest : list byte) (text tc tg : pystr) (vc vg : pyval)
    (rate smp : Z) (r : list event) :
  payload <> [] -> len payload < 2 ^ 32 ->
  Utf8.decode payload = Ok text -> lower text = str_of "start" ->
  bc <> [] -> len bc < 2 ^ 32 -> Utf8.decode bc = Ok tc ->
  json_loads tc = Ok vc ->
  bg <> [] -> len bg < 2 ^ 32 -> Utf8.decode bg = Ok tg ->
  json_loads tg = Ok vg ->
  0 <= rate < 2 ^ 32 -> 0 <= smp < 2 ^ 32 ->
  rx (conn w)
  = Seg (le_bytes 4 (len payload) ++ payload
         ++ le_bytes 4 (len bc) ++ bc ++ le_bytes 4 (len bg) ++ bg
         ++ le_bytes 4 rate ++ le_bytes 4 smp ++ rest) :: r ->
  board_selected (sess w) = true ->
  let configuration :=
    Forwarder.mkConfig (board_number (sess w)) (board_desc (sess w))
      vc vg smp rate in
  iteration boards w
  = (Ok Continue,
     mkWorld (set_rx (conn w) (pending rest r))
       (set_thread (Some configuration) (set_stop_event true (sess w)))
       (trace w ++ [Started configuration])).
Proof.
  intros Hne Hlen Hdec Hlow Hc Hcl Hcd Hcj Hg Hgl Hgd Hgj Hrate Hsmp Hrx Hsel
         configuration.
  rewrite (iteration_command boards w payload _ text r Hne Hlen Hdec Hrx).
  rewrite Hlow, dispatch_start_unfold.
  unfold bind, get_sess, on_conn, set_sess, emit, ret.
  cbn [sess conn trace]. rewrite Hsel. cbn [negb].
  rewrite (get_msg_list_frame bc
             (le_bytes 4 (len bg) ++ bg ++ le_bytes 4 rate
              ++ le_bytes 4 smp ++ rest) tc vc r _ Hc Hcl Hcd Hcj)
    by reflexivity.
  cbn [sess conn trace].
  rewrite (get_msg_list_frame bg (le_bytes 4 rate ++ le_bytes 4 smp ++ rest)
             tg vg r _ Hg Hgl Hgd Hgj) by reflexivity.
  cbn [sess conn trace].
  rewrite (get_msg_int_frame rate (le_bytes 4 smp ++ rest) r _ Hrate)
    by reflexivity.
  cbn [sess conn trace].
  rewrite (get_msg_int_frame smp rest r _ Hsmp) by reflexivity.
  reflexivity.
Qed.

(** X20.  [stop] while streaming clears the flag and joins the
    forwarder.  With the stop flag set and a thread at hand, the flag is
    cleared, the thread joined and forgotten, and the board deselected;
    the handler itself makes no driver call and sends nothing. *)
Theorem stop_joins_forwarder (boards : Boards.BOARDS) (w : world)
    (payload rest : list byte) (text : pystr) (r : list event)
    (configuration : Forwarder.Config) :
  payload <> [] -> len payload < 2 ^ 32 ->
  Utf8.decode payload = Ok text -> lower text = str_of "stop" ->
  rx (conn w) = Seg (le_bytes 4 (len payload) ++ payload ++ rest) :: r ->
  stop_event (sess w) = true -> thread (sess w) = Some configuration ->
  iteration boards w
  = (Ok Continue,
     mkWorld (set_rx (conn w) (pending rest r))
       (set_board_selected false
          (set_thread None (set_stop_event false (sess w))))
       (trace w ++ [Joined configuration])).
Proof.
  intros Hne Hlen Hdec Hlow Hrx Hflag Hthread.
  rewrite (iteration_command boards w payload rest text r Hne Hlen Hdec Hrx).
  rewrite Hlow, dispatch_stop_unfold.
  unfold bind, get_sess, set_sess, emit, ret.
  cbn [sess conn trace]. rewrite Hflag, Hthread. reflexivity.
Qed.

(** X21.  [stop] with the flag clear calls the driver, and a driver
    error there ends the handler.  With no forwarder running the branch
    releases the device with the board number of the session (-1 when
    no [open] was ever received).  If that call raises anything but a
    timeout or a reset, no [except] clause of the loop matches: the
    handler thread ends with the board still marked as it was and the
    connection left open. *)
Theorem stop_without_forwarder_may_crash (fuel : nat)
    (boards : Boards.BOARDS) (w : world)
    (payload rest : list byte) (text : pystr) (r : list event) (e : exn) :
  payload <> [] -> len payload < 2 ^ 32 ->
  Utf8.decode payload = Ok text -> lower text = str_of "stop" ->
  rx (conn w) = Seg (le_bytes 4 (len payload) ++ payload ++ rest) :: r ->
  stop_event (sess w) = false ->
  ul (release_daq_device (board_number (sess w))) = Raise e ->
  e <> TimeoutError -> e <> ConnectionResetError ->
  leave (command_loop (S fuel) boards w)
  = (Crashed e,
     mkWorld (set_rx (conn w) (pending rest r)) (sess w) (trace w)).
Proof.
  intros Hne Hlen Hdec Hlow Hrx Hflag Hul Ht Hr.
  cbn [command_loop]. unfold bind at 1.
  rewrite (iteration_command boards w payload rest text r Hne Hlen Hdec Hrx).
  rewrite Hlow, dispatch_stop_unfold.
  unfold bind, get_sess, set_sess, lift.
  cbn [sess conn trace]. rewrite Hflag, Hul.
  destruct e; try congruence; reflexivity.
Qed.

(** *** Invariants of the whole handler *)

(** Any property of the session that every command keeps is kept by the
    handler. *)
Lemma iteration_rule (P : session -> Prop) (boards : Boards.BOARDS) :
  (forall message, triple P (dispatch boards message) P) ->
  triple P (iteration boards) P.
Proof.
  intros Hd. unfold iteration.
  eapply (triple_try_except _ P); [| auto |].
  - eapply (triple_bind _ P); [apply triple_on_conn | auto |].
    intros a. destruct a as [| | | | |b| |]; try apply triple_throw.
    destruct b as [|b0 b']; [apply triple_ret|].
    eapply (triple_bind _ P); [apply triple_lift | auto |].
    intros text. apply Hd.
  - intros e k Hk. destruct e; try discriminate; injection Hk as <-;
      apply triple_ret.
Qed.

Lemma command_loop_rule (P : session -> Prop) (fuel : nat)
    (boards : Boards.BOARDS) :
  (forall message, triple P (dispatch boards message) P) ->
  triple P (command_loop fuel boards) P.
Proof.
  intros Hd. induction fuel as [|k IH]; cbn [command_loop];
    [apply triple_ret|].
  eapply (triple_bind _ P); [now apply iteration_rule | auto |].
  intros [|]; [exact IH | apply triple_ret].
Qed.

Lemma handle_client_rule (P : session -> Prop) (fuel : nat) (c : connection) :
  P initial_session ->
  (forall boards message, triple P (dispatch boards message) P) ->
  P (sess (snd (handle_client fuel c))).
Proof.
  intros Hinit Hd. unfold handle_client.
  destruct Boards._get_boards as [boards|e0]; [|exact Hinit].
  destruct (command_loop fuel boards (mkWorld c initial_session []))
    as [[[u|]|e1] w1] eqn:E;
    pose proof (command_loop_rule P fuel boards (Hd boards)
                  (mkWorld c initial_session []) _ _ Hinit E) as Hw;
    exact Hw.
Qed.

Lemma dispatch_keeps_thread_rule (boards : Boards.BOARDS) (message : pystr) :
  triple thread_follows_flag (dispatch boards message) thread_follows_flag.
Proof.
  intros w r w' HP. unfold dispatch.
  destruct (pystr_eqb message (str_of "list")).
  { unfold bind, on_conn, ret.
    destruct (send_msg _ (conn w)) as [[z|e] c1]; intros [= _ <-]; exact HP. }
  destruct (pystr_eqb message (str_of "open")).
  { intros Hrun.
    pose proof (open_branch_contained boards w) as (_ & _ & Hflag & Hthr & _).
    rewrite dispatch_open_unfold in Hflag, Hthr.
    change (bind _ _ w) with
      (bind
         (try_except
            (bind get_sess (fun s =>
               if negb (board_selected s) then
                 bind (on_conn (get_msg "int")) (fun n =>
                 bind (set_sess (set_board_number (as_int n))) (fun _ =>
                 bind (lift (Boards.read_dev_desc boards (as_int n))) (fun d =>
                 bind (set_sess (set_board_desc (Some d))) (fun _ =>
                 bind (on_conn (send_msg (PStr (unique_id d)))) (fun _ =>
                 bind (lift (ul ignore_instacal)) (fun _ =>
                 bind (lift (ul (create_daq_device (as_int n) d))) (fun _ =>
                 set_sess (set_board_selected true))))))))
               else ret tt))
            (fun _ => Some (ret tt)))
         (fun _ => ret Continue) w) in Hrun.
    rewrite Hrun in Hflag, Hthr. cbn [snd] in Hflag, Hthr.
    unfold thread_follows_flag in *. now rewrite Hflag, Hthr. }
  destruct (pystr_eqb message (str_of "start")).
  { unfold bind, get_sess, on_conn, set_sess, emit, ret.
    destruct (board_selected (sess w)); cbn [negb];
      [|intros [= _ <-]; exact HP].
    destruct (get_msg "list" (conn w)) as [[v1|e] c1]; cbn [sess conn trace];
      [|intros [= _ <-]; exact HP].
    destruct (get_msg "list" c1) as [[v2|e] c2]; cbn [sess conn trace];
      [|intros [= _ <-]; exact HP].
    destruct (get_msg "int" c2) as [[v3|e] c3]; cbn [sess conn trace];
      [|intros [= _ <-]; exact HP].
    destruct (get_msg "int" c3) as [[v4|e] c4]; cbn [sess conn trace];
      [|intros [= _ <-]; exact HP].
    intros [= _ <-]. unfold thread_follows_flag. cbn. split; congruence. }
  destruct (pystr_eqb message (str_of "stop")).
  { unfold bind, get_sess, set_sess, emit, throw, lift, ret.
    cbn [sess conn trace].
    destruct (stop_event (sess w)) eqn:Eflag.
    - destruct (thread (sess w)) as [cfg|] eqn:Ethr.
      + intros [= _ <-]. unfold thread_follows_flag. cbn.
        split; congruence.
      + exfalso. unfold thread_follows_flag in HP.
        apply HP in Eflag. congruence.
    - destruct (ul _) as [u|e]; intros [= _ <-]; [|exact HP].
      unfold thread_follows_flag in *. cbn. exact HP. }
  destruct (pystr_eqb message (str_of "exit"));
    intros [= _ <-]; exact HP.
Qed.

(** X22.  The stop flag and the thread object go together.  However the
    handler ends, and after whatever sequence of frames, timeouts and
    failures, its stop flag is set exactly when it holds a forwarder
    thread, and only while a board is selected.  So the [stop] branch
    never finds the flag set without a thread to join. *)
Theorem handler_flag_and_thread_agree (fuel : nat) (c : connection) :
  thread_follows_flag (sess (snd (handle_client fuel c)))
  /\ flag_follows_board (sess (snd (handle_client fuel c))).
Proof.
  split.
  - apply handle_client_rule.
    + unfold thread_follows_flag. cbn.
      split; [discriminate | intros Hn; now elim Hn].
    + apply dispatch_keeps_thread_rule.
  - apply handle_client_rule.
    + intros _. reflexivity.
    + apply dispatch_keeps_flag_rule.
Qed.

(** *** Every turn takes something off the socket *)

Lemma noninc_ret {S A} (mu : S -> nat) (a : A) : noninc mu (ret a).
Proof. intros s. cbn. lia. Qed.

Lemma noninc_throw {S A} (mu : S -> nat) (e : exn) :
  noninc mu (@throw S A e).
Proof. intros s. cbn. lia. Qed.

Lemma noninc_lift {S A} (mu : S -> nat) (x : result A) : noninc mu (lift x).
Proof. intros s. cbn. lia. Qed.

Lemma noninc_bind {S A B} (mu : S -> nat) (m : st S A) (k : A -> st S B) :
  noninc mu m -> (forall a, noninc mu (k a)) -> noninc mu (bind m k).
Proof.
  intros Hm Hk s. unfold bind. specialize (Hm s).
  destruct (m s) as [[a|e] s1]; cbn [snd] in *; [|exact Hm].
  specialize (Hk a s1). lia.
Qed.

Lemma noninc_try_except {S A} (mu : S -> nat) (m : st S A)
    (h : exn -> option (st S A)) :
  noninc mu m -> (forall e k, h e = Some k -> noninc mu k) ->
  noninc mu (try_except m h).
Proof.
  intros Hm Hh s. unfold try_except. specialize (Hm s).
  destruct (m s) as [[a|e] s1]; cbn [snd] in *; [exact Hm|].
  destruct (h e) as [k|] eqn:E; cbn [snd]; [|exact Hm].
  specialize (Hh e k E s1). lia.
Qed.

(** A read takes what it returns out of what is left to arrive, and a
    read that raises takes the event that made it raise. *)
Lemma recv_events_weight (n : nat) (r : list event) :
  match fst (recv_events n r) with
  | Ok b => (weight (snd (recv_events n r)) + List.length b <= weight r)%nat
  | Raise _ => (weight (snd (recv_events n r)) < weight r)%nat
  end.
Proof.
  induction r as [|[b| |] r IH]; cbn [recv_events weight fst snd List.length];
    try lia.
  destruct b as [|b0 b'].
  - destruct (fst (recv_events n r)); cbn [List.length]; lia.
  - cbn [fst snd].
    pose proof (firstn_skipn n (b0 :: b')) as Hsplit.
    apply (f_equal (@List.length byte)) in Hsplit.
    rewrite length_app in Hsplit.
    destruct (skipn n (b0 :: b')) as [|x rest] eqn:E;
      cbn [weight List.length] in *; lia.
Qed.

Lemma noninc_recv (bufsize : Z) : noninc (fun c => weight (rx c)) (recv bufsize).
Proof.
  intros c. unfold recv. destruct (bufsize =? 0); [cbn; lia|].
  pose proof (recv_events_weight (Z.to_nat bufsize) (rx c)) as Hw.
  destruct (recv_events (Z.to_nat bufsize) (rx c)) as [[b|e] r'];
    cbn [fst snd rx set_rx] in *; lia.
Qed.

Lemma noninc_sendall (data : list byte) :
  noninc (fun c => weight (rx c)) (sendall data).
Proof.
  intros c. unfold sendall.
  destruct (tx_faults c) as [|[e|] f]; cbn [snd rx]; lia.
Qed.

Ltac noninc :=
  repeat first
    [ apply noninc_ret | apply noninc_throw | apply noninc_lift
    | apply noninc_recv | apply noninc_sendall
    | apply noninc_bind; [|intros ?]
    | match goal with
      | |- noninc _ (if ?b then _ else _) => destruct b
      | |- noninc _ (match ?x with _ => _ end) => destruct x
      end ].

Lemma noninc_get_msg (typ : string) :
  noninc (fun c => weight (rx c)) (get_msg typ).
Proof. unfold get_msg. noninc. Qed.

Lemma noninc_send_msg (itm : pyval) :
  noninc (fun c => weight (rx c)) (send_msg itm).
Proof. unfold send_msg. destruct itm; noninc. Qed.

Lemma noninc_on_conn {A} (m : io A) :
  noninc (fun c => weight (rx c)) m -> noninc backlog (on_conn m).
Proof.
  intros Hm w. unfold on_conn, backlog. specialize (Hm (conn w)).
  destruct (m (conn w)) as [r c']. exact Hm.
Qed.

Lemma noninc_get_sess : noninc backlog get_sess.
Proof. intros w. exact (Nat.le_refl _). Qed.

Lemma noninc_set_sess (f : session -> session) : noninc backlog (set_sess f).
Proof. intros w. exact (Nat.le_refl _). Qed.

Lemma noninc_emit (a : action) : noninc backlog (emit a).
Proof. intros w. exact (Nat.le_refl _). Qed.

Ltac noninc_h :=
  repeat first
    [ apply noninc_ret | apply noninc_throw | apply noninc_lift
    | apply noninc_get_sess | apply noninc_set_sess | apply noninc_emit
    | apply noninc_on_conn; first [apply noninc_get_msg | apply noninc_send_msg]
    | apply noninc_bind; [|intros ?]
    | apply noninc_try_except; [|intros ? ? [= <-]]
    | match goal with
      | |- noninc _ (if ?b then _ else _) => destruct b
      | |- noninc _ (match ?x with _ => _ end) => destruct x
      end ].

Lemma noninc_dispatch (boards : Boards.BOARDS) (message : pystr) :
  noninc backlog (dispatch boards message).
Proof. unfold dispatch. noninc_h. Qed.

Lemma recv_weight (bufsize : Z) (c : connection) :
  match fst (recv bufsize c) with
  | Ok b => (weight (rx (snd (recv bufsize c))) + List.length b
             <= weight (rx c))%nat
  | Raise _ => (weight (rx (snd (recv bufsize c))) < weight (rx c))%nat
  end.
Proof.
  unfold recv. destruct (bufsize =? 0); [cbn; lia|].
  pose proof (recv_events_weight (Z.to_nat bufsize) (rx c)) as Hw.
  destruct (recv_events (Z.to_nat bufsize) (rx c)) as [[b|e] r'];
    cbn [fst snd rx set_rx] in *; exact Hw.
Qed.

Lemma get_msg_str_unfold (c : connection) :
  get_msg "str" c
  = match recv sizeof_c_uint c with
    | (Ok b, c1) =>
        match unpack_I b with
        | Ok n =>
            match recv n c1 with
            | (Ok s, c2) => (Ok (PBytes s), c2)
            | (Raise e, c2) => (Raise e, c2)
            end
        | Raise e => (Raise e, c1)
        end
    | (Raise e, c1) => (Raise e, c1)
    end.
Proof.
  unfold get_msg, bind, lift.
  destruct (recv sizeof_c_uint c) as [[b|e] c1]; [|reflexivity].
  destruct (unpack_I b) as [n|e]; reflexivity.
Qed.

(** Reading a str frame takes something off the socket unless it ends
    by [struct.error]. *)
Lemma get_msg_str_progress (c : connection) :
  fst (get_msg "str" c) <> Raise StructError ->
  (weight (rx (snd (get_msg "str" c))) < weight (rx c))%nat.
Proof.
  rewrite get_msg_str_unfold.
  pose proof (recv_weight sizeof_c_uint c) as Hw.
  destruct (recv sizeof_c_uint c) as [[b|e] c1]; cbn [fst snd] in *;
    [|intros _; exact Hw].
  destruct (unpack_I b) as [n|e] eqn:Eu.
  - assert (Hb : List.length b = 4%nat).
    { unfold unpack_I in Eu.
      do 5 (destruct b as [|? b]; try discriminate Eu). reflexivity. }
    intros _.
    pose proof (noninc_recv n c1) as Hn.
    destruct (recv n c1) as [[s|e] c2]; cbn [fst snd] in *; lia.
  - assert (He : e = StructError).
    { unfold unpack_I in Eu.
      destruct b as [|b0 [|b1 [|b2 [|b3 [|b4 b']]]]]; congruence. }
    subst e. cbn [fst]. congruence.
Qed.

(** A turn after which the loop goes on has taken something off the
    socket. *)
Lemma iteration_progress (boards : Boards.BOARDS) (w : world) :
  fst (iteration boards w) = Ok Continue ->
  (backlog (snd (iteration boards w)) < backlog w)%nat.
Proof.
  pose (k := fun data : pyval =>
          match data with
          | PBytes [] => ret Break
          | PBytes b =>
              bind (lift (Utf8.decode b))
                (fun text => dispatch boards (lower text))
          | _ => throw AttributeError
          end : hm loop_ctl).
  assert (Hk : forall data, noninc backlog (k data)).
  { intros data. unfold k.
    destruct data as [| | | | |b| |]; try apply noninc_throw.
    destruct b as [|b0 b']; [apply noninc_ret|].
    apply noninc_bind; [apply noninc_lift|]. intros text.
    apply noninc_dispatch. }
  change (iteration boards w)
    with (try_except (bind (on_conn (get_msg "str")) k)
            (fun e => match e with
                      | TimeoutError => Some (ret Continue)
                      | ConnectionResetError => Some (ret Break)
                      | _ => None
                      end) w).
  unfold try_except, bind, on_conn.
  pose proof (get_msg_str_progress (conn w)) as Hp.
  destruct (get_msg "str" (conn w)) as [[data|e] c1]; cbn [fst snd] in Hp.
  - specialize (Hp ltac:(discriminate)).
    specialize (Hk data (mkWorld c1 (sess w) (trace w))).
    unfold backlog in *. cbn [conn] in Hk.
    destruct (k data (mkWorld c1 (sess w) (trace w))) as [[a|e] w2];
      cbn [fst snd] in *; [intros _; lia|].
    destruct e; cbn [fst snd ret]; intros Hc; try discriminate Hc; lia.
  - unfold backlog.
    destruct e; cbn [fst snd ret conn]; intros Hc; try discriminate Hc;
      apply Hp; discriminate.
Qed.

(** X23.  The handler loop cannot spin.  Every turn after which the
    loop goes on has taken at least one byte or one event (a timeout)
    off the receive side of the socket, and no turn puts anything back:
    a handler that has made [fuel] turns and is still in its loop has
    consumed at least [fuel] bytes and events.  (Nothing is said of a
    read that waits: a peer that stays connected and silent is not an
    input of the model, and neither is a [join] that waits.) *)
Theorem turns_consume_input (fuel : nat) (boards : Boards.BOARDS) (w : world) :
  fst (command_loop fuel boards w) = Ok None ->
  (backlog (snd (command_loop fuel boards w)) + fuel <= backlog w)%nat.
Proof.
  revert w. induction fuel as [|k IH]; intros w; cbn [command_loop].
  - intros _. cbn [ret snd]. lia.
  - unfold bind.
    pose proof (iteration_progress boards w) as Hp.
    destruct (iteration boards w) as [[[|]|e] w1]; cbn [fst snd] in *;
      try discriminate.
    intros Hgo. specialize (Hp eq_refl). specialize (IH w1 Hgo). lia.
Qed.

End WithLibraries.

Lemma iteration_unknown_command_witness :
  iteration (H := Bench.int_list_json) (H0 := Bench.one_board) Handlers.boards
    (Handlers.handler (Handlers.command "ping" []) initial_session)
  = (Ok Continue, mkWorld (incoming []) initial_session []).
Proof.
  apply (iteration_unknown_command (H := Bench.int_list_json)
           (H0 := Bench.one_board) Handlers.boards
           (Handlers.handler (Handlers.command "ping" []) initial_session)
           (bytes_of "ping") [] (str_of "ping") []).
  - discriminate.
  - reflexivity.
  - reflexivity.
  - vm_compute. intuition discriminate.
  - reflexivity.
Defined.

(** [OPEN] and board number 0 on a driver that cannot create the
    device. *)
Lemma open_answers_then_creates_witness :
  iteration (H := Bench.int_list_json) (H0 := Handlers.failing_driver)
    Handlers.boards
    (Handlers.handler (Handlers.command "OPEN" (le_bytes 4 0 ++ []))
       initial_session)
  = (Ok Continue,
     mkWorld (sent (incoming []) (Handlers.text_frame "01A2B3C4" []))
       (mkSession 0 (Some Bench.usb_201) None false false) []).
Proof.
  apply (open_answers_then_creates (H := Bench.int_list_json)
           (H0 := Handlers.failing_driver) Handlers.boards
           (Handlers.handler (Handlers.command "OPEN" (le_bytes 4 0 ++ []))
              initial_session)
           (bytes_of "OPEN") [] (str_of "OPEN") [] 0 Bench.usb_201
           (bytes_of "01A2B3C4") (Raise ULError));
    first [ discriminate | reflexivity | lia ].
Defined.

(** Board number 7 with one device on the bus. *)
Lemma open_bad_number_is_silent_witness :
  iteration (H := Bench.int_list_json) (H0 := Bench.one_board) Handlers.boards
    (Handlers.handler (Handlers.command "open" (le_bytes 4 7 ++ []))
       initial_session)
  = (Ok Continue,
     mkWorld (incoming []) (mkSession 7 None None false false) []).
Proof.
  apply (open_bad_number_is_silent (H := Bench.int_list_json)
           (H0 := Bench.one_board) Handlers.boards
           (Handlers.handler (Handlers.command "open" (le_bytes 4 7 ++ []))
              initial_session)
           (bytes_of "open") [] (str_of "open") [] 7);
    first [ discriminate | reflexivity | (cbn; lia) ].
Defined.

Lemma start_spawns_forwarder_witness :
  iteration (H := Bench.int_list_json) (H0 := Bench.one_board) Handlers.boards
    (Handlers.handler
       (Handlers.command "start"
          (Handlers.text_frame "[0, 1, 2, 3]"
             (Handlers.text_frame "[1, 1, 1, 1]"
                (le_bytes 4 1000 ++ le_bytes 4 1000 ++ []))))
       Handlers.selected)
  = (Ok Continue,
     mkWorld (incoming []) Handlers.streaming
       [Started Handlers.four_channels]).
Proof.
  apply (start_spawns_forwarder (H := Bench.int_list_json)
           (H0 := Bench.one_board) Handlers.boards
           (Handlers.handler
              (Handlers.command "start"
                 (Handlers.text_frame "[0, 1, 2, 3]"
                    (Handlers.text_frame "[1, 1, 1, 1]"
                       (le_bytes 4 1000 ++ le_bytes 4 1000 ++ []))))
              Handlers.selected)
           (bytes_of "start") (bytes_of "[0, 1, 2, 3]")
           (bytes_of "[1, 1, 1, 1]") []
           (str_of "start") (str_of "[0, 1, 2, 3]") (str_of "[1, 1, 1, 1]")
           (PList [PInt 0; PInt 1; PInt 2; PInt 3])
           (PList [PInt 1; PInt 1; PInt 1; PInt 1]) 1000 1000 []);
    first [ discriminate | reflexivity | lia ].
Defined.

Lemma stop_joins_forwarder_witness :
  iteration (H := Bench.int_list_json) (H0 := Bench.one_board) Handlers.boards
    (Handlers.handler (Handlers.command "stop" []) Handlers.streaming)
  = (Ok Continue,
     mkWorld (incoming []) (mkSession 0 (Some Bench.usb_201) None false false)
       [Joined Handlers.four_channels]).
Proof.
  apply (stop_joins_forwarder (H := Bench.int_list_json)
           (H0 := Bench.one_board) Handlers.boards
           (Handlers.handler (Handlers.command "stop" []) Handlers.streaming)
           (bytes_of "stop") [] (str_of "stop") [] Handlers.four_channels);
    first [ discriminate | reflexivity ].
Defined.

(** [stop] as the first command, on a driver that refuses board -1. *)
Lemma stop_without_forwarder_may_crash_witness :
  leave (command_loop (H := Bench.int_list_json)
           (H0 := Handlers.failing_driver) 1 Handlers.boards
           (Handlers.handler (Handlers.command "stop" []) initial_session))
  = (Crashed ULError, mkWorld (incoming []) initial_session []).
Proof.
  apply (stop_without_forwarder_may_crash (H := Bench.int_list_json)
           (H0 := Handlers.failing_driver) 0 Handlers.boards
           (Handlers.handler (Handlers.command "stop" []) initial_session)
           (bytes_of "stop") [] (str_of "stop") [] ULError);
    first [ discriminate | reflexivity ].
Defined.

(** Three unknown commands in one segment: after two turns the third is
    still to be read. *)
Lemma turns_consume_input_witness :
  (backlog
     (snd (command_loop (H := Bench.int_list_json) (H0 := Bench.one_board) 2
             Handlers.boards
             (Handlers.handler
                (Handlers.command "ping"
                   (Handlers.command "ping" (Handlers.command "ping" [])))
                initial_session))) + 2
   <= backlog
        (Handlers.handler
           (Handlers.command "ping"
              (Handlers.command "ping" (Handlers.command "ping" [])))
           initial_session))%nat.
Proof.
  apply (turns_consume_input (H := Bench.int_list_json)
           (H0 := Bench.one_board) 2 Handlers.boards
           (Handlers.handler
              (Handlers.command "ping"
                 (Handlers.command "ping" (Handlers.command "ping" [])))
              initial_session)).
  reflexivity.
Defined.

End DispatcherMore.

(** ** The consumer and the handler, face to face *)

Module ClientMore.
Import Manager Client CodecFacts ManagerFacts.

Lemma on_socket_run {A} (op : io A) (m : DaqSocketManager) (c : connection) :
  socket m = Some c ->
  on_socket op m = (fst (op c), set_socket (Some (snd (op c))) m).
Proof. intros Hs. unfold on_socket. rewrite Hs. now destruct (op c). Qed.

Lemma on_socket_next {A} (op : io A) (m : DaqSocketManager) (c : connection) :
  on_socket op (set_socket (Some c) m)
  = (fst (op c), set_socket (Some (snd (op c))) m).
Proof. now rewrite (on_socket_run op (set_socket (Some c) m) c eq_refl). Qed.

Lemma len_map_bytes (s : pystr) : len (map byte_of_Z s) = len s.
Proof. unfold len. now rewrite length_map. Qed.

Lemma map_bytes_nonempty (s : pystr) : s <> [] -> map byte_of_Z s <> [].
Proof. destruct s; [congruence | discriminate]. Qed.

Section WithLibraries.
Context `{Json} `{Hardware} `{Builtins}.

(** The consumer's [send_msg] on a socket that takes the writes. *)
Lemma send_str_run (s : pystr) (m : DaqSocketManager) (c : connection) :
  socket m = Some c -> tx_faults c = [] ->
  len s < 2 ^ 32 -> is_ascii s ->
  send_msg (PStr s) m
  = (Ok 0, set_socket
             (Some (sent c (le_bytes 4 (len s) ++ map byte_of_Z s))) m).
Proof.
  intros Hs Hf Hl Ha. unfold send_msg. rewrite (on_socket_run _ m c Hs).
  now rewrite (send_str_ok s _ c Hl (encode_ascii s Ha) Hf).
Qed.

Lemma send_int_run (v : Z) (m : DaqSocketManager) (c : connection) :
  socket m = Some c -> tx_faults c = [] -> 0 <= v < 2 ^ 32 ->
  send_msg (PInt v) m = (Ok 0, set_socket (Some (sent c (le_bytes 4 v))) m).
Proof.
  intros Hs Hf Hv. unfold send_msg. rewrite (on_socket_run _ m c Hs).
  now rewrite (send_int_ok v c Hv Hf).
Qed.

Lemma send_list_run (l : list pyval) (text : pystr) (m : DaqSocketManager)
    (c : connection) :
  socket m = Some c -> tx_faults c = [] ->
  json_dumps l = Ok text -> len text < 2 ^ 32 -> is_ascii text ->
  send_msg (PList l) m
  = (Ok 0, set_socket
             (Some (sent c (le_bytes 4 (len text) ++ map byte_of_Z text))) m).
Proof.
  intros Hs Hf Hd Hl Ha. unfold send_msg. rewrite (on_socket_run _ m c Hs).
  now rewrite (send_list_ok l text _ c Hd Hl (encode_ascii text Ha) Hf).
Qed.

(** The same on an object whose socket has just been written to. *)
Lemma send_str_next (s : pystr) (m : DaqSocketManager) (c : connection) :
  tx_faults c = [] -> len s < 2 ^ 32 -> is_ascii s ->
  send_msg (PStr s) (set_socket (Some c) m)
  = (Ok 0, set_socket
             (Some (sent c (le_bytes 4 (len s) ++ map byte_of_Z s))) m).
Proof.
  intros Hf Hl Ha.
  now rewrite (send_str_run s (set_socket (Some c) m) c eq_refl Hf Hl Ha).
Qed.

Lemma send_int_next (v : Z) (m : DaqSocketManager) (c : connection) :
  tx_faults c = [] -> 0 <= v < 2 ^ 32 ->
  send_msg (PInt v) (set_socket (Some c) m)
  = (Ok 0, set_socket (Some (sent c (le_bytes 4 v))) m).
Proof.
  intros Hf Hv.
  now rewrite (send_int_run v (set_socket (Some c) m) c eq_refl Hf Hv).
Qed.

Lemma send_list_next (l : list pyval) (text : pystr) (m : DaqSocketManager)
    (c : connection) :
  tx_faults c = [] ->
  json_dumps l = Ok text -> len text < 2 ^ 32 -> is_ascii text ->
  send_msg (PList l) (set_socket (Some c) m)
  = (Ok 0, set_socket
             (Some (sent c (le_bytes 4 (len text) ++ map byte_of_Z text))) m).
Proof.
  intros Hf Hd Hl Ha.
  now rewrite (send_list_run l text (set_socket (Some c) m) c eq_refl Hf Hd
                 Hl Ha).
Qed.

Lemma start_is_ascii : is_ascii (str_of "start").
Proof. repeat constructor; lia. Qed.

(** X24.  What [start_server] writes is what the [start] branch reads.
    The consumer sends the command, its two lists as JSON text and its
    two integers; a handler with a board selected that receives those
    bytes in one piece starts a forwarder whose configuration carries
    the decoded lists, the consumer's [rate] as [Rate] and its
    [samples_to_display] as [Samples]; and the consumer is left
    running. *)
Theorem start_handshake (m : DaqSocketManager) (c : connection)
    (tc tg : pystr) (vc vg : pyval) (boards : Boards.BOARDS)
    (w : Dispatcher.world) (r : list event) :
  socket m = Some c -> tx c = [] -> tx_faults c = [] ->
  json_dumps (channels m) = Ok tc -> is_ascii tc -> tc <> [] ->
  len tc < 2 ^ 32 -> json_loads tc = Ok vc ->
  json_dumps (gains m) = Ok tg -> is_ascii tg -> tg <> [] ->
  len tg < 2 ^ 32 -> json_loads tg = Ok vg ->
  0 <= rate m < 2 ^ 32 -> 0 <= samples_to_display m < 2 ^ 32 ->
  Dispatcher.board_selected (Dispatcher.sess w) = true ->
  rx (Dispatcher.conn w) = Seg (outbox (snd (start_server m))) :: r ->
  let configuration :=
    Forwarder.mkConfig (Dispatcher.board_number (Dispatcher.sess w))
      (Dispatcher.board_desc (Dispatcher.sess w)) vc vg
      (samples_to_display m) (rate m) in
  fst (start_server m) = Return (PStr (str_of "running"))
  /\ running (snd (start_server m)) = true
  /\ Dispatcher.iteration boards w
     = (Ok Dispatcher.Continue,
        Dispatcher.mkWorld (set_rx (Dispatcher.conn w) r)
          (Dispatcher.set_thread (Some configuration)
             (Dispatcher.set_stop_event true (Dispatcher.sess w)))
          (Dispatcher.trace w ++ [Dispatcher.Started configuration])).
Proof.
  intros Hs Htx Hf Hdc Hac Hnc Hlc Hjc Hdg Hag Hng Hlg Hjg Hrate Hsmp Hsel Hrx
         configuration.
  assert (Hrun : start_server m
    = (Return (PStr (str_of "running")),
       set_running true (set_thread true (set_stop_event true
         (set_socket
            (Some (sent c
               ((le_bytes 4 (len (str_of "start"))
                 ++ map byte_of_Z (str_of "start"))
                ++ (le_bytes 4 (len tc) ++ map byte_of_Z tc)
                ++ (le_bytes 4 (len tg) ++ map byte_of_Z tg)
                ++ le_bytes 4 (rate m)
                ++ le_bytes 4 (samples_to_display m)))) m))))).
  { unfold start_server. cbv zeta. unfold bind.
    rewrite (send_str_run (str_of "start") m c Hs Hf)
      by first [reflexivity | exact start_is_ascii].
    rewrite (send_list_next (channels m) tc) by assumption.
    rewrite (send_list_next (gains m) tg) by assumption.
    rewrite (send_int_next (rate m)) by assumption.
    rewrite (send_int_next (samples_to_display m)) by assumption.
    unfold update. rewrite !sent_sent. reflexivity. }
  rewrite Hrun in *. cbn [fst snd]. split; [reflexivity|].
  split; [reflexivity|].
  unfold outbox in Hrx. cbn [snd socket set_socket set_running set_thread
                              set_stop_event sent tx] in Hrx.
  rewrite Htx in Hrx. cbn [app] in Hrx.
  change (map byte_of_Z (str_of "start")) with (bytes_of "start") in Hrx.
  change (len (str_of "start")) with (len (bytes_of "start")) in Hrx.
  rewrite <- (len_map_bytes tc), <- (len_map_bytes tg) in Hrx.
  rewrite <- !app_assoc in Hrx.
  rewrite <- (app_nil_r (le_bytes 4 (samples_to_display m))) in Hrx.
  exact (DispatcherMore.iteration_start boards w (bytes_of "start")
           (map byte_of_Z tc) (map byte_of_Z tg) [] (str_of "start")
           tc tg vc vg (rate m) (samples_to_display m) r
           ltac:(discriminate) ltac:(reflexivity) ltac:(reflexivity)
           ltac:(reflexivity)
           (map_bytes_nonempty tc Hnc)
           ltac:(rewrite len_map_bytes; exact Hlc) (decode_ascii tc Hac) Hjc
           (map_bytes_nonempty tg Hng)
           ltac:(rewrite len_map_bytes; exact Hlg) (decode_ascii tg Hag) Hjg
           Hrate Hsmp Hrx Hsel).
Qed.

Lemma get_msg_next (typ : string) (m : DaqSocketManager) (c : connection) :
  get_msg typ (set_socket (Some c) m)
  = (fst (Codec.get_msg typ c),
     set_socket (Some (snd (Codec.get_msg typ c))) m).
Proof.
  unfold get_msg.
  now rewrite (on_socket_run _ (set_socket (Some c) m) c eq_refl).
Qed.

Lemma open_is_ascii : is_ascii (str_of "open").
Proof. repeat constructor; lia. Qed.

(** X25.  [open_list_device] and the [open] branch agree.  What the
    consumer writes (the command, then the board number) is what a free
    handler reads as an [open] of that board; what the handler writes
    back (the serial number of the board as a str frame) is what the
    consumer returns, as bytes; and the handler has the board selected
    under the number the consumer passed. *)
Theorem open_handshake (board_number : pyval) (n : Z) (d : descriptor)
    (m : DaqSocketManager) (c : connection) (boards : Boards.BOARDS)
    (w : Dispatcher.world) (r : list event) :
  py_int board_number = Some n -> 0 <= n < 2 ^ 32 ->
  Boards.read_dev_desc boards n = Ok d ->
  is_ascii (unique_id d) -> unique_id d <> [] -> len (unique_id d) < 2 ^ 32 ->
  ul ignore_instacal = Ok tt -> ul (create_daq_device n d) = Ok tt ->
  socket m = Some c -> tx c = [] -> tx_faults c = [] ->
  Dispatcher.board_selected (Dispatcher.sess w) = false ->
  tx (Dispatcher.conn w) = [] -> tx_faults (Dispatcher.conn w) = [] ->
  rx c = [Seg (le_bytes 4 (len (unique_id d)) ++ map byte_of_Z (unique_id d))] ->
  rx (Dispatcher.conn w)
  = Seg (le_bytes 4 4 ++ bytes_of "open" ++ le_bytes 4 n) :: r ->
  (fst (open_list_device board_number m)
   = PBytes (map byte_of_Z (unique_id d))
   /\ outbox (snd (open_list_device board_number m))
      = le_bytes 4 4 ++ bytes_of "open" ++ le_bytes 4 n)
  /\ (fst (Dispatcher.iteration boards w) = Ok Dispatcher.Continue
      /\ tx (Dispatcher.conn (snd (Dispatcher.iteration boards w)))
         = le_bytes 4 (len (unique_id d)) ++ map byte_of_Z (unique_id d)
      /\ Dispatcher.sess (snd (Dispatcher.iteration boards w))
         = Dispatcher.set_board_selected true
             (Dispatcher.set_board_desc (Some d)
                (Dispatcher.set_board_number n (Dispatcher.sess w)))).
Proof.
  intros Hint Hn Hdesc Ha Hne Hl Hig Hcr Hs Htx Hf Hsel Hwtx Hwf Hrx Hwrx.
  split.
  - unfold open_list_device.
    rewrite (send_str_run (str_of "open") m c Hs Hf)
      by first [reflexivity | exact open_is_ascii].
    rewrite Hint. unfold bind.
    rewrite (send_int_next n) by assumption.
    rewrite get_msg_next, sent_sent.
    rewrite (get_msg_str_frame (map byte_of_Z (unique_id d)) [] []);
      [ | now apply map_bytes_nonempty
        | now rewrite len_map_bytes
        | cbn [sent rx]; now rewrite Hrx, len_map_bytes, app_nil_r ].
    cbn [fst snd]. split; [reflexivity|].
    unfold outbox. cbn [socket set_socket set_rx sent tx].
    rewrite Htx. reflexivity.
  - assert (Hwrx' : rx (Dispatcher.conn w)
                    = Seg (le_bytes 4 (len (bytes_of "open")) ++ bytes_of "open"
                           ++ le_bytes 4 n ++ []) :: r)
      by (rewrite Hwrx, app_nil_r; reflexivity).
    rewrite (DispatcherMore.iteration_open boards w (bytes_of "open") []
               (str_of "open") r n d (map byte_of_Z (unique_id d))
               ltac:(discriminate) ltac:(reflexivity) eq_refl eq_refl
               Hwrx' Hn Hsel Hdesc Hl (encode_ascii _ Ha) Hwf Hig Hcr).
    cbn [fst snd Dispatcher.conn Dispatcher.sess sent tx set_rx].
    rewrite Hwtx. repeat split.
Qed.

(** X26.  [open_list_device] returns 0 or bytes, and nothing gets out of
    it.  The [return] in its [finally] clause discards every exception,
    the [SystemExit] of its own [exit(0)] included: the result is the
    initial 0 unless a reply was read, in which case it is that reply, a
    bytes object; the flags and the data of the object are not touched;
    and the socket is dropped only on the way that returns 0. *)
Theorem open_list_device_contained (board_number : pyval)
    (m : DaqSocketManager) :
  (fst (open_list_device board_number m) = PInt 0
   \/ (exists b, fst (open_list_device board_number m) = PBytes b)
       /\ socket (snd (open_list_device board_number m)) <> None)
  /\ running (snd (open_list_device board_number m)) = running m
  /\ thread (snd (open_list_device board_number m)) = thread m
  /\ stop_event (snd (open_list_device board_number m)) = stop_event m
  /\ data_list (snd (open_list_device board_number m)) = data_list m
  /\ new_data (snd (open_list_device board_number m)) = new_data m.
Proof.
  assert (Hfail : forall e m1, socket_only m m1 ->
    (fst (open_failed e m1) = PInt 0
     \/ (exists b, fst (open_failed e m1) = PBytes b)
         /\ socket (snd (open_failed e m1)) <> None)
    /\ running (snd (open_failed e m1)) = running m
    /\ thread (snd (open_failed e m1)) = thread m
    /\ stop_event (snd (open_failed e m1)) = stop_event m
    /\ data_list (snd (open_failed e m1)) = data_list m
    /\ new_data (snd (open_failed e m1)) = new_data m).
  { intros e m1 Hm1. unfold socket_only in Hm1. rewrite Hm1.
    destruct e; cbn; (split; [now left | repeat split]). }
  unfold open_list_device.
  destruct (send_msg (PStr (str_of "open")) m) as [[z1|e1] m1] eqn:E1;
    apply on_socket_frame in E1; [|now apply Hfail].
  destruct (py_int board_number) as [n|].
  2:{ cbn [fst snd]. unfold socket_only in E1. rewrite E1.
      split; [now left | repeat split]. }
  unfold bind.
  destruct (send_msg (PInt n) m1) as [[z2|e2] m2] eqn:E2;
    apply on_socket_frame in E2;
    pose proof (socket_only_trans _ _ _ E1 E2) as H2; [|now apply Hfail].
  unfold get_msg, on_socket.
  destruct (socket m2) as [c2|] eqn:Es2.
  2:{ apply (Hfail AttributeError m2 H2). }
  rewrite DispatcherMore.get_msg_str_unfold.
  assert (Hm2 : forall c', socket_only m (set_socket (Some c') m2)).
  { intros c'. unfold socket_only in *. rewrite H2. reflexivity. }
  destruct (recv sizeof_c_uint c2) as [[b|e] c3]; [|now apply Hfail].
  destruct (unpack_I b) as [k|e]; [|now apply Hfail].
  destruct (recv k c3) as [[payload|e] c4]; [|now apply Hfail].
  cbn [fst snd]. unfold socket_only in H2. rewrite H2.
  cbn. split; [|repeat split].
  right. split; [now exists payload | discriminate].
Qed.

Lemma list_is_ascii : is_ascii (str_of "list").
Proof. repeat constructor; lia. Qed.

Lemma exit_is_ascii : is_ascii (str_of "exit").
Proof. repeat constructor; lia. Qed.

(** X27.  [get_device_list] and the [list] branch agree, and only a
    reset is handled.  The consumer writes the command; a handler that
    reads it writes back its list of boards as a JSON frame and changes
    nothing else; the consumer that receives this frame whole returns
    what [json.loads] makes of the text.  If instead the read times
    out, [TimeoutError] gets out of [get_device_list] to the caller; if
    the connection is reset, the socket is dropped and the process
    exits with code 0. *)
Theorem device_list_handshake (m : DaqSocketManager) (c : connection)
    (boards : Boards.BOARDS) (text : pystr) (v : pyval)
    (w : Dispatcher.world) (r : list event) :
  socket m = Some c -> tx c = [] -> tx_faults c = [] ->
  json_dumps (Boards.read_boards boards) = Ok text ->
  is_ascii text -> text <> [] -> len text < 2 ^ 32 ->
  json_loads text = Ok v ->
  tx (Dispatcher.conn w) = [] -> tx_faults (Dispatcher.conn w) = [] ->
  rx (Dispatcher.conn w) = Seg (le_bytes 4 4 ++ bytes_of "list") :: r ->
  (Dispatcher.iteration boards w
   = (Ok Dispatcher.Continue,
      Dispatcher.mkWorld
        (sent (set_rx (Dispatcher.conn w) r)
           (le_bytes 4 (len text) ++ map byte_of_Z text))
        (Dispatcher.sess w) (Dispatcher.trace w)))
  /\ (rx c = [Seg (le_bytes 4 (len text) ++ map byte_of_Z text)] ->
      fst (get_device_list m) = Returns v
      /\ outbox (snd (get_device_list m)) = le_bytes 4 4 ++ bytes_of "list")
  /\ (forall r', rx c = Timeout :: r' ->
      fst (get_device_list m) = Raises TimeoutError)
  /\ (forall r', rx c = Reset :: r' ->
      fst (get_device_list m) = Exits 0
      /\ socket (snd (get_device_list m)) = None).
Proof.
  intros Hs Htx Hf Hd Ha Hne Hl Hj Hwtx Hwf Hwrx.
  assert (Hsend : send_msg (PStr (str_of "list")) m
                  = (Ok 0, set_socket
                             (Some (sent c (le_bytes 4 4 ++ bytes_of "list")))
                             m)).
  { rewrite (send_str_run (str_of "list") m c Hs Hf)
      by first [reflexivity | exact list_is_ascii]. reflexivity. }
  split; [|split; [|split]].
  - assert (Hwrx' : rx (Dispatcher.conn w)
                    = Seg (le_bytes 4 (len (bytes_of "list")) ++ bytes_of "list"
                           ++ []) :: r)
      by (rewrite Hwrx, app_nil_r; reflexivity).
    rewrite (DispatcherMore.iteration_command boards w (bytes_of "list") []
               (str_of "list") r ltac:(discriminate) ltac:(reflexivity)
               eq_refl Hwrx').
    change (Dispatcher.lower (str_of "list")) with (str_of "list").
    unfold Dispatcher.dispatch.
    change (pystr_eqb (str_of "list") (str_of "list")) with true.
    cbv iota. unfold bind, Dispatcher.on_conn, ret.
    cbn [Dispatcher.conn Dispatcher.sess Dispatcher.trace pending].
    rewrite (send_list_ok (Boards.read_boards boards) text
               (map byte_of_Z text) _ Hd Hl (encode_ascii text Ha))
      by exact Hwf.
    reflexivity.
  - intros Hrx. unfold get_device_list, bind. rewrite Hsend.
    rewrite get_msg_next.
    rewrite (get_msg_list_frame (map byte_of_Z text) [] text v []);
      [ | now apply map_bytes_nonempty
        | now rewrite len_map_bytes
        | now apply decode_ascii
        | exact Hj
        | cbn [sent rx]; now rewrite Hrx, len_map_bytes, app_nil_r ].
    cbn [fst snd]. split; [reflexivity|].
    unfold outbox. cbn [socket set_socket set_rx sent tx].
    now rewrite Htx.
  - intros r' Hrx. unfold get_device_list, bind. rewrite Hsend.
    rewrite get_msg_next.
    unfold Codec.get_msg, bind, recv. change (sizeof_c_uint =? 0) with false.
    cbv iota. cbn [sent rx]. rewrite Hrx. reflexivity.
  - intros r' Hrx. unfold get_device_list, bind. rewrite Hsend.
    rewrite get_msg_next.
    unfold Codec.get_msg, bind, recv. change (sizeof_c_uint =? 0) with false.
    cbv iota. cbn [sent rx]. rewrite Hrx. split; reflexivity.
Qed.

(** X28.  [disconnect] says [exit], closes and lets go; [exit] closes
    without stopping anything.  On a socket that takes the write, the
    consumer sends the command frame and nothing else, closes the
    socket and sets it to [None]; a second [disconnect] then raises
    [AttributeError] and does nothing.  If the write fails, the
    exception gets out with the socket neither closed nor dropped.  A
    handler that receives what was written leaves its loop and closes
    the connection: what follows the command is left unread, nothing is
    sent, and the session is not touched; a forwarder that is running
    is neither told to stop nor joined. *)
Theorem disconnect_handshake (fuel : nat) (m : DaqSocketManager)
    (c : connection) (boards : Boards.BOARDS) (w : Dispatcher.world)
    (rest : list byte) (r : list event) :
  socket m = Some c -> tx c = [] ->
  rx (Dispatcher.conn w)
  = Seg (le_bytes 4 4 ++ bytes_of "exit" ++ rest) :: r ->
  (tx_faults c = [] ->
   disconnect m
   = (Ok tt, set_socket None m,
      Some (mkConn (rx c) (le_bytes 4 4 ++ bytes_of "exit") [] true)))
  /\ (forall e f, tx_faults c = Some e :: f ->
      disconnect m
      = (Raise e, set_socket (Some (mkConn (rx c) [] f (closed c))) m, None))
  /\ disconnect (set_socket None m)
     = (Raise AttributeError, set_socket None m, None)
  /\ Dispatcher.leave (Dispatcher.command_loop (S fuel) boards w)
     = (Dispatcher.ConnectionClosed,
        Dispatcher.mkWorld (close (set_rx (Dispatcher.conn w) (pending rest r)))
          (Dispatcher.sess w) (Dispatcher.trace w))
  /\ closed (Dispatcher.conn
               (snd (Dispatcher.leave
                       (Dispatcher.command_loop (S fuel) boards w)))) = true.
Proof.
  intros Hs Htx Hwrx.
  assert (Hloop : Dispatcher.leave (Dispatcher.command_loop (S fuel) boards w)
     = (Dispatcher.ConnectionClosed,
        Dispatcher.mkWorld (close (set_rx (Dispatcher.conn w) (pending rest r)))
          (Dispatcher.sess w) (Dispatcher.trace w))).
  { cbn [Dispatcher.command_loop]. unfold bind at 1.
    rewrite (DispatcherMore.iteration_command boards w (bytes_of "exit") rest
               (str_of "exit") r ltac:(discriminate) ltac:(reflexivity)
               eq_refl Hwrx).
    reflexivity. }
  split; [|split; [|split; [|split]]].
  - intros Hf. unfold disconnect, bind.
    rewrite (send_str_run (str_of "exit") m c Hs Hf)
      by first [reflexivity | exact exit_is_ascii].
    rewrite on_socket_next.
    cbn [fst snd socket set_socket]. unfold close, sent.
    cbn [rx tx tx_faults closed]. rewrite Htx, Hf. reflexivity.
  - intros e f Hf. unfold disconnect, bind, send_msg.
    rewrite (on_socket_run _ m c Hs).
    unfold Codec.send_msg, bind, lift.
    change (pack_I (len (str_of "exit"))) with (Ok (le_bytes 4 4)).
    cbv iota. unfold sendall. rewrite Hf. cbn [fst snd].
    now rewrite Htx.
  - reflexivity.
  - exact Hloop.
  - now rewrite Hloop.
Qed.

End WithLibraries.

(** An inventory without boards: the list is the text [[]]. *)
Lemma device_list_handshake_witness :
  Dispatcher.iteration (H := Bench.int_list_json) (H0 := Bench.one_board)
    (Boards.mkBoards [] [] 0)
    (Handlers.handler (Handlers.command "list" []) Dispatcher.initial_session)
  = (Ok Dispatcher.Continue,
     Dispatcher.mkWorld (sent (incoming []) (Handlers.text_frame "[]" []))
       Dispatcher.initial_session []).
Proof.
  apply (device_list_handshake (H := Bench.int_list_json)
           (H0 := Bench.one_board)
           (Clients.connected [Seg (Handlers.text_frame "[]" [])])
           (incoming [Seg (Handlers.text_frame "[]" [])])
           (Boards.mkBoards [] [] 0) (str_of "[]") (PList [])
           (Handlers.handler (Handlers.command "list" [])
              Dispatcher.initial_session) []);
    first [ discriminate | reflexivity | (repeat constructor; lia)
          | (cbn; lia) ].
Defined.

(** A fresh consumer, and a handler whose forwarder is streaming. *)
Lemma disconnect_handshake_witness :
  disconnect (H := Bench.int_list_json) (Clients.connected [])
  = (Ok tt, Manager.init,
     Some (mkConn [] (Handlers.command "exit" []) [] true))
  /\ disconnect (H := Bench.int_list_json) Manager.init
     = (Raise AttributeError, Manager.init, None)
  /\ Dispatcher.leave
       (Dispatcher.command_loop (H := Bench.int_list_json)
          (H0 := Bench.one_board) 1 Handlers.boards
          (Handlers.handler (Handlers.command "exit" []) Handlers.streaming))
     = (Dispatcher.ConnectionClosed,
        Dispatcher.mkWorld (close (incoming [])) Handlers.streaming [])
  /\ closed (Dispatcher.conn
               (snd (Dispatcher.leave
                       (Dispatcher.command_loop (H := Bench.int_list_json)
                          (H0 := Bench.one_board) 1 Handlers.boards
                          (Handlers.handler (Handlers.command "exit" [])
                             Handlers.streaming))))) = true.
Proof.
  destruct (disconnect_handshake (H := Bench.int_list_json)
              (H0 := Bench.one_board) 0 (Clients.connected []) (incoming [])
              Handlers.boards
              (Handlers.handler (Handlers.command "exit" [])
                 Handlers.streaming)
              [] [] eq_refl eq_refl eq_refl)
    as (Hsent & _ & Htwice & Hloop & Hclosed).
  split; [exact (Hsent eq_refl)|].
  split; [exact Htwice|]. split; [exact Hloop | exact Hclosed].
Defined.

(** The consumer as [__init__] leaves it, and a handler on board 0. *)
Lemma start_handshake_witness :
  fst (start_server (H := Bench.int_list_json) (Clients.connected []))
  = Return (PStr (str_of "running"))
  /\ running (snd (start_server (H := Bench.int_list_json)
                    (Clients.connected []))) = true
  /\ Dispatcher.iteration (H := Bench.int_list_json) (H0 := Bench.one_board)
       Handlers.boards
       (Handlers.handler
          (outbox (snd (start_server (H := Bench.int_list_json)
                          (Clients.connected []))))
          Handlers.selected)
     = (Ok Dispatcher.Continue,
        Dispatcher.mkWorld (incoming []) Handlers.streaming
          [Dispatcher.Started Handlers.four_channels]).
Proof.
  apply (start_handshake (H := Bench.int_list_json) (H0 := Bench.one_board)
           (Clients.connected []) (incoming [])
           (str_of "[0, 1, 2, 3]") (str_of "[1, 1, 1, 1]")
           (PList [PInt 0; PInt 1; PInt 2; PInt 3])
           (PList [PInt 1; PInt 1; PInt 1; PInt 1])
           Handlers.boards
           (Handlers.handler
              (outbox (snd (start_server (H := Bench.int_list_json)
                              (Clients.connected []))))
              Handlers.selected) []);
    first [ discriminate | reflexivity | (repeat constructor; lia)
          | (cbn; lia) ].
Defined.

(** Board ['0'] of the one-board inventory. *)
Lemma open_handshake_witness :
  (fst (open_list_device (H := Bench.int_list_json) (H0 := Clients.decimal_int)
          (PStr (str_of "0"))
          (Clients.connected [Seg (Handlers.text_frame "01A2B3C4" [])]))
   = PBytes (bytes_of "01A2B3C4")
   /\ outbox (snd (open_list_device (H := Bench.int_list_json)
                     (H0 := Clients.decimal_int) (PStr (str_of "0"))
                     (Clients.connected
                        [Seg (Handlers.text_frame "01A2B3C4" [])])))
      = Handlers.command "open" (le_bytes 4 0))
  /\ (fst (Dispatcher.iteration (H := Bench.int_list_json)
             (H0 := Bench.one_board) Handlers.boards
             (Handlers.handler (Handlers.command "open" (le_bytes 4 0))
                Dispatcher.initial_session))
      = Ok Dispatcher.Continue
      /\ tx (Dispatcher.conn
               (snd (Dispatcher.iteration (H := Bench.int_list_json)
                       (H0 := Bench.one_board) Handlers.boards
                       (Handlers.handler
                          (Handlers.command "open" (le_bytes 4 0))
                          Dispatcher.initial_session))))
         = Handlers.text_frame "01A2B3C4" []
      /\ Dispatcher.sess
           (snd (Dispatcher.iteration (H := Bench.int_list_json)
                   (H0 := Bench.one_board) Handlers.boards
                   (Handlers.handler (Handlers.command "open" (le_bytes 4 0))
                      Dispatcher.initial_session)))
         = Handlers.selected).
Proof.
  apply (open_handshake (H := Bench.int_list_json) (H0 := Bench.one_board)
           (H1 := Clients.decimal_int) (PStr (str_of "0")) 0 Bench.usb_201
           (Clients.connected [Seg (Handlers.text_frame "01A2B3C4" [])])
           (incoming [Seg (Handlers.text_frame "01A2B3C4" [])])
           Handlers.boards
           (Handlers.handler (Handlers.command "open" (le_bytes 4 0))
              Dispatcher.initial_session) []);
    first [ discriminate | reflexivity | (repeat constructor; lia)
          | (cbn; lia) ].
Defined.

End ClientMore.

(** ** The inventory of boards *)

Module BoardsMore.
Import Boards.

Lemma scan_inventory_In (entry : pyval) (devices : list descriptor) :
  forall board_index,
  In entry (scan_inventory board_index devices)
  <-> exists j d, nth_error devices j = Some d
                  /\ _valid_board (product_id d) = true
                  /\ entry = device_dict d (board_index + Z.of_nat j).
Proof.
  induction devices as [|device rest IH]; intros board_index;
    cbn [scan_inventory].
  - split; [intros [] | intros (j & d & Hn & _)]. now destruct j.
  - fold (device_dict device board_index).
    assert (Hrest : In entry (scan_inventory (board_index + 1) rest)
                    <-> exists j d, nth_error (device :: rest) (S j) = Some d
                          /\ _valid_board (product_id d) = true
                          /\ entry = device_dict d (board_index + Z.of_nat (S j))).
    { rewrite IH. split; intros (j & d & Hn & Hv & He); exists j, d;
        (split; [exact Hn | split; [exact Hv|]]); rewrite He; f_equal; lia. }
    destruct (_valid_board (product_id device)) eqn:Ev; cbn [In].
    + split.
      * intros [<- | Hin].
        -- exists 0%nat, device. repeat split; [exact Ev | f_equal; lia].
        -- apply Hrest in Hin. destruct Hin as (j & d & Hj). now exists (S j), d.
      * intros ([|j] & d & Hn & Hv & He).
        -- left. injection Hn as <-. rewrite He. f_equal. lia.
        -- right. apply Hrest. now exists j, d.
    + rewrite Hrest. split.
      * intros (j & d & Hj). now exists (S j), d.
      * intros ([|j] & d & Hn & Hv & He).
        -- injection Hn as <-. congruence.
        -- now exists j, d.
Qed.

Lemma scan_inventory_length (devices : list descriptor) :
  forall board_index,
  (List.length (scan_inventory board_index devices) <= List.length devices)%nat.
Proof.
  induction devices as [|device rest IH]; intros board_index;
    cbn [scan_inventory List.length]; [lia|].
  specialize (IH (board_index + 1)).
  destruct (_valid_board (product_id device)); cbn [List.length]; lia.
Qed.

Lemma read_dev_desc_nth (b : BOARDS) (k : Z) (d : descriptor) :
  0 <= k ->
  (read_dev_desc b k = Ok d <-> nth_error (ul_list b) (Z.to_nat k) = Some d).
Proof.
  intros Hk. unfold read_dev_desc. cbv zeta. settle.
  destruct (Z.leb_spec 0 k) as [_|]; [|lia]. cbn [andb].
  destruct (Z.ltb_spec k (len (ul_list b))) as [Hlt|Hge].
  - destruct (nth_error (ul_list b) (Z.to_nat k)) as [d'|] eqn:E.
    + split; intros [= ->]; reflexivity.
    + apply nth_error_None in E. unfold len in Hlt. lia.
  - split; [discriminate|]. intros Hn.
    assert (Hsome : nth_error (ul_list b) (Z.to_nat k) <> None) by congruence.
    apply nth_error_Some in Hsome. unfold len in Hge. lia.
Qed.

Section WithHardware.
Context `{Hardware}.

(** X29.  The list of boards is the inventory filtered, and every entry
    opens.  [read_boards] holds the dictionary of a device exactly when
    the device is in the inventory and its product id is one of the
    four supported; the [Board_Number] of a dictionary is
    the position of its device in the whole inventory, so
    [read_dev_desc] of that number gives back the device the dictionary
    describes; and [device_count] is the number of dictionaries, at
    most the number of devices found. *)
Theorem read_boards_lists_supported_devices (b : BOARDS) (entry : pyval) :
  _get_boards = Ok b ->
  (In entry (read_boards b)
   <-> exists k d, 0 <= k /\ read_dev_desc b k = Ok d
                   /\ _valid_board (product_id d) = true
                   /\ entry = device_dict d k)
  /\ device_count b = len (read_boards b)
  /\ len (read_boards b) <= len (ul_list b).
Proof.
  unfold _get_boards. destruct (ul ignore_instacal) as [u|e]; [|discriminate].
  cbv zeta. intros [= <-]. cbn [read_boards available_device_list ul_list
                                 device_count].
  split; [|split; [reflexivity|]].
  - rewrite scan_inventory_In. split.
    + intros (j & d & Hn & Hv & He). exists (Z.of_nat j), d.
      split; [lia|]. split; [|split; [exact Hv|]].
      * apply read_dev_desc_nth; [lia|]. cbn [ul_list].
        now rewrite Nat2Z.id.
      * rewrite He. f_equal.
    + intros (k & d & Hk & Hr & Hv & He). exists (Z.to_nat k), d.
      apply read_dev_desc_nth in Hr; [|exact Hk]. cbn [ul_list] in Hr.
      split; [exact Hr|]. split; [exact Hv|].
      rewrite He. f_equal. lia.
  - pose proof (scan_inventory_length get_daq_device_inventory 0).
    unfold len. lia.
Qed.

End WithHardware.

Lemma read_boards_lists_supported_devices_witness :
  (In (device_dict Bench.usb_201 0) (read_boards Handlers.boards)
   <-> exists k d, 0 <= k /\ read_dev_desc Handlers.boards k = Ok d
                   /\ _valid_board (product_id d) = true
                   /\ device_dict Bench.usb_201 0 = device_dict d k)
  /\ device_count Handlers.boards = len (read_boards Handlers.boards)
  /\ len (read_boards Handlers.boards) <= len (ul_list Handlers.boards).
Proof.
  apply (read_boards_lists_supported_devices (H := Bench.one_board)
           Handlers.boards (device_dict Bench.usb_201 0)).
  reflexivity.
Defined.

End BoardsMore.

(** ** The chart data *)

Module WebAppMore.
Import WebApp.

Section Deques.
Context {A : Type}.

Lemma deque_short (l : list A) (maxlen : Z) :
  (List.length l <= Z.to_nat maxlen)%nat -> deque l maxlen = l.
Proof.
  intros Hl. unfold deque.
  replace (List.length l - Z.to_nat maxlen)%nat with 0%nat by lia.
  reflexivity.
Qed.

Lemma deque_length (l : list A) (maxlen : Z) :
  List.length (deque l maxlen) = Nat.min (List.length l) (Z.to_nat maxlen).
Proof. unfold deque. rewrite length_skipn. lia. Qed.

(** Cutting to [maxlen] before appending changes nothing in the end. *)
Lemma deque_app (a b : list A) (maxlen : Z) :
  deque (deque a maxlen ++ b) maxlen = deque (a ++ b) maxlen.
Proof.
  destruct (Nat.le_gt_cases (List.length a) (Z.to_nat maxlen)) as [Hle|Hgt].
  - now rewrite (deque_short a) by exact Hle.
  - unfold deque at 1 3. rewrite !length_app, deque_length.
    rewrite Nat.min_r by lia.
    rewrite !skipn_app. rewrite deque_length, Nat.min_r by lia.
    unfold deque. rewrite skipn_skipn.
    f_equal; f_equal; lia.
Qed.

(** A tail that fills the deque by itself is all that is kept. *)
Lemma deque_app_full (a b : list A) (maxlen : Z) :
  (Z.to_nat maxlen <= List.length b)%nat ->
  deque (a ++ b) maxlen = deque b maxlen.
Proof.
  intros Hb. unfold deque. rewrite length_app, skipn_app.
  rewrite (skipn_all2 a) by lia. cbn [app]. f_equal. lia.
Qed.

Lemma deque_skipn (b : list A) (k : nat) (maxlen : Z) :
  (k <= List.length b)%nat ->
  (Z.to_nat maxlen <= List.length b - k)%nat ->
  deque (skipn k b) maxlen = deque b maxlen.
Proof.
  intros Hk Hb. unfold deque. rewrite length_skipn, skipn_skipn.
  f_equal. lia.
Qed.

Lemma fold_append (maxlen : Z) (xs : list A) :
  forall a,
  fold_left (append maxlen) xs (deque a maxlen) = deque (a ++ xs) maxlen.
Proof.
  induction xs as [|x xs IH]; intros a; cbn [fold_left].
  - now rewrite app_nil_r.
  - unfold append at 2. rewrite deque_app, IH, <- app_assoc. reflexivity.
Qed.

End Deques.

Lemma seq_from (a m : nat) : seq a m = map (fun k => (a + k)%nat) (seq 0 m).
Proof.
  revert a. induction m as [|m IH]; intros a; [reflexivity|].
  cbn [seq map]. rewrite Nat.add_0_r. f_equal.
  rewrite IH, <- seq_shift, map_map.
  apply map_ext. intros k. lia.
Qed.

Lemma range_skipn (a b : Z) :
  0 <= a <= b -> range a b = skipn (Z.to_nat a) (range 0 b).
Proof.
  intros Hab. unfold range. rewrite Z.sub_0_r, skipn_map, skipn_seq.
  cbn [Nat.add]. rewrite (seq_from (Z.to_nat a)), map_map.
  replace (Z.to_nat b - Z.to_nat a)%nat with (Z.to_nat (b - a)) by lia.
  apply map_ext. intros k. lia.
Qed.

Lemma range_length (a b : Z) : List.length (range a b) = Z.to_nat (b - a).
Proof. unfold range. now rewrite length_map, length_seq. Qed.

Section Columns.
Context {A : Type}.

Lemma for_chans_length (f : Z -> A -> A) (num_chans : Z) (l : list A) :
  forall chan, List.length (for_chans f chan num_chans l) = List.length l.
Proof.
  induction l as [|x l IH]; intros chan; cbn [for_chans List.length];
    [reflexivity | now rewrite IH].
Qed.

Lemma for_chans_nth (f : Z -> A -> A) (num_chans : Z) (d : A) (l : list A) :
  forall (chan : Z) (j : nat),
  (j < List.length l)%nat ->
  nth j (for_chans f chan num_chans l) d
  = if chan + Z.of_nat j <? num_chans
    then f (chan + Z.of_nat j) (nth j l d) else nth j l d.
Proof.
  induction l as [|x l IH]; intros chan j Hj; cbn [List.length] in Hj; [lia|].
  cbn [for_chans]. destruct j as [|j]; cbn [nth].
  - now rewrite Z.add_0_r.
  - rewrite IH by lia.
    replace (chan + 1 + Z.of_nat j) with (chan + Z.of_nat (S j)) by lia.
    reflexivity.
Qed.

End Columns.

(** The two loops, column by column. *)
Lemma fold_columns (maxlen num_chans count rate : Z) (block : list Z)
    (scans : list Z) :
  forall (ss : list stamp) (dd : list (list Z)),
  let step := fun '(ss, dd) sample =>
    (append maxlen ss (count + sample, rate),
     for_chans
       (fun chan col =>
          let data_index := sample * num_chans + chan in
          append maxlen col (nth (Z.to_nat data_index) block 0))
       0 num_chans dd) in
  fst (fold_left step scans (ss, dd))
  = fold_left (append maxlen) (map (fun s => (count + s, rate)) scans) ss
  /\ List.length (snd (fold_left step scans (ss, dd))) = List.length dd
  /\ forall j, (j < List.length dd)%nat ->
       nth j (snd (fold_left step scans (ss, dd))) []
       = if Z.of_nat j <? num_chans
         then fold_left (append maxlen)
                (map (fun s => nth (Z.to_nat (s * num_chans + Z.of_nat j))
                                 block 0) scans)
                (nth j dd [])
         else nth j dd [].
Proof.
  induction scans as [|s scans IH]; intros ss dd step.
  - cbn [fold_left map fst snd]. repeat split.
    intros j _. now destruct (Z.of_nat j <? num_chans).
  - cbn [fold_left map].
    change (step (ss, dd) s)
      with (append maxlen ss (count + s, rate),
            for_chans
              (fun chan col =>
                 append maxlen col
                   (nth (Z.to_nat (s * num_chans + chan)) block 0))
              0 num_chans dd).
    specialize (IH (append maxlen ss (count + s, rate))
                  (for_chans
                     (fun chan col =>
                        append maxlen col
                          (nth (Z.to_nat (s * num_chans + chan)) block 0))
                     0 num_chans dd)).
    cbv zeta in IH. fold step in IH.
    destruct IH as (Hs & Hl & Hn).
    split; [exact Hs|]. split; [now rewrite Hl, for_chans_length|].
    intros j Hj. rewrite Hn by now rewrite for_chans_length.
    rewrite (for_chans_nth _ _ [] dd 0 j Hj). rewrite Z.add_0_l.
    destruct (Z.of_nat j <? num_chans); reflexivity.
Qed.

(** Appending only the last [maxlen] of the new elements gives the same
    deque as appending them all. *)
Lemma deque_last_scans {B} (f : Z -> B) (a : list B) (maxlen n : Z) :
  0 <= maxlen -> 0 <= n ->
  let start := if n >? maxlen then n - maxlen else 0 in
  deque (a ++ map f (range start n)) maxlen
  = deque (a ++ map f (range 0 n)) maxlen.
Proof.
  intros Hm Hn start. subst start.
  destruct (Z.gtb_spec n maxlen) as [Hgt|Hle]; [|reflexivity].
  rewrite range_skipn by lia. rewrite <- skipn_map.
  assert (Hlen : List.length (map f (range 0 n)) = Z.to_nat n)
    by (rewrite length_map, range_length; f_equal; lia).
  rewrite !deque_app_full
    by (try rewrite length_skipn; rewrite Hlen; lia).
  apply deque_skipn; rewrite Hlen; lia.
Qed.

(** X30.  [add_samples_to_data] de-interleaves a block into the chart,
    keeping the last [number_of_samples] of each channel.  A block of
    [n] whole scans of [num_chans] channels (what is left over after
    the last whole scan is ignored) adds to the column of each channel
    the samples of that channel in scan order, and to the time axis one
    stamp for each scan, counted on from [sample_count]; every list is
    then cut to its last [number_of_samples] entries; columns beyond
    the channels are left alone; and the new total [sample_count + n]
    is returned.  A block of fewer scans than there are channels is
    thrown away whole: the chart and the total stay as they were. *)
Theorem add_samples_to_data_columns (number_of_samples num_chans : Z)
    (chart : chart_data) (block : list Z) (sample_rate : Z) :
  0 < num_chans -> 0 <= number_of_samples ->
  num_chans <= len (data chart) -> sample_rate <> 0 ->
  let n := Z.quot (len block) num_chans in
  (n < num_chans ->
   add_samples_to_data number_of_samples num_chans chart block sample_rate
   = Some (sample_count chart, chart))
  /\ (num_chans <= n ->
      exists chart',
        add_samples_to_data number_of_samples num_chans chart block sample_rate
        = Some (sample_count chart + n, chart')
        /\ sample_count chart' = sample_count chart
        /\ samples chart'
           = deque (samples chart
                    ++ map (fun s => (sample_count chart + s, sample_rate))
                         (range 0 n)) number_of_samples
        /\ List.length (data chart') = List.length (data chart)
        /\ forall j, (j < List.length (data chart))%nat ->
             nth j (data chart') []
             = if Z.of_nat j <? num_chans
               then deque (nth j (data chart) []
                           ++ column block num_chans (Z.of_nat j) n)
                      number_of_samples
               else nth j (data chart) []).
Proof.
  intros Hc Hm Hcols Hrate n.
  unfold add_samples_to_data. fold n. cbv zeta.
  rewrite eqb_false by lia.
  split; intros Hn; [now rewrite ltb_true by lia|].
  rewrite ltb_false by lia. rewrite (ltb_false number_of_samples) by lia.
  rewrite (ltb_false (len (data chart))) by lia.
  rewrite (eqb_false sample_rate) by exact Hrate. cbn [andb].
  pose proof (fold_columns number_of_samples num_chans (sample_count chart)
                sample_rate block
                (range (if n >? number_of_samples
                        then n - number_of_samples else 0) n)
                (deque (samples chart) number_of_samples)
                (for_chans (fun _ col => deque col number_of_samples) 0
                   num_chans (data chart))) as Hfold.
  cbv zeta in Hfold.
  destruct (fold_left _ _ _) as [samples1 data1].
  cbn [fst snd] in Hfold. destruct Hfold as (Hs & Hl & Hcol).
  rewrite for_chans_length in Hl, Hcol.
  eexists. split; [reflexivity|]. cbn [sample_count samples data].
  split; [reflexivity|]. split; [|split; [exact Hl|]].
  - rewrite Hs, fold_append.
    apply (deque_last_scans
             (fun s => (sample_count chart + s, sample_rate))); lia.
  - intros j Hj. rewrite (Hcol j Hj).
    rewrite (for_chans_nth _ _ [] (data chart) 0 j Hj), Z.add_0_l.
    destruct (Z.of_nat j <? num_chans); [|reflexivity].
    rewrite fold_append. unfold column.
    apply (deque_last_scans
             (fun s => nth (Z.to_nat (s * num_chans + Z.of_nat j)) block 0));
      lia.
Qed.

(** Two channels, three scans, a chart that shows two samples. *)
Lemma add_samples_to_data_columns_witness :
  exists chart',
    add_samples_to_data 2 2 (mkChart 10 [] [[7]; [8]]) [1; 2; 3; 4; 5; 6] 1000
    = Some (10 + 3, chart')
    /\ sample_count chart' = 10
    /\ samples chart'
       = deque ([] ++ map (fun s => (10 + s, 1000)) (range 0 3)) 2
    /\ List.length (data chart') = 2%nat
    /\ forall j, (j < 2)%nat ->
         nth j (data chart') []
         = if Z.of_nat j <? 2
           then deque (nth j [[7]; [8]] []
                       ++ column [1; 2; 3; 4; 5; 6] 2 (Z.of_nat j) 3) 2
           else nth j [[7]; [8]] [].
Proof.
  apply (add_samples_to_data_columns 2 2 (mkChart 10 [] [[7]; [8]])
           [1; 2; 3; 4; 5; 6] 1000); cbn; lia.
Defined.

End WebAppMore.
